(** * ZRA Smart Invoice pre-submission validator: the validation engine

    A shallow embedding of [src/lib/validation.ts] (with the part of
    [src/lib/zraValidationRules.ts] it calls) and the properties of its
    specification.

    Conventions of the embedding.
    - A JavaScript number is a finite decimal [mant * 10^-expo] with exact
      arithmetic.  The arithmetic of the source (product, sum, difference,
      division by 100, [Math.round], [Math.abs], comparisons) is closed on
      finite decimals; the rounding error of binary64, NaN and the infinities
      are outside the model, and so is a decimal beyond the range of
      binary64, which is the value of no JavaScript number.
    - A string is a [string] of characters with the codes 0 to 255, one for
      each code unit of the JavaScript string: the characters U+0000 to
      U+00FF.  The white space of this range is TAB, LF, VT, FF, CR, SPACE
      and the no-break space U+00A0; no character of the range but the
      digits 0 to 9 matches [\d].  Characters beyond U+00FF are outside the
      model.
    - A decoded payload is a tree [jv]: its objects are plain objects, given
      by their own properties in the order of enumeration, and hold no
      function.  During validation the records live in a store of mutable
      cells ([heap]); objects and arrays are references into it, so that two
      names for one object see each other's writes.
    - A call returns a value or throws ([outcome]): the thrown exceptions
      are the SyntaxError of [JSON.parse], the TypeErrors of an access to a
      property of [undefined] or [null] and of an assignment to a property
      of a primitive (the module is in strict mode), and the TypeError of
      [String] on an object with a property [toString] of its own. *)

From Stdlib Require Import ZArith String Ascii List Lia Bool.
From stdpp Require Import base numbers list strings gmap pretty.

Local Open Scope Z_scope.

(** ** Strings *)

Section strings.

Fixpoint filterS (p : ascii -> bool) (s : string) : string :=
  match s with
  | EmptyString => EmptyString
  | String c r => if p c then String c (filterS p r) else filterS p r
  end.

Fixpoint forallS (p : ascii -> bool) (s : string) : bool :=
  match s with
  | EmptyString => true
  | String c r => p c && forallS p r
  end.

Fixpoint repeatS (c : ascii) (n : nat) : string :=
  match n with
  | O => EmptyString
  | S k => String c (repeatS c k)
  end.

Fixpoint takeS (n : nat) (s : string) : string :=
  match n, s with
  | S k, String c r => String c (takeS k r)
  | _, _ => EmptyString
  end.

Fixpoint dropS (n : nat) (s : string) : string :=
  match n, s with
  | S k, String _ r => dropS k r
  | _, _ => s
  end.

Fixpoint mapS (f : ascii -> ascii) (s : string) : string :=
  match s with
  | EmptyString => EmptyString
  | String c r => String (f c) (mapS f r)
  end.

(** [s.padEnd(n, c)] and [s.padStart(n, c)] for a one-character filler. *)
Definition padEnd (n : nat) (c : ascii) (s : string) : string :=
  s +:+ repeatS c (n - String.length s).

Definition padStart (n : nat) (c : ascii) (s : string) : string :=
  repeatS c (n - String.length s) +:+ s.

Definition code (c : ascii) : nat := nat_of_ascii c.

(** [\d] of a regular expression without the [u] flag: [0-9]. *)
Definition isDigit (c : ascii) : bool :=
  (48 <=? code c)%nat && (code c <=? 57)%nat.

(** White space and line terminators removed by [trim], as far as they
    are characters of the model: TAB, LF, VT, FF, CR, SPACE and the
    no-break space U+00A0.  (The others are U+1680, U+2000 to U+200A,
    U+2028, U+2029, U+202F, U+205F, U+3000 and U+FEFF.) *)
Definition isSpace (c : ascii) : bool :=
  ((9 <=? code c)%nat && (code c <=? 13)%nat) || (code c =? 32)%nat ||
  (code c =? 160)%nat.

Fixpoint trimStart (s : string) : string :=
  match s with
  | String c r => if isSpace c then trimStart r else s
  | EmptyString => EmptyString
  end.

Definition trim (s : string) : string :=
  String.rev (trimStart (String.rev (trimStart s))).

(** The letters with two cases: [a] to [z], and U+00E0 to U+00FE but
    the division sign U+00F7, in lower case; 32 less in upper case. *)
Definition isLower (n : nat) : bool :=
  ((97 <=? n)%nat && (n <=? 122)%nat) ||
  ((224 <=? n)%nat && (n <=? 254)%nat && negb (n =? 247)%nat).

Definition upperChar (c : ascii) : ascii :=
  if isLower (code c) then ascii_of_nat (code c - 32) else c.

Definition lowerChar (c : ascii) : ascii :=
  if isLower (code c + 32) then ascii_of_nat (code c + 32) else c.

(** [s.toUpperCase()].  The sharp s U+00DF becomes ["SS"]; the upper case
    of the micro sign U+00B5 and of U+00FF lies beyond U+00FF, and a text
    with one of the two is outside the model. *)
Fixpoint toUpperCase (s : string) : string :=
  match s with
  | EmptyString => EmptyString
  | String c r =>
      if (code c =? 223)%nat then String "S" (String "S" (toUpperCase r))
      else String (upperChar c) (toUpperCase r)
  end.

Definition toLowerCase : string -> string := mapS lowerChar.

(** [field.charAt(0).toLowerCase() + field.slice(1)] *)
Definition lowerFirst (s : string) : string :=
  match s with
  | EmptyString => EmptyString
  | String c r => String (lowerChar c) r
  end.

(** [parts.join(sep)] *)
Fixpoint joinS (sep : string) (parts : list string) : string :=
  match parts with
  | [] => EmptyString
  | [p] => p
  | p :: rest => p +:+ sep +:+ joinS sep rest
  end.

(** The digits of a string read as a natural number ([parseInt] on a
    string of digits). *)
Definition digitVal (c : ascii) : Z := Z.of_nat (code c - 48).

Fixpoint digitsValAcc (acc : Z) (s : string) : Z :=
  match s with
  | EmptyString => acc
  | String c r => digitsValAcc (10 * acc + digitVal c) r
  end.

Definition digitsVal (s : string) : Z := digitsValAcc 0 s.

End strings.

(** ** Numbers *)

Record num := Num { mant : Z; expo : nat }.

Section numbers.

Definition pow10 (k : nat) : Z := 10 ^ Z.of_nat k.

Definition num_of_Z (z : Z) : num := Num z 0.

Definition num_add (a b : num) : num :=
  Num (mant a * pow10 (expo b) + mant b * pow10 (expo a)) (expo a + expo b).

Definition num_sub (a b : num) : num :=
  Num (mant a * pow10 (expo b) - mant b * pow10 (expo a)) (expo a + expo b).

Definition num_mul (a b : num) : num :=
  Num (mant a * mant b) (expo a + expo b).

(** [a / 100]: the only division of the source. *)
Definition num_div100 (a : num) : num := Num (mant a) (expo a + 2).

Definition num_abs (a : num) : num := Num (Z.abs (mant a)) (expo a).

(** [Math.round(a)]: the integer nearest to [a], ties towards +infinity,
    that is [floor (a + 1/2)]. *)
Definition num_round (a : num) : num :=
  Num ((2 * mant a + pow10 (expo a)) `div` (2 * pow10 (expo a))) 0.

Definition num_eqb (a b : num) : bool :=
  mant a * pow10 (expo b) =? mant b * pow10 (expo a).

Definition num_ltb (a b : num) : bool :=
  mant a * pow10 (expo b) <? mant b * pow10 (expo a).

Definition num_leb (a b : num) : bool :=
  mant a * pow10 (expo b) <=? mant b * pow10 (expo a).

Definition num_gtb (a b : num) : bool := num_ltb b a.
Definition num_geb (a b : num) : bool := num_leb b a.

Definition n0 : num := num_of_Z 0.
Definition n16 : num := num_of_Z 16.
Definition n100 : num := num_of_Z 100.
(** the literal [0.01] *)
Definition n0_01 : num := Num 1 2.

(** [Math.round(x * 100) / 100] *)
Definition round2 (x : num) : num := num_div100 (num_round (num_mul x n100)).

(** Number of ['0'] characters a string starts with, and ends with. *)
Fixpoint leadingZeros (s : string) : nat :=
  match s with
  | String "0"%char r => S (leadingZeros r)
  | _ => O
  end.

Definition trailingZeros (s : string) : nat := leadingZeros (String.rev s).

(** [String(n)], after Number::toString of ECMAScript: with [s] the
    significant digits ([k] of them) and [n] the position of the decimal
    point, positional notation for [-6 < n <= 21] and exponent notation
    otherwise. *)
Definition num_toString (a : num) : string :=
  if mant a =? 0 then "0" else
  let sign : string := if mant a <? 0 then "-" else "" in
  let s0 : string := pretty (Z.abs_N (mant a)) in
  let t := trailingZeros s0 in
  let s := takeS (String.length s0 - t) s0 in
  let k := Z.of_nat (String.length s) in
  let n := k - (Z.of_nat (expo a) - Z.of_nat t) in
  sign +:+
  (if (k <=? n) && (n <=? 21) then s +:+ repeatS "0" (Z.to_nat (n - k))
   else if (0 <? n) && (n <=? 21) then
     takeS (Z.to_nat n) s +:+ "." +:+ dropS (Z.to_nat n) s
   else if (-6 <? n) && (n <=? 0) then
     "0." +:+ repeatS "0" (Z.to_nat (- n)) +:+ s
   else
     let e := n - 1 in
     let es : string := (if e <? 0 then "-" else "+") +:+ pretty (Z.abs_N e) in
     if k =? 1 then s +:+ "e" +:+ es
     else takeS 1 s +:+ "." +:+ dropS 1 s +:+ "e" +:+ es).

(** [parseFloat(s)] on the strings [parseNumber] passes to it, whose
    characters are digits, ['.'], ['-'] and ['^']: an optional sign, then
    the longest prefix [digits [. digits]] or [. digits]; [None] is NaN.
    (Exponents, ["Infinity"], ['+'] and white space cannot occur: the
    cleaning of [parseNumber] has removed letters, ['+'] and blanks.) *)
Fixpoint spanDigits (s : string) : string * string :=
  match s with
  | String c r =>
      if isDigit c then let '(d, rest) := spanDigits r in (String c d, rest)
      else (EmptyString, s)
  | EmptyString => (EmptyString, EmptyString)
  end.

Definition parseUnsigned (s : string) : option num :=
  let '(ip, rest) := spanDigits s in
  let fp : string :=
    match rest with
    | String "."%char r => fst (spanDigits r)
    | _ => EmptyString
    end in
  if ((String.length ip =? 0)%nat && (String.length fp =? 0)%nat)%bool then None
  else Some (Num (digitsVal (ip +:+ fp)) (String.length fp)).

Definition num_neg (a : num) : num := Num (- mant a) (expo a).

Definition parseFloat (s : string) : option num :=
  match s with
  | String "-"%char r => num_neg <$> parseUnsigned r
  | _ => parseUnsigned s
  end.

End numbers.


(** ** Exceptions *)

(** The outcome of a call: a value, or a thrown exception. *)
Inductive outcome (A : Type) :=
| Ok (a : A)
| Throw (err : string).
Arguments Ok {A} a.
Arguments Throw {A} err.

Definition bindO {A B : Type} (m : outcome A) (f : A -> outcome B) : outcome B :=
  match m with
  | Ok a => f a
  | Throw e => Throw e
  end.

Global Instance outcome_bind : MBind outcome := fun A B f m => bindO m f.
Global Instance outcome_ret : MRet outcome := @Ok.

(** ** Decoded documents *)

(** A decoded payload.  [JUndef] is JavaScript's [undefined]; the decoders
    never produce it, but a caller of the exported functions can pass it. *)
Unset Elimination Schemes.
Inductive jv :=
| JUndef
| JNull
| JBool (b : bool)
| JNum (n : num)
| JStr (s : string)
| JArr (elems : list jv)
| JObj (props : list (string * jv)).
Set Elimination Schemes.

Inductive Confidence := High | Medium | Low.

Section conversions.

Definition dquote : string := String "034"%char EmptyString.

Definition hexDigit (n : nat) : ascii :=
  ascii_of_nat (if (n <? 10)%nat then 48 + n else 87 + n).

(** The escapes of [JSON.stringify] inside a string literal. *)
Definition escapeChar (c : ascii) : string :=
  let n := code c in
  if (n =? 34)%nat then "\" +:+ dquote
  else if (n =? 92)%nat then "\\"
  else if (n =? 8)%nat then "\b"
  else if (n =? 9)%nat then "\t"
  else if (n =? 10)%nat then "\n"
  else if (n =? 12)%nat then "\f"
  else if (n =? 13)%nat then "\r"
  else if (n <? 32)%nat then
    "\u00" +:+ String (hexDigit (n / 16)) (String (hexDigit (n mod 16)) EmptyString)
  else String c EmptyString.

Fixpoint escapeS (s : string) : string :=
  match s with
  | EmptyString => EmptyString
  | String c r => escapeChar c +:+ escapeS r
  end.

Definition quoteS (s : string) : string := dquote +:+ escapeS s +:+ dquote.

(** [JSON.stringify(v)]; [None] is the result [undefined]. *)
Fixpoint stringify (v : jv) : option string :=
  match v with
  | JUndef => None
  | JNull => Some "null"
  | JBool true => Some "true"
  | JBool false => Some "false"
  | JNum n => Some (num_toString n)
  | JStr s => Some (quoteS s)
  | JArr elems =>
      Some ("[" +:+ joinS "," (map (fun e => default "null" (stringify e)) elems) +:+ "]")
  | JObj props =>
      Some ("{" +:+
            joinS "," (omap (fun kv : string * jv =>
                               (fun s => quoteS (fst kv) +:+ ":" +:+ s) <$> stringify (snd kv))
                            props) +:+ "}")
  end.

(** [String(v)] *)
Fixpoint toStr (v : jv) : string :=
  match v with
  | JUndef => "undefined"
  | JNull => "null"
  | JBool true => "true"
  | JBool false => "false"
  | JNum n => num_toString n
  | JStr s => s
  | JArr elems =>
      joinS "," (map (fun e => match e with
                               | JUndef | JNull => EmptyString
                               | _ => toStr e
                               end) elems)
  | JObj _ => "[object Object]"
  end.

(** [String(v)] throws a TypeError for an object that has a property
    [toString] of its own.  In a decoded document the property is no
    function, so that the conversion skips it, and the [valueOf] it turns
    to next gives no primitive either ([Object.prototype.valueOf] returns
    the object).  An array is converted by [join], which converts its
    elements other than [undefined] and [null]. *)
Fixpoint stringable (v : jv) : bool :=
  match v with
  | JArr elems => forallb stringable elems
  | JObj props =>
      negb (existsb (fun kv : string * jv => String.eqb "toString" (fst kv)) props)
  | _ => true
  end.

Definition stringOf (v : jv) : outcome string :=
  if stringable v then Ok (toStr v)
  else Throw "TypeError: Cannot convert object to primitive value".

End conversions.

(** ** Field normalizers *)

Section normalizers.

(** [typeof value === 'string' || typeof value === 'number' ?
    String(value) : JSON.stringify(value)].  The value is neither [null]
    nor [undefined] here, so that [JSON.stringify] yields a string. *)
Definition coerceText (value : jv) : string :=
  match value with
  | JStr _ | JNum _ => toStr value
  | _ => default "undefined" (stringify value)
  end.

(** [stringValue.replace(/[^0-9]/g, '')] *)
Definition stripNonDigits (s : string) : string := filterS isDigit s.

Definition normalizeTpin (value : jv) : string * Confidence :=
  match value with
  | JNull | JUndef => ("0000000000", Low)
  | _ =>
      let stringValue := coerceText value in
      let cleaned := stripNonDigits stringValue in
      let len := String.length cleaned in
      if (len =? 10)%nat then (cleaned, High)
      else if (len =? 9)%nat then ("0" +:+ cleaned, Medium)
      else if (10 <? len)%nat then (takeS 10 cleaned, Medium)
      else if (6 <=? len)%nat then (padEnd 10 "0" cleaned, Low)
      else ("0000000000", Low)
  end.

(** The class [[^^\d.-]] of the source is negated and lists ['^'], the
    digits, ['.'] and ['-']: these are the characters that are kept. *)
Definition keptByParseNumber (c : ascii) : bool :=
  (code c =? 94)%nat || isDigit c || (code c =? 46)%nat || (code c =? 45)%nat.

Definition parseNumber (value : jv) : outcome (option num) :=
  match value with
  | JNum n => Ok (Some n)
  | JNull | JUndef => Ok None
  | _ =>
      text ← stringOf value;
      let cleaned := filterS keptByParseNumber text in
      Ok (parseFloat cleaned)
  end.

End normalizers.

(** ** Dates *)

(** The clock of the run: [now] is the time value of [new Date()]
    (milliseconds since the epoch) and [localYear] is
    [new Date().getFullYear()], which depends on the time zone of the host. *)
Record clock := Clock { now : Z; localYear : Z }.

Section dates.

Definition msPerDay : Z := 86400000.

(** Day number (days since 1970-01-01) of a proleptic Gregorian date. *)
Definition daysFromCivil (y m d : Z) : Z :=
  let y' := if m <=? 2 then y - 1 else y in
  let era := y' `div` 400 in
  let yoe := y' - era * 400 in
  let doy := (153 * (if 2 <? m then m - 3 else m + 9) + 2) `div` 5 + d - 1 in
  let doe := yoe * 365 + yoe `div` 4 - yoe `div` 100 + doy in
  era * 146097 + doe - 719468.

Definition civilFromDays (z : Z) : Z * Z * Z :=
  let z' := z + 719468 in
  let era := z' `div` 146097 in
  let doe := z' - era * 146097 in
  let yoe := (doe - doe `div` 1460 + doe `div` 36524 - doe `div` 146096) `div` 365 in
  let doy := doe - (365 * yoe + yoe `div` 4 - yoe `div` 100) in
  let mp := (5 * doy + 2) `div` 153 in
  let d := doy - (153 * mp + 2) `div` 5 + 1 in
  let m := if mp <? 10 then mp + 3 else mp - 9 in
  let y := yoe + era * 400 in
  (if m <=? 2 then y + 1 else y, m, d).

Definition padZ (width : nat) (z : Z) : string :=
  padStart width "0" (pretty (Z.to_N z)).

(** [new Date(ms).toISOString().split('T')[0]], for a year in 0..9999. *)
Definition isoDateOfMs (ms : Z) : string :=
  let '(y, m, d) := civilFromDays (ms `div` msPerDay) in
  padZ 4 y +:+ "-" +:+ padZ 2 m +:+ "-" +:+ padZ 2 d.

(** The time value of [new Date("YYYY-MM-DD")], [None] for an invalid
    date.  The string has the date-only ISO form, read as UTC midnight.
    As V8 (the engine the tests of the repository run on) does, a month
    in 1..12 and a day in 1..31 are accepted, and a day past the end of
    the month runs over into the next one; for a date that exists in the
    calendar this is the value every engine gives. *)
Definition dateOfYMD (year month day : string) : option Z :=
  let y := digitsVal year in
  let m := digitsVal month in
  let d := digitsVal day in
  if (1 <=? m) && (m <=? 12) && (1 <=? d) && (d <=? 31)
  then Some ((daysFromCivil y m 1 + d - 1) * msPerDay)
  else None.

(** One entry of [formats]: three groups of digits between two
    separators; [lo..hi] is the number of digits a group accepts. *)
Record dateFormat := DateFormat {
  sep : ascii;
  g1 : nat * nat;
  g2 : nat * nat;
  g3 : nat * nat;
  yearFirst : bool
}.

Definition formats : list dateFormat :=
  [ DateFormat "-" (4, 4)%nat (1, 2)%nat (1, 2)%nat true;    (* /^(\d{4})-(\d{1,2})-(\d{1,2})$/ *)
    DateFormat "/" (2, 2)%nat (1, 2)%nat (4, 4)%nat false;   (* /^(\d{2})\/(\d{1,2})\/(\d{4})$/ *)
    DateFormat "-" (1, 2)%nat (1, 2)%nat (4, 4)%nat false;   (* /^(\d{1,2})-(\d{1,2})-(\d{4})$/ *)
    DateFormat "/" (4, 4)%nat (1, 2)%nat (1, 2)%nat true;    (* /^(\d{4})\/(\d{1,2})\/(\d{1,2})$/ *)
    DateFormat "." (1, 2)%nat (1, 2)%nat (4, 4)%nat false ]. (* /^(\d{1,2})\.(\d{1,2})\.(\d{4})$/ *)

Definition lenIn (r : nat * nat) (s : string) : bool :=
  (fst r <=? String.length s)%nat && (String.length s <=? snd r)%nat.

(** [stringValue.match(formats[i])]: the three captured groups.  The
    groups hold digits only and the separator is not a digit, so the
    groups are the maximal runs of digits. *)
Definition matchFormat (f : dateFormat) (s : string) : option (string * string * string) :=
  let '(a, r1) := spanDigits s in
  match r1 with
  | String c1 r1' =>
      let '(b, r2) := spanDigits r1' in
      match r2 with
      | String c2 r2' =>
          let '(c, r3) := spanDigits r2' in
          if bool_decide (c1 = sep f) && bool_decide (c2 = sep f) &&
             bool_decide (r3 = EmptyString) &&
             lenIn (g1 f) a && lenIn (g2 f) b && lenIn (g3 f) c
          then Some (a, b, c) else None
      | EmptyString => None
      end
  | EmptyString => None
  end.

(** The body of the loop over [formats] for one format: the normalized
    date when the format matches and the date passes the checks. *)
Definition tryFormat (clk : clock) (s : string) (f : dateFormat) : option string :=
  match matchFormat f s with
  | Some (a, b, c) =>
      let '(year, month, day) := if yearFirst f then (a, b, c) else (c, b, a) in
      let normalized := year +:+ "-" +:+ padStart 2 "0" month +:+ "-" +:+ padStart 2 "0" day in
      match dateOfYMD year (padStart 2 "0" month) (padStart 2 "0" day) with
      | Some t =>
          if t <=? now clk then
            let yearNum := digitsVal year in
            if (2000 <=? yearNum) && (yearNum <=? localYear clk + 1)
            then Some normalized else None
          else None
      | None => None
      end
  | None => None
  end.

Fixpoint firstFormat (clk : clock) (s : string) (fs : list dateFormat) : option string :=
  match fs with
  | [] => None
  | f :: rest =>
      match tryFormat clk s f with
      | Some n => Some n
      | None => firstFormat clk s rest
      end
  end.

Definition today (clk : clock) : string := isoDateOfMs (now clk).

Definition normalizeDate (clk : clock) (value : jv) : string * Confidence :=
  match value with
  | JNull | JUndef => (today clk, Low)
  | _ =>
      let stringValue := trim (coerceText value) in
      match firstFormat clk stringValue formats with
      | Some normalized => (normalized, High)
      | None =>
          (* /^\d{10,13}$/ *)
          if forallS isDigit stringValue &&
             (10 <=? String.length stringValue)%nat &&
             (String.length stringValue <=? 13)%nat
          then
            let timestamp := digitsVal stringValue in
            let ms :=
              if (String.length (num_toString (num_of_Z timestamp)) =? 10)%nat
              then timestamp * 1000 else timestamp in
            (isoDateOfMs ms, Medium)
          else (today clk, Low)
      end
  end.

End dates.

(** ** The store *)

(** A JavaScript value: a primitive, or a reference to an object or an
    array of the store. *)
Inductive value :=
| VUndef
| VNull
| VBool (b : bool)
| VNum (n : num)
| VStr (s : string)
| VRef (l : nat).

(** The properties of an object in insertion order, or the elements of an
    array. *)
Inductive cell :=
| CObj (props : list (string * value))
| CArr (elems : list value).

Abbreviation heap := (list cell).

Global Instance num_eq_dec : EqDecision num.
Proof. solve_decision. Defined.
Global Instance value_eq_dec : EqDecision value.
Proof. solve_decision. Defined.

Section store.

Definition lookupProp (k : string) (ps : list (string * value)) : value :=
  match find (fun kv : string * value => String.eqb k (fst kv)) ps with
  | Some kv => snd kv
  | None => VUndef
  end.

Definition hasKey (k : string) (ps : list (string * value)) : bool :=
  existsb (fun kv : string * value => String.eqb k (fst kv)) ps.

(** [obj[k] = v] on the property list: an existing key keeps its place,
    a new key goes last. *)
Fixpoint assignProp (k : string) (v : value) (ps : list (string * value))
  : list (string * value) :=
  match ps with
  | [] => [(k, v)]
  | kv :: r => if String.eqb k (fst kv) then (k, v) :: r else kv :: assignProp k v r
  end.

Definition objProps (h : heap) (v : value) : option (list (string * value)) :=
  match v with
  | VRef l => match h !! l with Some (CObj ps) => Some ps | _ => None end
  | _ => None
  end.

Definition arrElems (h : heap) (v : value) : option (list value) :=
  match v with
  | VRef l => match h !! l with Some (CArr es) => Some es | _ => None end
  | _ => None
  end.

(** [v !== null && typeof v === 'object' && !Array.isArray(v)] *)
Definition isObject (h : heap) (v : value) : bool := bool_decide (is_Some (objProps h v)).

Definition isArray (h : heap) (v : value) : bool := bool_decide (is_Some (arrElems h v)).

(** [v[k]] for a value that is an object (the reads of the source on
    records are guarded by [isObject]); [undefined] otherwise. *)
Definition getProp (h : heap) (v : value) (k : string) : value :=
  match objProps h v with
  | Some ps => lookupProp k ps
  | None => VUndef
  end.

(** [k in v] *)
Definition hasProp (h : heap) (v : value) (k : string) : bool :=
  match objProps h v with
  | Some ps => hasKey k ps
  | None => false
  end.

(** [Object.keys(v)] *)
Definition keysOf (h : heap) (v : value) : list string :=
  match objProps h v with
  | Some ps => map fst ps
  | None => []
  end.

(** The store after [o[k] = v] for the object at [l].  A named property
    put on an array is not an element: no read of this program, nor
    [JSON.stringify], sees it, and the array cell is left as it is. *)
Definition setProp (l : nat) (k : string) (v : value) (h : heap) : heap :=
  match h !! l with
  | Some (CObj ps) => <[l := CObj (assignProp k v ps)]> h
  | _ => h
  end.

(** A new cell at the end of the store. *)
Definition allocCell (c : cell) (h : heap) : value * heap :=
  (VRef (length h), h ++ [c]).

Definition isUndef (v : value) : bool :=
  match v with VUndef => true | _ => false end.

Definition isNullish (v : value) : bool :=
  match v with VUndef | VNull => true | _ => false end.

(** Truthiness: [undefined], [null], [false], [0] and [''] are falsy. *)
Definition truthy (v : value) : bool :=
  match v with
  | VUndef | VNull => false
  | VBool b => b
  | VNum n => negb (mant n =? 0)
  | VStr s => negb (bool_decide (s = EmptyString))
  | VRef _ => true
  end.

(** [a || b] and [a ?? b] *)
Definition orElse (a b : value) : value := if truthy a then a else b.
Definition coalesce (a b : value) : value := if isNullish a then b else a.

(** [typeof v] *)
Definition typeOf (v : value) : string :=
  match v with
  | VUndef => "undefined"
  | VNull | VRef _ => "object"
  | VBool _ => "boolean"
  | VNum _ => "number"
  | VStr _ => "string"
  end.

(** Placing a document in the store: the cells of the children first,
    the cell of the node last. *)
Section alloc_children.
Variable allocOne : jv -> heap -> value * heap.

Fixpoint allocElems (ts : list jv) (h : heap) : list value * heap :=
  match ts with
  | [] => ([], h)
  | t :: r =>
      let '(v, h1) := allocOne t h in
      let '(vs, h2) := allocElems r h1 in
      (v :: vs, h2)
  end.

Fixpoint allocProps (kts : list (string * jv)) (h : heap)
  : list (string * value) * heap :=
  match kts with
  | [] => ([], h)
  | (k, t) :: r =>
      let '(v, h1) := allocOne t h in
      let '(kvs, h2) := allocProps r h1 in
      ((k, v) :: kvs, h2)
  end.
End alloc_children.

Fixpoint alloc (t : jv) (h : heap) : value * heap :=
  match t with
  | JUndef => (VUndef, h)
  | JNull => (VNull, h)
  | JBool b => (VBool b, h)
  | JNum n => (VNum n, h)
  | JStr s => (VStr s, h)
  | JArr ts => let '(vs, h1) := allocElems alloc ts h in allocCell (CArr vs) h1
  | JObj kts => let '(kvs, h1) := allocProps alloc kts h in allocCell (CObj kvs) h1
  end.

(** The document a value stands for in a store.  The fuel bounds the
    depth; the number of cells is enough for a store without cycles. *)
Fixpoint reify (fuel : nat) (h : heap) (v : value) : jv :=
  match v with
  | VUndef => JUndef
  | VNull => JNull
  | VBool b => JBool b
  | VNum n => JNum n
  | VStr s => JStr s
  | VRef l =>
      match fuel with
      | O => JNull
      | S n =>
          match h !! l with
          | Some (CObj ps) => JObj (map (fun kv : string * value => (fst kv, reify n h (snd kv))) ps)
          | Some (CArr es) => JArr (map (reify n h) es)
          | None => JNull
          end
      end
  end.

Definition contentOf (h : heap) (v : value) : jv := reify (length h) h v.

(** [JSON.parse(JSON.stringify(v))] on documents: [None] when
    [JSON.stringify] gives [undefined], which [JSON.parse] rejects with a
    SyntaxError.  A property whose value is [undefined] is dropped and an
    [undefined] element of an array becomes [null].  A number of the model
    is finite and is written and read back as it is; NaN and the
    infinities, which [JSON.stringify] writes as [null], are outside the
    model. *)
Fixpoint jsonClone (v : jv) : option jv :=
  match v with
  | JUndef => None
  | JNull => Some JNull
  | JBool b => Some (JBool b)
  | JNum n => Some (JNum n)
  | JStr s => Some (JStr s)
  | JArr elems => Some (JArr (map (fun e => default JNull (jsonClone e)) elems))
  | JObj props =>
      Some (JObj (omap (fun kv : string * jv => (fun c => (fst kv, c)) <$> jsonClone (snd kv)) props))
  end.

End store.

(** ** Issues and results *)

Inductive Severity := SevError | SevWarning | SevInfo.

(** The type of the optional property [category] of an issue: one of the
    eight names, or [undefined] for an issue without the property. *)
Inductive Category :=
| CatTpin | CatDate | CatVat | CatAmount
| CatMandatory | CatDuplicate | CatCurrency | CatSchema
| CatUndefined.

(** [ValidationIssue] of [src/types/index.ts].  The two values are kept as
    the documents they stand for when the issue is pushed. *)
Record ValidationIssue := Issue {
  severity : Severity;
  field : string;
  message : string;
  originalValue : jv;
  fixedValue : jv;
  autoFixed : bool;
  confidence : Confidence;
  category : Category
}.

Record ValidationResult := Result {
  isValid : bool;
  issues : list ValidationIssue;
  originalData : jv;
  fixedData : jv
}.

Inductive FileType := Xml | Csv | Json.

Global Instance Severity_eq_dec : EqDecision Severity.
Proof. solve_decision. Defined.
Global Instance Category_eq_dec : EqDecision Category.
Proof. solve_decision. Defined.
Global Instance Confidence_eq_dec : EqDecision Confidence.
Proof. solve_decision. Defined.

(** ** The validation engine *)

(** What one call of [validateAndFix] carries from record to record: the
    store, the list [issues] and the map [invoiceNumbersSeen]. *)
Record state := State {
  st_heap : heap;
  st_issues : list ValidationIssue;
  invoiceNumbersSeen : gmap string nat
}.

Section engine.

Variable clk : clock.

(** [issues.push(i)] *)
Definition pushIssue (i : ValidationIssue) (st : state) : state :=
  State (st_heap st) (st_issues st ++ [i]) (invoiceNumbersSeen st).

(** [o[k] = v] for the object [o] *)
Definition assign (o : value) (k : string) (v : value) (st : state) : state :=
  match o with
  | VRef l => State (setProp l k v (st_heap st)) (st_issues st) (invoiceNumbersSeen st)
  | _ => st
  end.

Definition recordLabel (index : nat) : string :=
  " (Record " +:+ pretty (S index) +:+ ")".

Definition lineLabel (index lineIndex : nat) : string :=
  " (Record " +:+ pretty (S index) +:+ ", Line " +:+ pretty (S lineIndex) +:+ ")".

Definition extractPrimitive (h : heap) (val : value) : value :=
  if isNullish val then val
  else if isObject h val then
    if hasProp h val "#text" then getProp h val "#text"
    else
      match keysOf h val with
      | [k] => if negb (isObject h (getProp h val k)) then getProp h val k else val
      | _ => val
      end
  else val.

(** [x === null || p(x)] and [x !== null && p(x)] for a parsed number. *)
Definition nullOr (p : num -> bool) (x : option num) : bool :=
  match x with None => true | Some v => p v end.
Definition notNullAnd (p : num -> bool) (x : option num) : bool :=
  match x with None => false | Some v => p v end.

(** [parseNumber] and [String] applied to a value of the store. *)
Definition parseNumberV (h : heap) (v : value) : outcome (option num) :=
  parseNumber (contentOf h v).
Definition toStrV (h : heap) (v : value) : outcome string := stringOf (contentOf h v).

(** *** validateMandatoryFields ([zraValidationRules.ts]) *)

Definition MANDATORY_INVOICE_FIELDS : list string :=
  ["TPIN"; "InvoiceDate"; "InvoiceNumber"; "TaxableAmount"; "VATAmount"; "GrandTotal"].

Definition mandatoryValue (h : heap) (record : value) (fld : string) : value :=
  if isObject h record then
    coalesce (coalesce (getProp h record fld) (getProp h record (toLowerCase fld)))
             (getProp h record (lowerFirst fld))
  else VUndef.

Definition isMissing (v : value) : bool :=
  match v with
  | VUndef | VNull => true
  | VStr s => bool_decide (s = EmptyString)
  | _ => false
  end.

(** The list [missing]. *)
Definition validateMandatoryFields (h : heap) (record : value) : list string :=
  List.filter (fun fld => isMissing (mandatoryValue h record fld)) MANDATORY_INVOICE_FIELDS.

Definition mandatoryIssue (index : nat) (fld : string) : ValidationIssue :=
  Issue SevError (fld +:+ recordLabel index)
        "Mandatory field missing per ZRA requirements"
        (JStr "missing") (JStr "REQUIRED") false High CatMandatory.

Definition checkMandatory (index : nat) (record : value) (st : state) : state :=
  fold_left (fun st fld => pushIssue (mandatoryIssue index fld) st)
            (validateMandatoryFields (st_heap st) record) st.

(** *** Invoice number *)

Definition invoiceNumberField (h : heap) (record : value) : value :=
  orElse (orElse (extractPrimitive h (getProp h record "InvoiceNumber"))
                 (extractPrimitive h (getProp h record "invoiceNumber")))
         (extractPrimitive h (getProp h record "InvoiceNo")).

Definition duplicateIssue (index firstOccurrence : nat) (invoiceNumStr : string)
  : ValidationIssue :=
  Issue SevError ("InvoiceNumber" +:+ recordLabel index)
        ("Duplicate invoice number detected (first seen in Record " +:+
         pretty (S firstOccurrence) +:+
         "). Each invoice must have a unique number per ZRA regulations")
        (JStr invoiceNumStr) (JStr "MANUAL_REVIEW_REQUIRED") false High CatDuplicate.

Definition checkInvoiceNumber (index : nat) (record : value) (st : state)
  : outcome state :=
  let h := st_heap st in
  let invField := invoiceNumberField h record in
  if negb (truthy invField) then
    Ok (pushIssue (Issue SevError ("InvoiceNumber" +:+ recordLabel index)
                         "Invoice number is mandatory per ZRA requirements"
                         (JStr "missing") (JStr "REQUIRED") false High CatMandatory) st)
  else
    text ← toStrV h invField;
    let invoiceNumStr := trim text in
    Ok (match invoiceNumbersSeen st !! invoiceNumStr with
        | Some firstOccurrence =>
            pushIssue (duplicateIssue index firstOccurrence invoiceNumStr) st
        | None =>
            State (st_heap st) (st_issues st)
                  (<[invoiceNumStr := index]> (invoiceNumbersSeen st))
        end).

(** *** Currency *)

Definition checkCurrency (index : nat) (record fixedRecord : value) (st : state)
  : outcome state :=
  let h := st_heap st in
  let currencyField :=
    orElse (orElse (extractPrimitive h (getProp h record "Currency"))
                   (extractPrimitive h (getProp h record "currency")))
           (extractPrimitive h (getProp h record "CurrencyCode")) in
  if truthy currencyField then
    text ← toStrV h currencyField;
    let currencyStr := trim (toUpperCase text) in
    if negb (bool_decide (currencyStr = "ZMW")) && negb (bool_decide (currencyStr = "ZK")) then
      let fieldName : string :=
        if negb (isUndef (getProp h record "Currency")) then "Currency"
        else if negb (isUndef (getProp h record "currency")) then "currency"
        else "CurrencyCode" in
      Ok (pushIssue (Issue SevWarning (fieldName +:+ recordLabel index)
                           "Currency must be ZMW (Zambian Kwacha) per ZRA requirements"
                           (JStr currencyStr) (JStr "ZMW") true High CatCurrency)
                    (assign fixedRecord fieldName (VStr "ZMW") st))
    else Ok st
  else
    Ok (pushIssue (Issue SevInfo ("Currency" +:+ recordLabel index)
                         "Currency set to ZMW (Zambian Kwacha)"
                         (JStr "missing") (JStr "ZMW") true High CatCurrency)
                  (assign fixedRecord "Currency" (VStr "ZMW") st)).

(** *** TPIN *)

(** [normalized !== v] for a string [normalized]: strict inequality holds
    unless [v] is the same string. *)
Definition differsFrom (normalized : string) (v : value) : bool :=
  match v with
  | VStr s => negb (bool_decide (normalized = s))
  | _ => true
  end.

Definition tpinAlias (h : heap) (record : value) : option string :=
  if negb (isUndef (getProp h record "TPIN")) then Some "TPIN"
  else if negb (isUndef (getProp h record "tpin")) then Some "tpin"
  else if negb (isUndef (getProp h record "TaxpayerTIN")) then Some "TaxpayerTIN"
  else None.

Definition tpinIssue (index : nat) (tpinField : string) (tpinValue : jv)
           (normalized : string) (conf : Confidence) : ValidationIssue :=
  Issue (if bool_decide (conf = Low) then SevError else SevWarning)
        (tpinField +:+ recordLabel index)
        ("TPIN normalized to ZRA 10-digit format (" +:+ normalized +:+ ")")
        tpinValue (JStr normalized) true conf CatTpin.

Definition checkTpin (index : nat) (record fixedRecord : value) (st : state) : state :=
  let h := st_heap st in
  match tpinAlias h record with
  | Some tpinField =>
      let tpinValue := extractPrimitive h (getProp h record tpinField) in
      let '(normalized, conf) := normalizeTpin (contentOf h tpinValue) in
      if differsFrom normalized tpinValue then
        pushIssue (tpinIssue index tpinField (contentOf h tpinValue) normalized conf)
                  (assign fixedRecord tpinField (VStr normalized) st)
      else st
  | None => st
  end.

(** *** Dates *)

Definition checkDate (index : nat) (record fixedRecord : value) (st : state)
           (dateField : string) : state :=
  let h := st_heap st in
  if truthy (getProp h record dateField) then
    let '(normalized, conf) :=
      normalizeDate clk (contentOf h (extractPrimitive h (getProp h record dateField))) in
    if differsFrom normalized (getProp h record dateField) then
      pushIssue (Issue (if bool_decide (conf = Low) then SevError else SevInfo)
                       (dateField +:+ recordLabel index)
                       ("Date normalized to ZRA standard YYYY-MM-DD format (" +:+
                        normalized +:+ ")")
                       (contentOf h (getProp h record dateField)) (JStr normalized)
                       true conf CatDate)
                (assign fixedRecord dateField (VStr normalized) st)
    else st
  else st.

Definition checkDates (index : nat) (record fixedRecord : value) (st : state) : state :=
  fold_left (checkDate index record fixedRecord)
            ["Date"; "date"; "InvoiceDate"; "TransactionDate"] st.

(** *** VAT rate *)

Definition checkVatRate (index : nat) (record fixedRecord : value) (st : state)
  : outcome state :=
  let h := st_heap st in
  let vatField : string :=
    if negb (isUndef (getProp h record "VATRate")) then "VATRate" else "vatRate" in
  vatValue ← parseNumberV h (extractPrimitive h (getProp h record vatField));
  if nullOr (fun v => num_ltb v n0 || num_gtb v n100) vatValue then
    let st1 := assign fixedRecord vatField (VNum n16) st in
    original ← toStrV (st_heap st1) (orElse (getProp (st_heap st1) record vatField)
                                            (VStr "missing"));
    Ok (pushIssue (Issue SevWarning (vatField +:+ recordLabel index)
                         "VAT rate set to ZRA standard 16%"
                         (JStr original) (JStr "16") true High CatVat) st1)
  else
    match vatValue with
    | Some v =>
        if negb (num_eqb v n0) && negb (num_eqb v n16) then
          Ok (pushIssue (Issue SevInfo (vatField +:+ recordLabel index)
                               ("Non-standard VAT rate detected (" +:+ num_toString v +:+
                                "%). ZRA standard is 16% or 0% for exempt items")
                               (JStr (num_toString v)) (JStr (num_toString v))
                               false High CatVat) st)
        else Ok st
    | None => Ok st
    end.

(** *** Line items *)

(** [xs.forEach(f)] with the state threaded through, stopping at the
    first exception. *)
Fixpoint forEachM {A : Type} (f : A -> state -> outcome state) (xs : list A)
         (st : state) : outcome state :=
  match xs with
  | [] => Ok st
  | x :: rest => st' ← f x st; forEachM f rest st'
  end.

(** [x[i]] for an index [i]: a TypeError when [x] is [undefined] or
    [null]. *)
Definition indexInto (h : heap) (x : value) (i : nat) : outcome value :=
  match x with
  | VUndef | VNull => Throw "TypeError: Cannot read properties of undefined"
  | VRef l =>
      match h !! l with
      | Some (CArr es) => Ok (default VUndef (es !! i))
      | Some (CObj ps) => Ok (lookupProp (pretty i) ps)
      | None => Ok VUndef
      end
  | VStr s =>
      Ok (match String.get i s with
          | Some c => VStr (String c EmptyString)
          | None => VUndef
          end)
  | VBool _ | VNum _ => Ok VUndef
  end.

(** [o[k] = v] where [o] may be anything: in the strict mode of a module
    a TypeError unless [o] is an object. *)
Definition assignStrict (o : value) (k : string) (v : value) (st : state) : outcome state :=
  match o with
  | VRef _ => Ok (assign o k v st)
  | _ => Throw "TypeError: Cannot create property"
  end.

(** [isObject(x) ? x : { value: x }] *)
Definition asRecord (x : value) (st : state) : value * state :=
  if isObject (st_heap st) x then (x, st)
  else
    let '(r, h1) := allocCell (CObj [("value", x)]) (st_heap st) in
    (r, State h1 (st_issues st) (invoiceNumbersSeen st)).

Definition optToStr (x : option num) : string :=
  match x with Some n => num_toString n | None => "null" end.

(** The rules on one line: the callback of [lineItems.forEach] from the
    binding of [qtyField] on, for the line as the record [l] and the line
    [fixedLine] of the fixed record. *)
Definition lineRules (index lineIndex : nat) (fixedLine l : value) (st : state)
  : outcome state :=
  let h := st_heap st in
  let qtyField : string :=
    if negb (isUndef (getProp h l "Quantity")) then "Quantity" else "quantity" in
  let priceField : string :=
    if negb (isUndef (getProp h l "UnitPrice")) then "UnitPrice" else "unitPrice" in
  qty ← parseNumberV h (extractPrimitive h (getProp h l qtyField));
  unitPrice ← parseNumberV h (extractPrimitive h (getProp h l priceField));
  let st1 :=
    if notNullAnd (fun q => num_leb q n0) qty then
      pushIssue (Issue SevError (qtyField +:+ lineLabel index lineIndex)
                       "Quantity must be greater than zero per ZRA requirements"
                       (JStr (optToStr qty)) (JStr "MANUAL_REVIEW_REQUIRED")
                       false High CatAmount) st
    else st in
  let st2 :=
    if notNullAnd (fun u => num_ltb u n0) unitPrice then
      pushIssue (Issue SevError (priceField +:+ lineLabel index lineIndex)
                       "Unit price cannot be negative per ZRA requirements"
                       (JStr (optToStr unitPrice)) (JStr "MANUAL_REVIEW_REQUIRED")
                       false High CatAmount) st1
    else st1 in
  let st3 :=
    if notNullAnd (fun u => num_eqb u n0) unitPrice then
      pushIssue (Issue SevWarning (priceField +:+ lineLabel index lineIndex)
                       "Unit price is zero. Verify this is correct for free/complimentary items"
                       (JStr (optToStr unitPrice)) (JStr (optToStr unitPrice))
                       false Medium CatAmount) st2
    else st2 in
  match qty, unitPrice with
  | Some q, Some u =>
      if num_gtb q n0 && num_geb u n0 then
        let calculatedTotal := round2 (num_mul q u) in
        let lineTotalField : string :=
          if negb (isUndef (getProp h l "LineTotal")) then "LineTotal" else "lineTotal" in
        currentTotal ← parseNumberV h (extractPrimitive h (getProp h l lineTotalField));
        if nullOr (fun c => num_gtb (num_abs (num_sub c calculatedTotal)) n0_01) currentTotal
        then
          st4 ← assignStrict fixedLine lineTotalField (VNum calculatedTotal) st3;
          Ok (pushIssue (Issue SevWarning (lineTotalField +:+ lineLabel index lineIndex)
                               ("Line total recalculated: " +:+ num_toString q +:+ " × " +:+
                                num_toString u +:+ " = " +:+ num_toString calculatedTotal)
                               (JStr (optToStr currentTotal))
                               (JStr (num_toString calculatedTotal))
                               true High CatAmount) st4)
        else Ok st3
      else Ok st3
  | _, _ => Ok st3
  end.

(** The callback of [lineItems.forEach]: [line] is the element at
    [lineIndex] as the array holds it when the callback runs. *)
Definition processLine (index : nat) (lineItemsField : string)
           (fixedRecord lineItems : value) (lineIndex : nat) (st0 : state) : outcome state :=
  let line := default VUndef (arrElems (st_heap st0) lineItems ≫= (fun es => es !! lineIndex)) in
  fixedLine ← indexInto (st_heap st0) (getProp (st_heap st0) fixedRecord lineItemsField) lineIndex;
  let '(l, st) := asRecord line st0 in
  lineRules index lineIndex fixedLine l st.

(** The LineItems.LineItem wrapper of the XML decoder: [lineItems]
    becomes [li] itself when it is an array and the new array [[li]]
    otherwise, and that same array is stored in [fixedRecord]. *)
Definition normalizeLineItems (lineItemsField : string) (fixedRecord lineItems0 : value)
           (st : state) : value * state :=
  let h := st_heap st in
  if truthy lineItems0 && isObject h lineItems0 && hasProp h lineItems0 "LineItem" then
    let li := getProp h lineItems0 "LineItem" in
    let '(lineItems, h1) :=
      if isArray h li then (li, h) else allocCell (CArr [li]) h in
    let st1 := State h1 (st_issues st) (invoiceNumbersSeen st) in
    (lineItems,
     if isObject h1 fixedRecord && truthy (getProp h1 fixedRecord lineItemsField)
     then assign fixedRecord lineItemsField lineItems st1
     else st1)
  else (lineItems0, st).

Definition checkLineItems (index : nat) (record fixedRecord : value) (st : state)
  : outcome state :=
  let h := st_heap st in
  if truthy (getProp h record "LineItems") || truthy (getProp h record "lineItems") then
    let lineItemsField : string :=
      if truthy (getProp h record "LineItems") then "LineItems" else "lineItems" in
    let '(lineItems, st1) :=
      normalizeLineItems lineItemsField fixedRecord (getProp h record lineItemsField) st in
    match arrElems (st_heap st1) lineItems with
    | Some es =>
        let st2 :=
          if (length es =? 0)%nat then
            pushIssue (Issue SevError (lineItemsField +:+ recordLabel index)
                             "Invoice must contain at least one line item per ZRA requirements"
                             (JStr "empty array") (JStr "REQUIRED")
                             false High CatMandatory) st1
          else st1 in
        forEachM (processLine index lineItemsField fixedRecord lineItems)
                 (seq 0 (length es)) st2
    | None =>
        Ok (pushIssue (Issue SevError (lineItemsField +:+ recordLabel index)
                             "Line items must be an array per ZRA schema requirements"
                             (JStr (typeOf lineItems)) (JStr "REQUIRED")
                             false High CatSchema) st1)
    end
  else
    Ok (pushIssue (Issue SevError ("LineItems" +:+ recordLabel index)
                         "Invoice must contain line items per ZRA requirements"
                         (JStr "missing") (JStr "REQUIRED")
                         false High CatMandatory) st).

(** *** Totals *)

Definition negativeIssue (fld : string) (what : string) (index : nat) (x : num)
  : ValidationIssue :=
  Issue SevError (fld +:+ recordLabel index)
        (what +:+ " cannot be negative per ZRA requirements")
        (JStr (num_toString x)) (JStr "MANUAL_REVIEW_REQUIRED") false High CatAmount.

Definition checkNegative (fld what : string) (index : nat) (x : option num) (st : state)
  : state :=
  match x with
  | Some v => if num_ltb v n0 then pushIssue (negativeIssue fld what index v) st else st
  | None => st
  end.

(** [parseNumber(fixedRecord.VATRate || fixedRecord.vatRate || 16) / 100];
    a [null] in a division counts as [0]. *)
Definition effectiveVatRate (h : heap) (fixedRecord : value) : outcome num :=
  rate ← parseNumberV h (orElse (orElse (getProp h fixedRecord "VATRate")
                                        (getProp h fixedRecord "vatRate"))
                                (VNum n16));
  Ok (match rate with
      | Some r => num_div100 r
      | None => n0
      end).

Definition recomputeTotals (index : nat) (record fixedRecord : value)
           (vatAmountField grandTotalField : string) (taxable : num) (st : state)
  : outcome state :=
  let h := st_heap st in
  vatRate ← effectiveVatRate h fixedRecord;
  let calculatedVAT := round2 (num_mul taxable vatRate) in
  let calculatedGrandTotal := round2 (num_add taxable calculatedVAT) in
  currentVAT ← parseNumberV h (getProp h record vatAmountField);
  let st1 :=
    if nullOr (fun c => num_gtb (num_abs (num_sub c calculatedVAT)) n0_01) currentVAT then
      pushIssue (Issue SevWarning (vatAmountField +:+ recordLabel index)
                       ("VAT amount recalculated: " +:+ num_toString taxable +:+ " × " +:+
                        num_toString (num_mul vatRate n100) +:+ "% = " +:+
                        num_toString calculatedVAT)
                       (JStr (optToStr currentVAT)) (JStr (num_toString calculatedVAT))
                       true High CatAmount)
                (assign fixedRecord vatAmountField (VNum calculatedVAT) st)
    else st in
  let h1 := st_heap st1 in
  currentGrandTotal ← parseNumberV h1 (getProp h1 record grandTotalField);
  if nullOr (fun c => num_gtb (num_abs (num_sub c calculatedGrandTotal)) n0_01)
            currentGrandTotal then
    Ok (pushIssue (Issue SevWarning (grandTotalField +:+ recordLabel index)
                         ("Grand total recalculated: " +:+ num_toString taxable +:+ " + " +:+
                          num_toString calculatedVAT +:+ " = " +:+
                          num_toString calculatedGrandTotal)
                         (JStr (optToStr currentGrandTotal))
                         (JStr (num_toString calculatedGrandTotal))
                         true High CatAmount)
                  (assign fixedRecord grandTotalField (VNum calculatedGrandTotal) st1))
  else Ok st1.

Definition checkTotals (index : nat) (record fixedRecord : value) (st : state)
  : outcome state :=
  let h := st_heap st in
  let taxableField : string :=
    if negb (isUndef (getProp h record "TaxableAmount")) then "TaxableAmount"
    else "taxableAmount" in
  let vatAmountField : string :=
    if negb (isUndef (getProp h record "VATAmount")) then "VATAmount" else "vatAmount" in
  let grandTotalField : string :=
    if negb (isUndef (getProp h record "GrandTotal")) then "GrandTotal" else "grandTotal" in
  taxable ← parseNumberV h (extractPrimitive h (getProp h record taxableField));
  vatAmount ← parseNumberV h (extractPrimitive h (getProp h record vatAmountField));
  grandTotal ← parseNumberV h (extractPrimitive h (getProp h record grandTotalField));
  let st1 := checkNegative taxableField "Taxable amount" index taxable st in
  let st2 := checkNegative vatAmountField "VAT amount" index vatAmount st1 in
  let st3 := checkNegative grandTotalField "Grand total" index grandTotal st2 in
  let st4 :=
    if notNullAnd (fun t => num_eqb t n0) taxable then
      pushIssue (Issue SevWarning (taxableField +:+ recordLabel index)
                       "Taxable amount is zero. Verify this is correct for zero-rated transactions"
                       (JStr (optToStr taxable)) (JStr (optToStr taxable))
                       false Medium CatAmount) st3
    else st3 in
  match taxable with
  | Some t =>
      if num_geb t n0
      then recomputeTotals index record fixedRecord vatAmountField grandTotalField t st4
      else Ok st4
  | None => Ok st4
  end.

(** *** Structural schema check *)

Definition hasField (h : heap) (record : value) (fld : string) : bool :=
  negb (isUndef (getProp h record fld)) ||
  negb (isUndef (getProp h record (toLowerCase fld))) ||
  negb (isUndef (getProp h record (lowerFirst fld))).

Definition checkSchema (index : nat) (record : value) (st : state) : state :=
  let missingStructure :=
    List.filter (fun fld => negb (hasField (st_heap st) record fld))
                ["TPIN"; "InvoiceNumber"; "InvoiceDate"] in
  if (0 <? length missingStructure)%nat then
    pushIssue (Issue SevError ("Schema Validation" +:+ recordLabel index)
                     ("Missing required fields per ZRA schema: " +:+
                      joinS ", " missingStructure)
                     (JStr "incomplete structure") (JStr "MANUAL_REVIEW_REQUIRED")
                     false High CatSchema) st
  else st.

(** *** One record: the callback of [records.forEach] *)

(** The single-key wrapper left by the XML decoder (for example
    [{ Invoice: { ... } }]): validation works on the inner object, and on
    the inner object of the fixed copy when there is one. *)
Definition unwrapRecord (h : heap) (record fixedRecord : value) : value * value :=
  match keysOf h record with
  | [inner] =>
      if isObject h (getProp h record inner) then
        (getProp h record inner,
         if isObject h fixedRecord && isObject h (getProp h fixedRecord inner)
         then getProp h fixedRecord inner else fixedRecord)
      else (record, fixedRecord)
  | _ => (record, fixedRecord)
  end.

(** The head of the callback: [record] and [fixedRecord] as the rules
    use them. *)
Definition enterRecord (origRecord fixedElem : value) (st : state)
  : value * value * state :=
  let '(record0, st0) := asRecord origRecord st in
  let '(fixedRecord0, st1) := asRecord fixedElem st0 in
  let '(record, fixedRecord) := unwrapRecord (st_heap st1) record0 fixedRecord0 in
  (record, fixedRecord, st1).

Definition processRecord (index : nat) (origRecord fixedElem : value) (st : state)
  : outcome state :=
  let '(record, fixedRecord, st1) := enterRecord origRecord fixedElem st in
  let st2 := checkMandatory index record st1 in
  st3 ← checkInvoiceNumber index record st2;
  st4 ← checkCurrency index record fixedRecord st3;
  let st5 := checkTpin index record fixedRecord st4 in
  let st6 := checkDates index record fixedRecord st5 in
  st7 ← checkVatRate index record fixedRecord st6;
  st8 ← checkLineItems index record fixedRecord st7;
  st9 ← checkTotals index record fixedRecord st8;
  Ok (checkSchema index record st9).

(** *** The whole payload *)

(** The records of the payload from position [index] on, each with the
    element of the deep copy at the same position.  A record and its copy
    are placed in a store of their own: the payload is a decoded document,
    a tree, so that no object belongs to two records, and the callback
    reaches only the objects of [origRecord] and of [fixedRecords[index]].
    The result holds, per record, the original and the fixed record as
    they are after the callback. *)
Definition placeRecord (origRecord fixedElem : jv) : value * value * heap :=
  let '(ro, h1) := alloc origRecord [] in
  let '(rf, h2) := alloc fixedElem h1 in
  (ro, rf, h2).

Fixpoint validateRecords (index : nat) (records fixedRecords : list jv)
         (iss : list ValidationIssue) (seen : gmap string nat)
  : outcome (list jv * list jv * list ValidationIssue) :=
  match records with
  | [] => Ok ([], [], iss)
  | origRecord :: rest =>
      let '(ro, rf, h) := placeRecord origRecord (default JUndef (head fixedRecords)) in
      st ← processRecord index ro rf (State h iss seen);
      r ← validateRecords (S index) rest (tail fixedRecords)
                          (st_issues st) (invoiceNumbersSeen st);
      let '(origs, fixeds, iss') := r in
      Ok (contentOf (st_heap st) ro :: origs, contentOf (st_heap st) rf :: fixeds, iss')
  end.

(** The top-level unwrapping of a single-key wrapper whose child is an
    object. *)
Definition unwrapTop (data : jv) : jv :=
  match data with
  | JObj [(_, JObj inner)] => JObj inner
  | _ => data
  end.

Definition asList (v : jv) : list jv :=
  match v with
  | JArr l => l
  | _ => [v]
  end.

Definition isError (i : ValidationIssue) : bool := bool_decide (severity i = SevError).

(** The argument as the caller sees it after the call, put together from
    the records as the callbacks left them. *)
Definition reassemble (data : jv) (origs : list jv) : jv :=
  match data with
  | JArr _ => JArr origs
  | JObj [(k, JObj _)] => JObj [(k, default JUndef (head origs))]
  | _ => default JUndef (head origs)
  end.

Definition validateAndFix (data : jv) (fileType : FileType) : outcome ValidationResult :=
  let workingData := unwrapTop data in
  match jsonClone workingData with
  | None => Throw "SyntaxError: undefined is not valid JSON"
  | Some fixedData =>
      let records := asList workingData in
      let fixedRecords := asList fixedData in
      r ← validateRecords 0 records fixedRecords [] ∅;
      let '(origs, fixeds, iss) := r in
      Ok (Result (length (List.filter isError iss) =? 0)%nat
                 iss
                 (reassemble data origs)
                 (match data with
                  | JArr _ => JArr fixeds
                  | _ => default JUndef (head fixeds)
                  end))
  end.

End engine.

(** * The other functions of the engine *)

(** ** The standalone rules of [src/lib/zraValidationRules.ts] *)

Module ZraRules.

(** [ZRA_CONSTANTS.TPIN_LENGTH] and the messages of
    [ZRA_VALIDATION_MESSAGES] that the rules return. *)
Definition TPIN_LENGTH : nat := 10.
Definition TPIN_INVALID : string :=
  "TPIN must be exactly 10 digits as per ZRA specification".
Definition TPIN_MISSING : string := "TPIN is mandatory for all ZRA submissions".

(** The object a rule returns: [valid] and the optional [message],
    [expectedVAT] and [expectedTotal]; [None] is an absent property. *)
Record Verdict := {
  valid : bool;
  message : option string;
  expectedVAT : option num;
  expectedTotal : option num
}.

Definition validateTPIN (tpin : string) : Verdict :=
  if bool_decide (tpin = EmptyString) then
    {| valid := false; message := Some TPIN_MISSING;
       expectedVAT := None; expectedTotal := None |}
  else
    let cleaned := stripNonDigits tpin in
    if negb (String.length cleaned =? TPIN_LENGTH)%nat then
      {| valid := false; message := Some TPIN_INVALID;
         expectedVAT := None; expectedTotal := None |}
    else
      {| valid := true; message := None; expectedVAT := None; expectedTotal := None |}.

Definition validRates : list num := [n0; n16].

Definition validateVATRate (rate : num) : Verdict :=
  if num_ltb rate n0 || num_gtb rate n100 then
    {| valid := false; message := Some "VAT rate must be between 0 and 100";
       expectedVAT := None; expectedTotal := None |}
  else if negb (existsb (num_eqb rate) validRates) then
    {| valid := true;
       message := Some ("Non-standard VAT rate. ZRA standard rates are " +:+
                        joinS "% or " (map num_toString validRates) +:+ "%");
       expectedVAT := None; expectedTotal := None |}
  else
    {| valid := true; message := None; expectedVAT := None; expectedTotal := None |}.


End ZraRules.

(** ** [getValidationStats] ([src/lib/validation.ts]) *)

Module Stats.

(** The text of a category, as the issues of the source carry it;
    [None] for [undefined]. *)
Definition categoryName (c : Category) : option string :=
  match c with
  | CatTpin => Some "tpin"
  | CatDate => Some "date"
  | CatVat => Some "vat"
  | CatAmount => Some "amount"
  | CatMandatory => Some "mandatory"
  | CatDuplicate => Some "duplicate"
  | CatCurrency => Some "currency"
  | CatSchema => Some "schema"
  | CatUndefined => None
  end.

(** [issue.category || 'other'] *)
Definition categoryKey (issue : ValidationIssue) : string :=
  default "other" (categoryName (category issue)).

(** The body of the loop over the issues:
    [byCategory[category] = (byCategory[category] || 0) + 1]. *)
Definition countIssue (byCategory : gmap string nat) (issue : ValidationIssue)
  : gmap string nat :=
  let category := categoryKey issue in
  <[category := S (default 0%nat (byCategory !! category))]> byCategory.

Definition isSeverity (s : Severity) (i : ValidationIssue) : bool :=
  bool_decide (severity i = s).

Definition isAutoFixed (i : ValidationIssue) : bool := autoFixed i.

Definition needsManualReview (i : ValidationIssue) : bool :=
  bool_decide (severity i = SevError) && negb (autoFixed i).

Record ValidationStats := {
  totalIssues : nat;
  criticalErrors : nat;
  warnings : nat;
  infoMessages : nat;
  autoFixed : nat;
  manualReviewNeeded : nat;
  byCategory : gmap string nat
}.

Definition getValidationStats (result : ValidationResult) : ValidationStats :=
  let byCategory := fold_left countIssue (issues result) ∅ in
  {| totalIssues := length (issues result);
     criticalErrors := length (List.filter (isSeverity SevError) (issues result));
     warnings := length (List.filter (isSeverity SevWarning) (issues result));
     infoMessages := length (List.filter (isSeverity SevInfo) (issues result));
     autoFixed := length (List.filter isAutoFixed (issues result));
     manualReviewNeeded := length (List.filter needsManualReview (issues result));
     byCategory := byCategory |}.

End Stats.

(** ** [processFile] ([src/lib/fileProcessing.ts]) after the decoder *)

(** Truthiness of a document. *)
Definition truthyJ (t : jv) : bool :=
  match t with
  | JUndef | JNull => false
  | JBool b => b
  | JNum n => negb (mant n =? 0)
  | JStr s => negb (bool_decide (s = EmptyString))
  | JArr _ | JObj _ => true
  end.

Definition lineItemKeys : list string :=
  ["Quantity"; "quantity"; "UnitPrice"; "unitPrice"; "LineTotal"; "lineTotal"].

(** ['Quantity' in sample || 'quantity' in sample || ...]: the operator
    [in] throws a TypeError for a primitive; an array has none of the six
    names as a property. *)
Definition hasLineItemKeys (sample : jv) : outcome bool :=
  match sample with
  | JObj props =>
      Ok (existsb (fun k => existsb (fun kv : string * jv => String.eqb k (fst kv)) props)
                  lineItemKeys)
  | JArr _ => Ok false
  | _ => Throw "TypeError: Cannot use 'in' operator to search for 'Quantity'"
  end.

(** The rows of a CSV file that look like line items are wrapped into one
    invoice-like object. *)
Definition wrapLineItemRows (data : jv) : outcome jv :=
  match data with
  | JArr (first :: _) =>
      let sample := if truthyJ first then first else JObj [] in
      found ← hasLineItemKeys sample;
      if (found : bool) then Ok (JObj [("LineItems", data)]) else Ok data
  | _ => Ok data
  end.

(** [processFile] from the decoded document on: [data] is what
    [parseXML], [Papa.parse] or [JSON.parse] gave for a file of the type
    [fileType], and the result is the field [result] of the processed
    file.  The decoders themselves are browser and library code. *)
Definition processFile (clk : clock) (fileType : FileType) (data : jv)
  : outcome ValidationResult :=
  match fileType with
  | Csv => wrapped ← wrapLineItemRows data; validateAndFix clk wrapped Csv
  | _ => validateAndFix clk data fileType
  end.

(** ** Notions used to state the properties *)

(** The text of a value, written out kind by kind: a string is its own
    text, a number is written as [String] writes it, and a boolean, an
    array or an object as JSON; [null] and [undefined] have no text. *)
Definition textOfValue (value : jv) : option string :=
  match value with
  | JNull | JUndef => None
  | JStr s => Some s
  | JNum n => Some (num_toString n)
  | JBool true => Some "true"
  | JBool false => Some "false"
  | JArr _ | JObj _ => stringify value
  end.

(** The digits of the text of a value, in their order; none for [null]
    and [undefined]. *)
Definition tpinDigits (value : jv) : string :=
  match textOfValue value with
  | Some text => filterS isDigit text
  | None => EmptyString
  end.

(** [parseNumber] as the specification words it: every character except
    the digits, ['.'] and ['-'] is stripped before the text is parsed. *)
Definition keptBySpec (c : ascii) : bool :=
  isDigit c || (code c =? 46)%nat || (code c =? 45)%nat.

Definition parseNumberSpec (value : jv) : outcome (option num) :=
  match value with
  | JNum n => Ok (Some n)
  | _ => text ← stringOf value; Ok (parseFloat (filterS keptBySpec text))
  end.

(** The property [k] of a document. *)
Definition jprop (k : string) (t : jv) : jv :=
  match t with
  | JObj ps =>
      match find (fun kv : string * jv => String.eqb k (fst kv)) ps with
      | Some kv => snd kv
      | None => JUndef
      end
  | _ => JUndef
  end.

Definition jnum (z : Z) : jv := JNum (num_of_Z z).

(** A clock for the examples: 2026-11-01T16:16:40Z, local year 2026. *)
Definition exampleClock : clock := Clock 1793549800000 2026.

(** A VAT-exempt invoice whose stored totals are right for the rate 0. *)
Definition exemptInvoice : jv :=
  JObj [("TPIN", JStr "1234567890"); ("InvoiceNumber", JStr "INV-001");
        ("InvoiceDate", JStr "2025-03-05"); ("Currency", JStr "ZMW");
        ("VATRate", jnum 0);
        ("LineItems", JArr [JObj [("Quantity", jnum 1); ("UnitPrice", jnum 100);
                                  ("LineTotal", jnum 100)]]);
        ("TaxableAmount", jnum 100); ("VATAmount", jnum 0); ("GrandTotal", jnum 100)].

(** An invoice as the XML decoder gives it, with the single line item
    under the LineItems.LineItem wrapper and no line total. *)
Definition wrappedLineInvoice : jv :=
  JObj [("TPIN", JStr "1234567890"); ("InvoiceNumber", JStr "INV-XML-001");
        ("InvoiceDate", JStr "2025-03-05"); ("Currency", JStr "ZMW");
        ("VATRate", JStr "16");
        ("LineItems", JObj [("LineItem", JObj [("Quantity", JStr "2");
                                                ("UnitPrice", JStr "10")])]);
        ("TaxableAmount", JStr "20"); ("VATAmount", JStr "3.2");
        ("GrandTotal", JStr "23.2")].

(** A record with an empty [Currency] and the currency under [currency]. *)
Definition twoCurrencyKeys : jv :=
  JObj [("Currency", JStr ""); ("currency", JStr "usd")].

(** The records [validateAndFix] goes through for a payload. *)
Definition payloadRecords (data : jv) : list jv := asList (unwrapTop data).

Definition isDup (i : ValidationIssue) : bool := bool_decide (category i = CatDuplicate).

(** A batch of three records; the first and the third carry the invoice
    number ["A-1"] (once with blanks around it). *)
Definition batchWithDuplicate : jv :=
  JArr [JObj [("InvoiceNumber", JStr "A-1")];
        JObj [("InvoiceNumber", JStr "B-2")];
        JObj [("invoiceNumber", JStr " A-1 ")]].

(** A batch in which the second record has the invoice number of the
    first and of the third with a no-break space (U+00A0) after it. *)
Definition nbsp : string := String (ascii_of_nat 160) EmptyString.

Definition batchWithNoBreakSpace : jv :=
  JArr [JObj [("InvoiceNumber", JStr "A-1")];
        JObj [("InvoiceNumber", JStr ("A-1" +:+ nbsp))];
        JObj [("InvoiceNumber", JStr "A-1")]].


(** The taxpayer-ID alias of a record with the properties [props]: the
    first of [TPIN], [tpin] and [TaxpayerTIN] that is not [undefined]. *)
Definition isJUndef (t : jv) : bool :=
  match t with JUndef => true | _ => false end.

Definition isJArr (t : jv) : bool :=
  match t with JArr _ => true | _ => false end.

Definition tpinAliasOf (props : list (string * jv)) : option string :=
  if negb (isJUndef (jprop "TPIN" (JObj props))) then Some "TPIN"
  else if negb (isJUndef (jprop "tpin" (JObj props))) then Some "tpin"
  else if negb (isJUndef (jprop "TaxpayerTIN" (JObj props))) then Some "TaxpayerTIN"
  else None.

(** A record whose TPIN is the number 1234567890. *)
Definition numericTpinInvoice : jv :=
  JObj [("TPIN", jnum 1234567890); ("InvoiceNumber", JStr "INV-7")].

(** No object of the document has a property named [toString]: every
    value of the document can be converted to a string. *)
Fixpoint plain (t : jv) : bool :=
  match t with
  | JArr elems => forallb plain elems
  | JObj props =>
      negb (existsb (fun kv : string * jv => String.eqb "toString" (fst kv)) props) &&
      forallb (fun kv : string * jv => plain (snd kv)) props
  | _ => true
  end.

(** A record whose VAT rate is an object with a property [toString]. *)
Definition unconvertibleRate : jv :=
  JObj [("InvoiceNumber", JStr "INV-9");
        ("VATRate", JObj [("toString", JStr "16"); ("unit", JStr "%")])].



(** The malformed invoice of the end-to-end test of the repository
    ([__tests__/endToEnd.test.ts]). *)
Definition brokenJson : jv :=
  JObj [("TPIN", JStr "123456789"); ("InvoiceNumber", JStr "INV-JSON-001");
        ("InvoiceDate", JStr "01/02/2025"); ("Currency", JStr "usd");
        ("LineItems", JArr [JObj [("Quantity", JStr "2"); ("UnitPrice", JStr "10");
                                  ("LineTotal", JStr "20")]]);
        ("TaxableAmount", JStr "20"); ("VATAmount", JStr "3.2");
        ("GrandTotal", JStr "23.2")].

(** A batch of two invoices; the second has no grand total. *)
Definition batchWithoutTotal : jv :=
  JArr [exemptInvoice;
        JObj [("TPIN", JStr "1234567890"); ("InvoiceNumber", JStr "INV-002");
              ("InvoiceDate", JStr "2025-03-05"); ("Currency", JStr "ZMW");
              ("VATRate", jnum 16); ("TaxableAmount", jnum 100);
              ("VATAmount", jnum 16)]].

(** The rows of a CSV file of line items. *)
Definition lineItemRows : jv :=
  JArr [JObj [("Description", JStr "Widget"); ("Quantity", jnum 2); ("UnitPrice", jnum 10)];
        JObj [("Description", JStr "Gadget"); ("Quantity", jnum 1); ("UnitPrice", jnum 5)]].

(** A record whose TPIN is a string of ten digits, with a date to fix. *)
Definition validTpinInvoice : jv :=
  JObj [("TPIN", JStr "1234567890"); ("InvoiceNumber", JStr "INV-8");
        ("InvoiceDate", JStr "5.3.2025")].

(** A record whose TPIN is written with dashes. *)
Definition dashedTpinInvoice : jv :=
  JObj [("TPIN", JStr "1234-567-890"); ("InvoiceNumber", JStr "INV-9")].

(** A record with a day-first date. *)
Definition dayFirstInvoice : jv :=
  JObj [("TPIN", JStr "1234567890"); ("InvoiceNumber", JStr "INV-10");
        ("InvoiceDate", JStr "5.3.2025")].

(** ** Notions used in the proofs *)

(** [repr h v t]: in the store [h] the value [v] stands for the document
    [t]. *)
Unset Elimination Schemes.
Inductive repr (h : heap) : value -> jv -> Prop :=
| repr_undef : repr h VUndef JUndef
| repr_null : repr h VNull JNull
| repr_bool b : repr h (VBool b) (JBool b)
| repr_num n : repr h (VNum n) (JNum n)
| repr_str s : repr h (VStr s) (JStr s)
| repr_arr l es ts :
    h !! l = Some (CArr es) ->
    Forall2 (repr h) es ts ->
    repr h (VRef l) (JArr ts)
| repr_obj l kvs kts :
    h !! l = Some (CObj kvs) ->
    Forall2 (fun (kv : string * value) (kt : string * jv) =>
               fst kv = fst kt /\ repr h (snd kv) (snd kt)) kvs kts ->
    repr h (VRef l) (JObj kts).
Set Elimination Schemes.

(** The element of the deep copy at the position of [t]: the copy of [t],
    or [null] for an [undefined] element of an array. *)
Definition cloneElem (t : jv) : jv := default JNull (jsonClone t).

Definition isRef (v : value) : bool :=
  match v with VRef _ => true | _ => false end.

(** [v'] has the shape of a copy of [v] as far as the rule on line items
    looks: a reference where [v] is one, and an array with references at
    the positions where the array [v] has references. *)
Definition copyShape (h : heap) (v v' : value) : Prop :=
  (forall l, v = VRef l -> is_Some (h !! l)) /\
  (isRef v = true -> isRef v' = true) /\
  (forall es, arrElems h v = Some es ->
     exists es', arrElems h v' = Some es' /\
       forall idx x, es !! idx = Some x -> isRef x = true ->
         exists l', es' !! idx = Some (VRef l')).

Definition lineItemsMirrored (h : heap) (record fixedRecord : value) : Prop :=
  isObject h record = true /\
  isObject h fixedRecord = true /\
  copyShape h (getProp h record "LineItems") (getProp h fixedRecord "LineItems") /\
  copyShape h (getProp h record "lineItems") (getProp h fixedRecord "lineItems").

(** A cell that is no object with a property [toString], and a store of
    such cells: every value of the store can be converted to a string. *)
Definition plainCell (c : cell) : Prop :=
  match c with
  | CObj ps => hasKey "toString" ps = false
  | CArr _ => True
  end.

Definition plainHeap (h : heap) : Prop := Forall plainCell h.

(** A property of the store that no assignment to a key of [K] and no
    allocation of a plain cell can break. *)
Definition writeStable (K : string -> bool) (P : heap -> Prop) : Prop :=
  forall h l k v, K k = true -> P h -> P (setProp l k v h).

Definition allocStable (P : heap -> Prop) : Prop :=
  forall h c, plainCell c -> P h -> P (h ++ [c]).

(** [evolves K Q st st']: [st'] comes from [st] by pushing issues that
    satisfy [Q], assigning to keys of [K] and allocating plain cells; the
    map of invoice numbers is not touched. *)
Inductive evolves (K : string -> bool) (Q : ValidationIssue -> Prop)
  : state -> state -> Prop :=
| ev_refl st : evolves K Q st st
| ev_push st st' i : evolves K Q st st' -> Q i -> evolves K Q st (pushIssue i st')
| ev_assign st st' o k v :
    evolves K Q st st' -> K k = true -> evolves K Q st (assign o k v st')
| ev_alloc st st' c :
    evolves K Q st st' -> plainCell c ->
    evolves K Q st (State (st_heap st' ++ [c]) (st_issues st') (invoiceNumbersSeen st')).

(** The keys the rules assign to. *)
Definition inKeys (keys : list string) (k : string) : bool :=
  existsb (String.eqb k) keys.

Definition currencyKeys : list string := ["Currency"; "currency"; "CurrencyCode"].
Definition tpinKeys : list string := ["TPIN"; "tpin"; "TaxpayerTIN"].
Definition dateKeys : list string := ["Date"; "date"; "InvoiceDate"; "TransactionDate"].
Definition vatRateKeys : list string := ["VATRate"; "vatRate"].
Definition lineItemsKeys : list string := ["LineItems"; "lineItems"].
Definition lineTotalKeys : list string := ["LineTotal"; "lineTotal"].
Definition totalsKeys : list string := ["VATAmount"; "vatAmount"; "GrandTotal"; "grandTotal"].

Definition anyKey (k : string) : bool := true.
Definition anyIssue (i : ValidationIssue) : Prop := True.
Definition notDuplicate (i : ValidationIssue) : Prop := category i <> CatDuplicate.

(** The state in which the callback starts on the record [origRecord] of
    the payload, and [record] and [fixedRecord] as the rules use them. *)
Definition recordStart (origRecord : jv) : value * value * state :=
  let '(ro, rf, h) := placeRecord origRecord (cloneElem origRecord) in
  enterRecord ro rf (State h [] ∅).

(** The text under which the callback files a record in
    [invoiceNumbersSeen]: the resolved invoice number, coerced to a string
    and trimmed; [None] when the record has no invoice number.  (When the
    coercion throws there is no result of the call to speak of.) *)
Definition invoiceKey (origRecord : jv) : option string :=
  let '(record, _, st) := recordStart origRecord in
  let invField := invoiceNumberField (st_heap st) record in
  if truthy invField then Some (trim (toStr (contentOf (st_heap st) invField))) else None.

(** [evolves] for a rule that may throw: it holds of the state the rule
    returns, when it returns one. *)
Definition evolvesO (K : string -> bool) (Q : ValidationIssue -> Prop)
           (st : state) (m : outcome state) : Prop :=
  forall st', m = Ok st' -> evolves K Q st st'.

(** Induction on documents, with the hypothesis on every element and on
    every property value. *)
Section jv_induction.

Variable P : jv -> Prop.
Hypothesis Hundef : P JUndef.
Hypothesis Hnull : P JNull.
Hypothesis Hbool : forall b, P (JBool b).
Hypothesis Hnum : forall n, P (JNum n).
Hypothesis Hstr : forall s, P (JStr s).
Hypothesis Harr : forall elems, Forall P elems -> P (JArr elems).
Hypothesis Hobj : forall props, Forall (fun kt : string * jv => P (snd kt)) props -> P (JObj props).

Fixpoint jv_ind (t : jv) : P t :=
  match t with
  | JUndef => Hundef
  | JNull => Hnull
  | JBool b => Hbool b
  | JNum n => Hnum n
  | JStr s => Hstr s
  | JArr elems =>
      Harr elems
        ((fix go (l : list jv) : Forall P l :=
            match l with
            | [] => @List.Forall_nil _ P
            | x :: r => @List.Forall_cons _ P x r (jv_ind x) (go r)
            end) elems)
  | JObj props =>
      Hobj props
        ((fix go (l : list (string * jv)) : Forall (fun kt => P (snd kt)) l :=
            match l with
            | [] => @List.Forall_nil _ _
            | x :: r => @List.Forall_cons _ (fun kt => P (snd kt)) x r (jv_ind (snd x)) (go r)
            end) props)
  end.

End jv_induction.

(** The properties of the deep copy of an object. *)
Definition cloneProps (props : list (string * jv)) : list (string * jv) :=
  omap (fun kv : string * jv => (fun c => (fst kv, c)) <$> jsonClone (snd kv)) props.

(** The value of the key [k] in a list of properties. *)
Definition jlookup (k : string) (props : list (string * jv)) : jv := jprop k (JObj props).

(** What the loop over the line items relies on: [lineItems] is an array,
    [fixedRecord[lineItemsField]] is an array too, and it holds a reference
    wherever [lineItems] holds one. *)
Definition lineLoopInv (fixedRecord lineItems : value) (lineItemsField : string)
           (h : heap) : Prop :=
  exists la es la' es',
    lineItems = VRef la /\ h !! la = Some (CArr es) /\
    getProp h fixedRecord lineItemsField = VRef la' /\ h !! la' = Some (CArr es') /\
    forall idx x, es !! idx = Some x -> isRef x = true ->
      exists l', es' !! idx = Some (VRef l').

Definition isOk {A : Type} (m : outcome A) : Prop := exists a, m = Ok a.

(** Placing [t] in a store only adds cells and gives a value that stands
    for [t]. *)
Definition allocSpec (t : jv) : Prop :=
  forall (h : heap) (v : value) (h' : heap),
    alloc t h = (v, h') -> (exists ext, h' = h ++ ext) /\ repr h' v t.

Definition isNode (t : jv) : bool :=
  match t with JArr _ | JObj _ => true | _ => false end.

Definition isJObj (t : jv) : bool :=
  match t with JObj _ => true | _ => false end.

(** A string, a boolean or [null]: the values that are their own JSON
    copy whatever they are.  (A number is its own copy when it is finite,
    as all numbers of the model are.) *)
Definition isTextFlagOrNull (t : jv) : bool :=
  match t with JStr _ | JBool _ | JNull => true | _ => false end.

(** The keys of all the rules. *)
Definition writtenKeys : list string :=
  currencyKeys ++ tpinKeys ++ dateKeys ++ vatRateKeys ++ lineItemsKeys ++ lineTotalKeys ++
  totalsKeys.

Definition notLineItems (k : string) : bool := negb (inKeys lineItemsKeys k).
Definition notTpin (k : string) : bool := negb (inKeys tpinKeys k).

(** The duplicate issues of a run over records with the given invoice
    numbers ([None]: no invoice number), from position [index] on and with
    the table [seen]. *)
Fixpoint dupsOf (index : nat) (keys : list (option string)) (seen : gmap string nat)
  : list ValidationIssue :=
  match keys with
  | [] => []
  | None :: rest => dupsOf (S index) rest seen
  | Some s :: rest =>
      match seen !! s with
      | Some firstOccurrence =>
          duplicateIssue index firstOccurrence s :: dupsOf (S index) rest seen
      | None => dupsOf (S index) rest (<[s := index]> seen)
      end
  end.

Definition seenAfter (key : option string) (index : nat) (seen : gmap string nat)
  : gmap string nat :=
  match key with
  | Some s => match seen !! s with Some _ => seen | None => <[s := index]> seen end
  | None => seen
  end.

Definition dupOf (key : option string) (index : nat) (seen : gmap string nat)
  : list ValidationIssue :=
  match key with
  | Some s =>
      match seen !! s with
      | Some firstOccurrence => [duplicateIssue index firstOccurrence s]
      | None => []
      end
  | None => []
  end.

(** What holds of the store until the rule on the taxpayer ID has run:
    the alias and its numeric value in the record, and the fixed record
    being an object. *)
Definition tpinPending (record fixedRecord : value) (k : string) (n : num) (h : heap) : Prop :=
  tpinAlias h record = Some k /\ getProp h record k = VNum n /\
  isObject h fixedRecord = true.

(** What holds from then on: the fixed record holds the normalized
    string under the alias. *)
Definition tpinWritten (fixedRecord : value) (k s : string) (h : heap) : Prop :=
  getProp h fixedRecord k = VStr s.

(** The number of issues of a category. *)
Definition countOf (c : Category) (iss : list ValidationIssue) : nat :=
  length (List.filter (fun i => bool_decide (category i = c)) iss).

(** ** What the issues of the engine look like *)

Definition inCats (cats : list Category) (c : Category) : bool :=
  existsb (fun c' => bool_decide (c = c')) cats.

(** The two texts that ask for an action of the user. *)
Definition requiresAction (v : jv) : bool :=
  match v with
  | JStr s => String.eqb s "REQUIRED" || String.eqb s "MANUAL_REVIEW_REQUIRED"
  | _ => false
  end.

Definition isText (v : jv) : bool :=
  match v with JStr _ => true | _ => false end.

(** How severity, fix, confidence, category and fixed value of an issue
    go together. *)
Definition issueCoherent (i : ValidationIssue) : bool :=
  let err := isError i in
  let low := bool_decide (confidence i = Low) in
  Bool.eqb low (err && autoFixed i) &&
  implb low (inCats [CatTpin; CatDate] (category i)) &&
  implb (err && negb (autoFixed i))
        (requiresAction (fixedValue i) && bool_decide (confidence i = High)) &&
  implb (inCats [CatMandatory; CatDuplicate; CatSchema] (category i))
        (err && negb (autoFixed i)) &&
  implb (inCats [CatCurrency] (category i))
        (autoFixed i && bool_decide (confidence i = High)) &&
  isText (fixedValue i) &&
  implb (autoFixed i && inCats [CatCurrency; CatVat; CatAmount] (category i))
        (bool_decide (confidence i = High)).

(** The names an issue of a category can start with: the aliases of the
    field for the rules on one field. *)
Definition baseOk (c : Category) (base : string) : bool :=
  match c with
  | CatTpin => inKeys tpinKeys base
  | CatCurrency => inKeys currencyKeys base
  | CatDate => inKeys dateKeys base
  | CatVat => inKeys vatRateKeys base
  | CatDuplicate => String.eqb base "InvoiceNumber"
  | _ => true
  end.

(** The field of an issue of the record at [index]: a name followed by
    the label of the record, or, for an issue on an amount of a line, by
    the label of the line. *)
Definition fieldOf (index : nat) (i : ValidationIssue) : Prop :=
  exists base : string,
    baseOk (category i) base = true /\
    (field i = base +:+ recordLabel index \/
     (category i = CatAmount /\ exists line : nat, field i = base +:+ lineLabel index line)).

(** An issue as a rule with the categories [cats] pushes it for the
    record at [index]. *)
Definition issueBy (cats : list Category) (index : nat) (i : ValidationIssue) : Prop :=
  inCats cats (category i) = true /\ issueCoherent i = true /\ fieldOf index i.

Definition allCats : list Category :=
  [CatTpin; CatDate; CatVat; CatAmount; CatMandatory; CatDuplicate; CatCurrency; CatSchema].

Definition isLowConfidence (i : ValidationIssue) : bool := bool_decide (confidence i = Low).

(** The mandatory fields the callback finds missing in a record: the
    check of the mandatory fields on the record as the callback enters
    it. *)
Definition missingFields (origRecord : jv) : list string :=
  let '(record, _, st) := recordStart origRecord in
  validateMandatoryFields (st_heap st) record.

(** The object the rules of the callback read for the record [o]: the
    inner object of a single-key wrapper, the record itself when it is an
    object, and [{ value: o }] otherwise. *)
Definition innerRecord (o : jv) : jv :=
  match o with
  | JObj [(_, JObj inner)] => JObj inner
  | JObj props => JObj props
  | _ => JObj [("value", o)]
  end.

Definition isNullishJ (t : jv) : bool :=
  match t with JUndef | JNull => true | _ => false end.

Definition coalesceJ (a b : jv) : jv := if isNullishJ a then b else a.

(** The test of the check of the mandatory fields on an object given as
    a document: the field under its name, in lower case or with a lower
    first letter is [undefined], [null] or the empty string. *)
Definition missingIn (t : jv) (fld : string) : bool :=
  match coalesceJ (coalesceJ (jprop fld t) (jprop (toLowerCase fld) t))
                  (jprop (lowerFirst fld) t) with
  | JUndef | JNull => true
  | JStr s => bool_decide (s = EmptyString)
  | _ => false
  end.

(** What the callback keeps of the object at [l]: the keys of [kvs], and
    the values under the keys that no rule writes. *)
Definition keepsFields (l : nat) (kvs : list (string * value)) (h : heap) : Prop :=
  exists ps,
    h !! l = Some (CObj ps) /\
    (forall k, hasKey k kvs = true -> hasKey k ps = true) /\
    (forall k, inKeys writtenKeys k = false -> lookupProp k ps = lookupProp k kvs).

(** What the normalizer of dates checks of a date before it answers
    with high confidence: the form [YYYY-MM-DD], a year from 2000 to the
    year after the current one, a month from 1 to 12, a day from 1 to 31,
    and a time value that is not after the clock. *)
Definition plausibleDate (clk : clock) (n : string) : Prop :=
  exists year month day : string,
    n = year +:+ "-" +:+ month +:+ "-" +:+ day /\
    String.length year = 4%nat /\ String.length month = 2%nat /\
    String.length day = 2%nat /\
    forallS isDigit year = true /\ forallS isDigit month = true /\
    forallS isDigit day = true /\
    (2000 <= digitsVal year <= localYear clk + 1)%Z /\
    (1 <= digitsVal month <= 12)%Z /\ (1 <= digitsVal day <= 31)%Z /\
    exists t : Z, dateOfYMD year month day = Some t /\ (t <= now clk)%Z.

(** A record whose taxpayer ID is the string [s] under the alias [k], with
    a fixed record that holds the same string. *)
Definition tpinKept (record fixedRecord : value) (k s : string) (h : heap) : Prop :=
  tpinAlias h record = Some k /\ getProp h record k = VStr s /\
  getProp h fixedRecord k = VStr s.

(** The categories of the rules other than the one on the taxpayer ID. *)
Definition noTpinCats : list Category :=
  [CatDate; CatVat; CatAmount; CatMandatory; CatDuplicate; CatCurrency; CatSchema].

(** ** Where the rules write *)

Local Close Scope Z_scope.

(** The values a cell holds. *)
Definition cellValues (c : cell) : list value :=
  match c with
  | CObj ps => map snd ps
  | CArr es => es
  end.

(** A value that is no reference, or a reference to a cell from [a] up to
    [b], [b] excluded. *)
Definition refsIn (a b : nat) (v : value) : Prop :=
  forall l, v = VRef l -> a <= l < b.

(** Every cell from [a] on holds references to earlier cells from [a] on
    only: the cells of a document are placed children first. *)
Definition placedFrom (a : nat) (h : heap) : Prop :=
  forall l c, a <= l -> h !! l = Some c -> Forall (refsIn a l) (cellValues c).

Definition allocPlaced (t : jv) : Prop :=
  forall (h : heap) (v : value) (h' : heap),
    alloc t h = (v, h') ->
    refsIn (length h) (length h') v /\ placedFrom (length h) h'.

(** A value that is no reference, or a reference to a cell of [F]. *)
Definition target (F : nat -> bool) (o : value) : Prop :=
  forall l, o = VRef l -> F l = true.

(** The cells of [F] are cells of the store that hold references to cells
    of [F] only. *)
Definition closed (F : nat -> bool) (h : heap) : Prop :=
  forall l, F l = true ->
    l < length h /\ forall c, h !! l = Some c -> Forall (target F) (cellValues c).

(** [writes F st st']: [st'] comes from [st] by pushing issues, by
    assigning values that are no references to objects of [F], and by
    allocating cells. *)
Inductive writes (F : nat -> bool) : state -> state -> Prop :=
| wr_refl st : writes F st st
| wr_push st st' i : writes F st st' -> writes F st (pushIssue i st')
| wr_assign st st' o k v :
    writes F st st' -> target F o -> isRef v = false ->
    writes F st (assign o k v st')
| wr_alloc st st' c :
    writes F st st' ->
    writes F st (State (st_heap st' ++ [c]) (st_issues st') (invoiceNumbersSeen st')).

Definition writesO (F : nat -> bool) (st : state) (m : outcome state) : Prop :=
  forall st', m = Ok st' -> writes F st st'.

(** No value under [LineItems] or [lineItems] of the record is an object
    with a property [LineItem], the wrapper that the rule on line items
    replaces by an array; the values are values of the store. *)
Definition noWrapper (record : value) (h : heap) : Prop :=
  isObject h record = true /\
  forall lif, inKeys lineItemsKeys lif = true ->
    (forall l, getProp h record lif = VRef l -> l < length h) /\
    truthy (getProp h record lif) && isObject h (getProp h record lif) &&
      hasProp h (getProp h record lif) "LineItem" = false.

(** The record has its line items in a [LineItem] wrapper, as the
    callback finds it when it enters the record. *)
Definition lineItemWrapped (origRecord : jv) : bool :=
  let '(record, _, st) := recordStart origRecord in
  let h := st_heap st in
  existsb (fun lif => truthy (getProp h record lif) && isObject h (getProp h record lif) &&
                      hasProp h (getProp h record lif) "LineItem")
          lineItemsKeys.

(** The keys the rules other than the one on the wrapper of line items
    write. *)
Definition plainKeys : list string :=
  currencyKeys ++ tpinKeys ++ dateKeys ++ vatRateKeys ++ lineTotalKeys ++ totalsKeys.

(** The cells of the fixed record in the store of a record: the cells of
    the copy, from [n0] up to [n1], and the wrapper of a copy that is no
    object, which comes after the wrapper of the original at [n1]. *)
Definition fixedCells (n0 n1 n : nat) (l : nat) : bool :=
  (n0 <=? l) && (l <? n) && negb (l =? n1).

(** A record that holds the value [v] under its taxpayer-ID alias [k],
    with a fixed record that holds the same value. *)
Definition tpinSame (record fixedRecord : value) (k : string) (v : value) (h : heap) : Prop :=
  tpinAlias h record = Some k /\ getProp h record k = v /\ getProp h fixedRecord k = v.


(** The record and the fixed record hold the same value [v] under the
    key [k]. *)
Definition propSame (record fixedRecord : value) (k : string) (v : value) (h : heap) : Prop :=
  getProp h record k = v /\ getProp h fixedRecord k = v.

(** The fixed record holds [v] under [k]. *)
Definition propIs (fixedRecord : value) (k : string) (v : value) (h : heap) : Prop :=
  getProp h fixedRecord k = v.

Definition otherKey (k : string) (k' : string) : bool := negb (String.eqb k' k).


Local Open Scope Z_scope.

(** * Properties of the normalizers *)

Lemma bind_Ok {A B : Type} (a : A) (f : A -> outcome B) : (x ← Ok a; f x) = f a.
Proof. reflexivity. Qed.

Lemma bind_Throw {A B : Type} (e : string) (f : A -> outcome B) :
  (x ← Throw e; f x) = Throw e.
Proof. reflexivity. Qed.

Lemma bind_Ok_inv {A B : Type} (m : outcome A) (f : A -> outcome B) (b : B) :
  (x ← m; f x) = Ok b -> exists a, m = Ok a /\ f a = Ok b.
Proof. destruct m as [a|e]; [eauto|done]. Qed.

Section normalizer_facts.

Lemma filterS_id (p : ascii -> bool) (s : string) :
  forallS p s = true -> filterS p s = s.
Proof.
  induction s as [|c r IH]; simpl; [done|].
  intros [Hc Hr]%andb_true_iff. rewrite Hc. f_equal. auto.
Qed.

Lemma forallS_filterS (p : ascii -> bool) (s : string) :
  forallS p (filterS p s) = true.
Proof.
  induction s as [|c r IH]; simpl; [done|].
  destruct (p c) eqn:Hc; simpl; [rewrite Hc|]; done.
Qed.

Lemma length_repeatS (c : ascii) (n : nat) : String.length (repeatS c n) = n.
Proof. induction n as [|n IH]; simpl; [done|by rewrite IH]. Qed.

Lemma forallS_repeatS (p : ascii -> bool) (c : ascii) (n : nat) :
  p c = true -> forallS p (repeatS c n) = true.
Proof. intros Hc. induction n; simpl; [done|]. by rewrite Hc. Qed.

Lemma length_appS (s t : string) :
  String.length (s +:+ t) = (String.length s + String.length t)%nat.
Proof. induction s as [|c r IH]; simpl; [done|by rewrite IH]. Qed.

Lemma forallS_appS (p : ascii -> bool) (s t : string) :
  forallS p (s +:+ t) = forallS p s && forallS p t.
Proof. induction s as [|c r IH]; simpl; [done|]. by rewrite IH, andb_assoc. Qed.

Lemma length_takeS (n : nat) (s : string) :
  (n <= String.length s)%nat -> String.length (takeS n s) = n.
Proof.
  revert s. induction n as [|n IH]; intros [|c r]; simpl; try lia.
  intros ?. rewrite IH; lia.
Qed.

Lemma forallS_takeS (p : ascii -> bool) (n : nat) (s : string) :
  forallS p s = true -> forallS p (takeS n s) = true.
Proof.
  revert s. induction n as [|n IH]; intros [|c r]; simpl; try done.
  intros [Hc Hr]%andb_true_iff. rewrite Hc. simpl. auto.
Qed.

Lemma normalizeTpin_unfold (value : jv) :
  normalizeTpin value =
  let cleaned := tpinDigits value in
  let len := String.length cleaned in
  if (len =? 10)%nat then (cleaned, High)
  else if (len =? 9)%nat then ("0" +:+ cleaned, Medium)
  else if (10 <? len)%nat then (takeS 10 cleaned, Medium)
  else if (6 <=? len)%nat then (padEnd 10 "0" cleaned, Low)
  else ("0000000000", Low).
Proof. by destruct value as [| |[]| | | |]. Qed.

(** The normalized taxpayer ID is always a string of ten digits. *)
Lemma normalizeTpin_ten_digits (value : jv) :
  String.length (fst (normalizeTpin value)) = 10%nat /\
  forallS isDigit (fst (normalizeTpin value)) = true.
Proof.
  rewrite normalizeTpin_unfold. cbv zeta.
  assert (Hd : forallS isDigit (tpinDigits value) = true).
  { unfold tpinDigits. destruct (textOfValue value); [apply forallS_filterS|done]. }
  set (d := tpinDigits value) in *.
  destruct (Nat.eqb_spec (String.length d) 10) as [H10|H10]; [done|].
  destruct (Nat.eqb_spec (String.length d) 9) as [H9|H9].
  { cbn [fst]. split; [rewrite length_appS, H9; done | by rewrite forallS_appS, Hd]. }
  destruct (Nat.ltb_spec 10 (String.length d)) as [Hgt|Hle].
  { cbn [fst]. split; [apply length_takeS; lia | by apply forallS_takeS]. }
  destruct (Nat.leb_spec 6 (String.length d)) as [H6|H6]; [|done].
  cbn [fst]. unfold padEnd. split.
  - rewrite length_appS, length_repeatS. lia.
  - rewrite forallS_appS, Hd. by apply forallS_repeatS.
Qed.

End normalizer_facts.

(** C5.  Let [d] be the digits of the text of the input, where the text
    of a string is the string, the text of a number is what [String] gives
    for it, the text of a boolean, an array or an object is its JSON text,
    and [null] and [undefined] have no text and no digit.  Then
    [normalizeTpin] answers as follows: ten digits are returned as they are
    with high confidence; nine get one leading zero, medium; more than ten
    are cut to the first ten, medium; six to eight are filled up with zeros
    on the right, low; fewer than six give the sentinel ["0000000000"],
    low.  A string of ten digits is returned unchanged with high
    confidence. *)
Theorem normalizeTpin_cases (value : jv) (d : string) :
  d = tpinDigits value ->
  (String.length d = 10%nat -> normalizeTpin value = (d, High)) /\
  (String.length d = 9%nat -> normalizeTpin value = ("0" +:+ d, Medium)) /\
  ((10 < String.length d)%nat -> normalizeTpin value = (takeS 10 d, Medium)) /\
  ((6 <= String.length d <= 8)%nat ->
   normalizeTpin value = (d +:+ repeatS "0" (10 - String.length d), Low)) /\
  ((String.length d < 6)%nat -> normalizeTpin value = ("0000000000", Low)) /\
  (forall s : string,
      forallS isDigit s = true -> String.length s = 10%nat ->
      normalizeTpin (JStr s) = (s, High)).
Proof.
  intros ->. rewrite normalizeTpin_unfold. cbv zeta.
  set (d := tpinDigits value).
  repeat split.
  - intros ->. done.
  - intros ->. done.
  - intros Hgt.
    destruct (Nat.eqb_spec (String.length d) 10); [lia|].
    destruct (Nat.eqb_spec (String.length d) 9); [lia|].
    destruct (Nat.ltb_spec 10 (String.length d)); [done|lia].
  - intros [Hlo Hhi].
    destruct (Nat.eqb_spec (String.length d) 10); [lia|].
    destruct (Nat.eqb_spec (String.length d) 9); [lia|].
    destruct (Nat.ltb_spec 10 (String.length d)); [lia|].
    destruct (Nat.leb_spec 6 (String.length d)); [done|lia].
  - intros Hlt.
    destruct (Nat.eqb_spec (String.length d) 10); [lia|].
    destruct (Nat.eqb_spec (String.length d) 9); [lia|].
    destruct (Nat.ltb_spec 10 (String.length d)); [lia|].
    destruct (Nat.leb_spec 6 (String.length d)); [lia|done].
  - intros s Hs Hlen. rewrite normalizeTpin_unfold. unfold tpinDigits. simpl.
    rewrite (filterS_id _ _ Hs), Hlen. done.
Qed.

Lemma normalizeTpin_cases_witness :
  normalizeTpin (JStr "1234567890") = ("1234567890", High) /\
  normalizeTpin (JStr "123456789") = ("0123456789", Medium) /\
  normalizeTpin (JStr "1234567890123") = ("1234567890", Medium) /\
  normalizeTpin (JStr "12-34-567") = ("1234567000", Low) /\
  normalizeTpin (JStr "abc") = ("0000000000", Low) /\
  normalizeTpin (jnum 1234567890) = ("1234567890", High) /\
  normalizeTpin (JNum (Num 123456785 1)) = ("0123456785", Medium) /\
  normalizeTpin (JBool true) = ("0000000000", Low) /\
  normalizeTpin (JObj [("id", jnum 12345678); ("n", JArr [jnum 9; JStr "01"])]) =
    ("1234567890", Medium) /\
  normalizeTpin JNull = ("0000000000", Low).
Proof.
  split; [|split; [|split; [|split; [|split; [|split; [|split; [|split; [|split]]]]]]]].
  - destruct (normalizeTpin_cases (JStr "1234567890") "1234567890" eq_refl) as (H & _).
    by apply H.
  - destruct (normalizeTpin_cases (JStr "123456789") "123456789" eq_refl) as (_ & H & _).
    by apply H.
  - destruct (normalizeTpin_cases (JStr "1234567890123") "1234567890123" eq_refl)
      as (_ & _ & H & _).
    apply H. simpl. lia.
  - destruct (normalizeTpin_cases (JStr "12-34-567") "1234567" eq_refl)
      as (_ & _ & _ & H & _).
    apply H. simpl. lia.
  - destruct (normalizeTpin_cases (JStr "abc") "" eq_refl) as (_ & _ & _ & _ & H & _).
    apply H. simpl. lia.
  - destruct (normalizeTpin_cases (jnum 1234567890) "1234567890") as (H & _);
      [vm_compute; reflexivity|].
    by apply H.
  - destruct (normalizeTpin_cases (JNum (Num 123456785 1)) "123456785") as (_ & H & _);
      [vm_compute; reflexivity|].
    by apply H.
  - destruct (normalizeTpin_cases (JBool true) "" eq_refl) as (_ & _ & _ & _ & H & _).
    apply H. simpl. lia.
  - destruct (normalizeTpin_cases
                (JObj [("id", jnum 12345678); ("n", JArr [jnum 9; JStr "01"])])
                "12345678901") as (_ & _ & H & _); [vm_compute; reflexivity|].
    apply H. simpl. lia.
  - destruct (normalizeTpin_cases JNull "" eq_refl) as (_ & _ & _ & _ & H & _).
    apply H. simpl. lia.
Defined.

(** * The normalizers on the inputs the specification singles out *)

(** C9.  The class of characters [parseNumber] strips leaves ['^'] in the
    text: ["^5"] is not a number for [parseNumber] and ["1^5"] is 1, where
    stripping the ['^'] would give 5 and 15. *)
Theorem parseNumber_keeps_caret :
  parseNumber (JStr "^5") = Ok None /\
  parseNumberSpec (JStr "^5") = Ok (Some (num_of_Z 5)) /\
  parseNumber (JStr "1^5") = Ok (Some (num_of_Z 1)) /\
  parseNumberSpec (JStr "1^5") = Ok (Some (num_of_Z 15)).
Proof. repeat split; reflexivity. Qed.

Lemma filterS_ext_in (p q : ascii -> bool) (s : string) :
  (forall c, In c (list_ascii_of_string s) -> p c = q c) ->
  filterS p s = filterS q s.
Proof.
  induction s as [|c r IH]; simpl; [done|].
  intros H. rewrite (H c) by auto. rewrite IH by auto. done.
Qed.

(** Away from the character ['^'] the two agree. *)
Lemma parseNumber_without_caret (value : jv) :
  ~ In "^"%char (list_ascii_of_string (toStr value)) ->
  parseNumber value = parseNumberSpec value.
Proof.
  intros Hno.
  assert (Hf : filterS keptByParseNumber (toStr value) = filterS keptBySpec (toStr value)).
  { apply filterS_ext_in. intros c Hc. unfold keptByParseNumber, keptBySpec.
    destruct (Nat.eqb_spec (code c) 94) as [E|E]; [|done].
    exfalso. apply Hno. replace "^"%char with c; [done|].
    unfold code in E. rewrite <- (ascii_nat_embedding c), E. reflexivity. }
  destruct value; try reflexivity; unfold parseNumber, parseNumberSpec, stringOf;
    (destruct (stringable _); [|reflexivity]); rewrite !bind_Ok; cbv zeta; by rewrite Hf.
Qed.

(** [String] does not convert an object with a property [toString]. *)
Example stringOf_unconvertible :
  stringOf (jprop "VATRate" unconvertibleRate) =
    Throw "TypeError: Cannot convert object to primitive value" /\
  stringOf (JArr [JNull; jnum 1; JArr [JStr "a"; JUndef]; JObj []]) =
    Ok ",1,a,,[object Object]".
Proof. split; vm_compute; reflexivity. Qed.

(** C6.  A day of one digit before a slash matches none of the patterns:
    the day-first date ["1/5/2023"] is answered with today's date and low
    confidence, whatever the clock; the same date with dashes or dots, or
    with the day written ["01"], is normalized. *)
Theorem normalizeDate_one_digit_day_slash (clk : clock) :
  normalizeDate clk (JStr "1/5/2023") = (today clk, Low).
Proof. reflexivity. Qed.

Example normalizeDate_day_first :
  normalizeDate exampleClock (JStr "01/05/2023") = ("2023-05-01", High) /\
  normalizeDate exampleClock (JStr "1-5-2023") = ("2023-05-01", High) /\
  normalizeDate exampleClock (JStr "1.5.2023") = ("2023-05-01", High) /\
  normalizeDate exampleClock (JStr "1/5/2023") = ("2026-11-01", Low).
Proof. repeat split; vm_compute; reflexivity. Qed.

Example normalizeDate_timestamp :
  normalizeDate exampleClock (JStr "1682899200") = ("2023-05-01", Medium) /\
  snd (normalizeDate exampleClock (JStr "not-a-date")) = Low.
Proof. split; vm_compute; reflexivity. Qed.

(** * [validateAndFix] on single payloads *)

(** [JSON.stringify(undefined)] is [undefined], which [JSON.parse]
    rejects: the call throws, whatever the clock and the file type. *)
Lemma validateAndFix_undefined (clk : clock) (fileType : FileType) :
  validateAndFix clk JUndef fileType = Throw "SyntaxError: undefined is not valid JSON".
Proof. reflexivity. Qed.


(** The expectations of the end-to-end test of the repository on its
    malformed JSON invoice: the taxpayer ID is padded to ten digits, the
    currency is ZMW and the date is in ISO form. *)
Example endToEnd_malformed_json :
  exists r : ValidationResult,
    validateAndFix exampleClock brokenJson Json = Ok r /\
    (0 < length (issues r))%nat /\
    jprop "TPIN" (fixedData r) = JStr "0123456789" /\
    jprop "Currency" (fixedData r) = JStr "ZMW" /\
    jprop "InvoiceDate" (fixedData r) = JStr "2025-02-01" /\
    originalData r = brokenJson.
Proof. eexists. split; [vm_compute; reflexivity|]. repeat split. simpl. lia. Qed.

(** C1.  The rate is read from the fixed record with [||], which steps
    over the number 0: for the exempt invoice the VAT is recomputed at the
    rate 16, and the stored VAT amount 0 and grand total 100, which are
    right for the rate 0, are overwritten with 16 and 116, each with a
    warning. *)
Theorem exempt_rate_recomputed_at_16 :
  exists r : ValidationResult,
    validateAndFix exampleClock exemptInvoice Json = Ok r /\
    jprop "VATRate" (fixedData r) = jnum 0 /\
    jprop "VATAmount" (fixedData r) = JNum (Num 1600 2) /\
    jprop "GrandTotal" (fixedData r) = JNum (Num 11600 2) /\
    map (fun i => (field i, fixedValue i, autoFixed i)) (issues r) =
      [("VATAmount (Record 1)", JStr "16", true);
       ("GrandTotal (Record 1)", JStr "116", true)].
Proof. eexists. split; [vm_compute; reflexivity|]. repeat split. Qed.

(** C2.  For a record with the LineItems.LineItem wrapper the line item
    of the input is stored in the fixed record and then written to: after
    the call the input holds the recomputed line total. *)
Theorem lineitem_wrapper_mutates_input :
  exists r : ValidationResult,
    validateAndFix exampleClock wrappedLineInvoice Xml = Ok r /\
    originalData r <> wrappedLineInvoice /\
    jprop "LineItem" (jprop "LineItems" (originalData r)) =
      JObj [("Quantity", JStr "2"); ("UnitPrice", JStr "10");
            ("lineTotal", JNum (Num 2000 2))].
Proof. eexists. split; [vm_compute; reflexivity|]. split; [discriminate|reflexivity]. Qed.

(** C4.  The currency is looked for with [||] and the key to write is
    chosen with [!== undefined]: with an empty [Currency] and the value
    under [currency], the correction goes to [Currency] and [currency]
    keeps the value that was read. *)
Theorem currency_written_under_other_alias :
  exists r : ValidationResult,
    validateAndFix exampleClock twoCurrencyKeys Json = Ok r /\
    jprop "Currency" (fixedData r) = JStr "ZMW" /\
    jprop "currency" (fixedData r) = JStr "usd" /\
    In (Issue SevWarning "Currency (Record 1)"
              "Currency must be ZMW (Zambian Kwacha) per ZRA requirements"
              (JStr "USD") (JStr "ZMW") true High CatCurrency) (issues r).
Proof.
  eexists. split; [vm_compute; reflexivity|]. repeat split.
  vm_compute. tauto.
Qed.

(** * The validity flag *)

Lemma filter_isError_nil (iss : list ValidationIssue) :
  (length (List.filter isError iss) =? 0)%nat = true <->
  Forall (fun i => severity i <> SevError) iss.
Proof.
  induction iss as [|i iss IH]; simpl.
  - split; [constructor|done].
  - unfold isError at 1. case_bool_decide as Hsev; simpl.
    + split; [done|]. intros H. inversion H; subst. done.
    + rewrite IH. split; [by constructor|]. intros H. by inversion H.
Qed.

(** The flag of a result is computed from its issues. *)
Lemma isValid_of_result (clk : clock) (data : jv) (fileType : FileType)
      (r : ValidationResult) :
  validateAndFix clk data fileType = Ok r ->
  (isValid r = true <-> Forall (fun i => severity i <> SevError) (issues r)).
Proof.
  unfold validateAndFix. destruct (jsonClone (unwrapTop data)) as [fixedData|]; [|done].
  destruct (validateRecords clk 0 _ _ [] ∅) as [[[origs fixeds] iss]|e]; simpl; [|done].
  intros [= <-]. simpl. apply filter_isError_nil.
Qed.

(** * The store *)

Section store_facts.

Implicit Types (h : heap) (l : nat) (k : string) (v : value).

Lemma lookupProp_assignProp_eq k v (ps : list (string * value)) :
  lookupProp k (assignProp k v ps) = v.
Proof.
  unfold lookupProp. induction ps as [|[k' v'] r IH]; simpl.
  - by rewrite String.eqb_refl.
  - destruct (String.eqb k k') eqn:E; simpl.
    + by rewrite String.eqb_refl.
    + by rewrite E.
Qed.

Lemma lookupProp_assignProp_ne k k' v (ps : list (string * value)) :
  k <> k' -> lookupProp k' (assignProp k v ps) = lookupProp k' ps.
Proof.
  intros Hne. unfold lookupProp. induction ps as [|[k0 v0] r IH]; simpl.
  - destruct (String.eqb_spec k' k); [congruence|done].
  - destruct (String.eqb_spec k k0) as [->|Hk]; simpl.
    + destruct (String.eqb_spec k' k0); [congruence|done].
    + destruct (String.eqb_spec k' k0); [done|apply IH].
Qed.

Lemma setProp_lookup_ne l l' k v h : l <> l' -> setProp l k v h !! l' = h !! l'.
Proof.
  intros Hne. unfold setProp. destruct (h !! l) as [[ps|es]|]; try done.
  by apply list_lookup_insert_ne.
Qed.

Lemma setProp_lookup_obj l k v h ps :
  h !! l = Some (CObj ps) -> setProp l k v h !! l = Some (CObj (assignProp k v ps)).
Proof.
  intros Hl. unfold setProp. rewrite Hl.
  apply list_lookup_insert_eq. by eapply lookup_lt_Some.
Qed.

Lemma setProp_lookup_arr l l' k v h es :
  h !! l' = Some (CArr es) -> setProp l k v h !! l' = Some (CArr es).
Proof.
  intros Hl. destruct (decide (l = l')) as [->|Hne].
  - unfold setProp. by rewrite Hl.
  - by rewrite setProp_lookup_ne.
Qed.

Lemma setProp_lookup_arr_inv l l' k v h es :
  setProp l k v h !! l' = Some (CArr es) -> h !! l' = Some (CArr es).
Proof.
  destruct (decide (l = l')) as [->|Hne].
  - unfold setProp. destruct (h !! l') as [[ps|es']|] eqn:Hl; try congruence.
    rewrite list_lookup_insert_eq by (by eapply lookup_lt_Some). done.
  - by rewrite setProp_lookup_ne.
Qed.

Lemma length_setProp l k v h : length (setProp l k v h) = length h.
Proof.
  unfold setProp. destruct (h !! l) as [[ps|es]|]; try done. apply length_insert.
Qed.

Lemma setProp_is_Some l l' k v h : is_Some (setProp l k v h !! l') <-> is_Some (h !! l').
Proof. by rewrite !lookup_lt_is_Some, length_setProp. Qed.

Lemma arrElems_setProp l k v h x : arrElems (setProp l k v h) x = arrElems h x.
Proof.
  destruct x as [| | | | |l']; try done. simpl.
  destruct (h !! l') as [[ps|es]|] eqn:Hl.
  - destruct (decide (l = l')) as [->|Hne].
    + by rewrite (setProp_lookup_obj _ _ _ _ _ Hl).
    + by rewrite setProp_lookup_ne, Hl.
  - by rewrite (setProp_lookup_arr _ _ _ _ _ _ Hl).
  - destruct (setProp l k v h !! l') eqn:Hs; [|done].
    assert (is_Some (h !! l')) as [? ?] by (apply (setProp_is_Some l l' k v); eauto).
    congruence.
Qed.

Lemma objProps_setProp_other l k v h x :
  x <> VRef l -> objProps (setProp l k v h) x = objProps h x.
Proof.
  destruct x as [| | | | |l']; try done. intros Hne. simpl.
  rewrite setProp_lookup_ne; [done|congruence].
Qed.

Lemma objProps_setProp_same l k v h :
  objProps (setProp l k v h) (VRef l) = assignProp k v <$> objProps h (VRef l).
Proof.
  simpl. destruct (h !! l) as [[ps|es]|] eqn:Hl.
  - by rewrite (setProp_lookup_obj _ _ _ _ _ Hl).
  - by rewrite (setProp_lookup_arr _ _ _ _ _ _ Hl).
  - unfold setProp. by rewrite Hl, Hl.
Qed.

Lemma isObject_setProp l k v h x : isObject (setProp l k v h) x = isObject h x.
Proof.
  unfold isObject. destruct (decide (x = VRef l)) as [->|Hne].
  - rewrite objProps_setProp_same. apply bool_decide_ext. by rewrite fmap_is_Some.
  - by rewrite objProps_setProp_other.
Qed.

Lemma isArray_setProp l k v h x : isArray (setProp l k v h) x = isArray h x.
Proof. unfold isArray. by rewrite arrElems_setProp. Qed.

Lemma getProp_setProp_ne l k k' v h x :
  k <> k' -> getProp (setProp l k v h) x k' = getProp h x k'.
Proof.
  intros Hne. unfold getProp. destruct (decide (x = VRef l)) as [->|Hx].
  - rewrite objProps_setProp_same. destruct (objProps h (VRef l)); simpl; [|done].
    by apply lookupProp_assignProp_ne.
  - by rewrite objProps_setProp_other.
Qed.

Lemma getProp_setProp_eq l k v h :
  isObject h (VRef l) = true -> getProp (setProp l k v h) (VRef l) k = v.
Proof.
  intros Hobj. unfold getProp. rewrite objProps_setProp_same.
  apply bool_decide_eq_true in Hobj as [ps Hps]. rewrite Hps. simpl.
  apply lookupProp_assignProp_eq.
Qed.

Lemma isObject_true h x :
  isObject h x = true <-> exists l ps, x = VRef l /\ h !! l = Some (CObj ps).
Proof.
  unfold isObject. rewrite bool_decide_eq_true. split.
  - intros [ps Hps]. destruct x as [| | | | |l]; try done. simpl in Hps.
    destruct (h !! l) as [[ps'|]|] eqn:Hl; try done. eauto.
  - intros (l & ps & -> & Hl). simpl. rewrite Hl. eauto.
Qed.

Lemma isObject_isRef h x : isObject h x = true -> isRef x = true.
Proof. intros (l & ps & -> & _)%isObject_true. done. Qed.

Lemma arrElems_Some h x es :
  arrElems h x = Some es <-> exists l, x = VRef l /\ h !! l = Some (CArr es).
Proof.
  split.
  - destruct x as [| | | | |l]; try done. simpl.
    destruct (h !! l) as [[|es']|] eqn:Hl; try done. intros [= ->]. eauto.
  - intros (l & -> & Hl). simpl. by rewrite Hl.
Qed.

(** Allocation leaves the cells that exist as they are. *)
Lemma objProps_app h h' x ps : objProps h x = Some ps -> objProps (h ++ h') x = Some ps.
Proof.
  destruct x as [| | | | |l]; try done. simpl.
  destruct (h !! l) as [[ps'|]|] eqn:Hl; try done. intros [= ->].
  by rewrite (lookup_app_l_Some _ _ _ _ Hl).
Qed.

Lemma arrElems_app h h' x es : arrElems h x = Some es -> arrElems (h ++ h') x = Some es.
Proof.
  intros (l & -> & Hl)%arrElems_Some. simpl.
  by rewrite (lookup_app_l_Some _ _ _ _ Hl).
Qed.

Lemma isObject_app h h' x : isObject h x = true -> isObject (h ++ h') x = true.
Proof.
  intros (l & ps & -> & Hl)%isObject_true. apply isObject_true.
  exists l, ps. split; [done|]. by apply lookup_app_l_Some.
Qed.

Lemma getProp_app h h' x k : isObject h x = true -> getProp (h ++ h') x k = getProp h x k.
Proof.
  intros (l & ps & -> & Hl)%isObject_true. unfold getProp. simpl.
  by rewrite (lookup_app_l_Some _ _ _ _ Hl), Hl.
Qed.

End store_facts.

(** * Documents in the store *)

Section alloc_facts.

Implicit Types (h : heap) (t : jv) (v : value).

Lemma Forall2_Forall_impl {A B : Type} (P Q : A -> B -> Prop) (R : B -> Prop)
      (l : list A) (k : list B) :
  Forall R k -> Forall2 P l k -> (forall a b, R b -> P a b -> Q a b) -> Forall2 Q l k.
Proof.
  intros HR HP Himp. revert HR. induction HP as [|a b l k Hab _ IH]; intros HR.
  - constructor.
  - inversion HR; subst. constructor; auto.
Qed.

Lemma repr_mono t : forall h ext v, repr h v t -> repr (h ++ ext) v t.
Proof.
  induction t as [| | | | |elems IH|props IH] using jv_ind; intros h ext v Hr;
    inversion Hr; subst; try constructor.
  - eapply repr_arr; [by apply lookup_app_l_Some|].
    eapply Forall2_Forall_impl; [exact IH|eassumption|]. intros a b Hb Hab. by apply Hb.
  - eapply repr_obj; [by apply lookup_app_l_Some|].
    eapply Forall2_Forall_impl; [exact IH|eassumption|].
    intros a b Hb [Hk Hab]. split; [done|]. by apply Hb.
Qed.


Lemma allocElems_spec (ts : list jv) :
  Forall allocSpec ts ->
  forall h vs h', allocElems alloc ts h = (vs, h') ->
    (exists ext, h' = h ++ ext) /\ Forall2 (repr h') vs ts.
Proof.
  induction 1 as [|t ts Ht _ IH]; intros h vs h'; simpl.
  - intros [= <- <-]. split; [exists []; by rewrite app_nil_r|constructor].
  - destruct (alloc t h) as [v h1] eqn:Hv.
    destruct (allocElems alloc ts h1) as [vs' h2] eqn:Hvs. intros [= <- <-].
    destruct (Ht _ _ _ Hv) as [[e1 ->] Hr1].
    destruct (IH _ _ _ Hvs) as [[e2 ->] Hr2].
    split; [exists (e1 ++ e2); by rewrite app_assoc|].
    constructor; [by apply repr_mono|done].
Qed.

Lemma allocProps_spec (kts : list (string * jv)) :
  Forall (fun kt => allocSpec (snd kt)) kts ->
  forall h kvs h', allocProps alloc kts h = (kvs, h') ->
    (exists ext, h' = h ++ ext) /\
    Forall2 (fun (kv : string * value) (kt : string * jv) =>
               fst kv = fst kt /\ repr h' (snd kv) (snd kt)) kvs kts.
Proof.
  induction 1 as [|[k t] kts Ht _ IH]; intros h kvs h'; simpl.
  - intros [= <- <-]. split; [exists []; by rewrite app_nil_r|constructor].
  - destruct (alloc t h) as [v h1] eqn:Hv.
    destruct (allocProps alloc kts h1) as [kvs' h2] eqn:Hvs. intros [= <- <-].
    destruct (Ht _ _ _ Hv) as [[e1 ->] Hr1].
    destruct (IH _ _ _ Hvs) as [[e2 ->] Hr2].
    split; [exists (e1 ++ e2); by rewrite app_assoc|].
    constructor; [|done]. split; [done|]. by apply repr_mono.
Qed.

Lemma Forall2_repr_mono h ext (es : list value) (ts : list jv) :
  Forall2 (repr h) es ts -> Forall2 (repr (h ++ ext)) es ts.
Proof. induction 1; constructor; auto using repr_mono. Qed.

Lemma Forall2_repr_props_mono h ext (kvs : list (string * value)) (kts : list (string * jv)) :
  Forall2 (fun kv kt => fst kv = fst kt /\ repr h (snd kv) (snd kt)) kvs kts ->
  Forall2 (fun kv kt => fst kv = fst kt /\ repr (h ++ ext) (snd kv) (snd kt)) kvs kts.
Proof. induction 1 as [|?? ?? [??]]; constructor; auto using repr_mono. Qed.

(** Placing a document gives a value that stands for it, and only adds
    cells. *)
Lemma alloc_spec t : allocSpec t.
Proof.
  induction t as [| | | | |elems IH|props IH] using jv_ind; intros h v h'; simpl;
    try (intros [= <- <-]; split; [exists []; by rewrite app_nil_r|constructor]).
  - destruct (allocElems alloc elems h) as [vs h1] eqn:Hvs. intros [= <- <-].
    destruct (allocElems_spec _ IH _ _ _ Hvs) as [[e ->] Hr].
    split; [exists (e ++ [CArr vs]); by rewrite app_assoc|].
    eapply repr_arr; [apply list_lookup_middle; done|].
    by apply Forall2_repr_mono.
  - destruct (allocProps alloc props h) as [kvs h1] eqn:Hvs. intros [= <- <-].
    destruct (allocProps_spec _ IH _ _ _ Hvs) as [[e ->] Hr].
    split; [exists (e ++ [CObj kvs]); by rewrite app_assoc|].
    eapply repr_obj; [apply list_lookup_middle; done|].
    by apply Forall2_repr_props_mono.
Qed.

End alloc_facts.

(** * A record and its deep copy in the store *)

Section mirror.

Implicit Types (h : heap) (t : jv) (v : value) (k : string).

Lemma isObject_obj h l ps : h !! l = Some (CObj ps) -> isObject h (VRef l) = true.
Proof. intros Hl. apply isObject_true. eauto. Qed.

Lemma isObject_arr h l es : h !! l = Some (CArr es) -> isObject h (VRef l) = false.
Proof.
  intros Hl. unfold isObject. apply bool_decide_eq_false. simpl. rewrite Hl. by intros [??].
Qed.

Lemma repr_isObject h v t : repr h v t -> isObject h v = isJObj t.
Proof.
  inversion 1; subst; try done; simpl.
  - by eapply isObject_arr.
  - by eapply isObject_obj.
Qed.

Lemma repr_isRef h v t : repr h v t -> isRef v = isNode t.
Proof. by inversion 1. Qed.

Lemma repr_valid h l t : repr h (VRef l) t -> is_Some (h !! l).
Proof. inversion 1; eauto. Qed.

Lemma jsonClone_isNode t c : jsonClone t = Some c -> isNode c = isNode t.
Proof. destruct t; simpl; intros [= <-]; done. Qed.

Lemma cloneElem_isNode t : isNode t = true -> isNode (cloneElem t) = true.
Proof. by destruct t. Qed.

Lemma cloneElem_isJObj t : isJObj (cloneElem t) = isJObj t.
Proof. by destruct t. Qed.

Lemma lookup_repr h k (kvs : list (string * value)) (kts : list (string * jv)) :
  Forall2 (fun kv kt => fst kv = fst kt /\ repr h (snd kv) (snd kt)) kvs kts ->
  repr h (lookupProp k kvs) (jlookup k kts).
Proof.
  unfold lookupProp, jlookup, jprop.
  induction 1 as [|[k1 v1] [k2 t2] kvs kts [Hk Hv] _ IH]; simpl in *.
  - constructor.
  - subst k2. destruct (String.eqb k k1); [done|apply IH].
Qed.

Lemma jlookup_cloneProps k (kts : list (string * jv)) (c : jv) :
  jsonClone (jlookup k kts) = Some c -> jlookup k (cloneProps kts) = c.
Proof.
  unfold jlookup, jprop, cloneProps. induction kts as [|[k0 t0] kts IH]; simpl; [done|].
  destruct (String.eqb k k0) eqn:E; simpl.
  - intros ->. simpl. by rewrite E.
  - intros Hc. destruct (jsonClone t0); simpl; [rewrite E|]; by apply IH.
Qed.

Lemma copyShape_undef h v' : copyShape h VUndef v'.
Proof. repeat split; try done. Qed.

Lemma Forall2_repr_lookup h (es : list value) (ts : list jv) idx x :
  Forall2 (repr h) es ts -> es !! idx = Some x ->
  exists tx, ts !! idx = Some tx /\ repr h x tx.
Proof. intros HF Hx. by eapply Forall2_lookup_l in HF. Qed.

Lemma copyShape_of_repr h v v' t c :
  repr h v t -> jsonClone t = Some c -> repr h v' c -> copyShape h v v'.
Proof.
  intros Hv Hc Hv'. split; [|split].
  - intros l ->. by eapply repr_valid.
  - rewrite (repr_isRef _ _ _ Hv), (repr_isRef _ _ _ Hv'). by rewrite (jsonClone_isNode _ _ Hc).
  - intros es (l & -> & Hl)%arrElems_Some.
    inversion Hv as [| | | | |l0 es0 ts Hl0 Hes|l0 kvs kts Hl0 _]; subst; [|congruence].
    assert (es0 = es) as -> by congruence.
    simpl in Hc. injection Hc as <-.
    inversion Hv' as [| | | | |l1 es1 ts1 Hl1 Hes1|]; subst.
    exists es1. split; [apply arrElems_Some; eauto|].
    intros idx x Hx Href.
    destruct (Forall2_repr_lookup _ _ _ _ _ Hes Hx) as (tx & Htx & Hrx).
    assert (Hcx : map (fun e => default JNull (jsonClone e)) ts !! idx = Some (cloneElem tx)).
    { by rewrite list_lookup_fmap, Htx. }
    destruct (Forall2_lookup_r _ _ _ _ _ Hes1 Hcx) as (x' & Hx' & Hrx').
    rewrite (repr_isRef _ _ _ Hrx) in Href.
    apply cloneElem_isNode in Href. rewrite <- (repr_isRef _ _ _ Hrx') in Href.
    destruct x'; try done. eauto.
Qed.

(** A record that is an object and its deep copy satisfy what the rule on
    line items needs. *)
Lemma mirrored_of_repr h r f (kts : list (string * jv)) :
  repr h r (JObj kts) -> repr h f (JObj (cloneProps kts)) -> lineItemsMirrored h r f.
Proof.
  intros Hr Hf.
  assert (Hshape : forall k, copyShape h (getProp h r k) (getProp h f k)).
  { intros k.
    inversion Hr as [| | | | | |l kvs kts0 Hl Hkvs]; subst.
    inversion Hf as [| | | | | |l' kvs' kts1 Hl' Hkvs']; subst.
    unfold getProp. simpl. rewrite Hl, Hl'.
    pose proof (lookup_repr h k _ _ Hkvs) as Hv.
    pose proof (lookup_repr h k _ _ Hkvs') as Hv'.
    destruct (jsonClone (jlookup k kts)) as [c|] eqn:Hc.
    - rewrite (jlookup_cloneProps _ _ _ Hc) in Hv'. by eapply copyShape_of_repr.
    - destruct (jlookup k kts); try done. inversion Hv. apply copyShape_undef. }
  split; [by rewrite (repr_isObject _ _ _ Hr)|].
  split; [by rewrite (repr_isObject _ _ _ Hf)|].
  split; apply Hshape.
Qed.

End mirror.

(** * The head of the callback *)

Section enter.

Implicit Types (h : heap) (t : jv) (v : value) (k : string).

Lemma place_repr (o f : jv) ro rf h :
  placeRecord o f = (ro, rf, h) -> repr h ro o /\ repr h rf f.
Proof.
  unfold placeRecord. destruct (alloc o []) as [ro' h1] eqn:Ho.
  destruct (alloc f h1) as [rf' h2] eqn:Hf. intros [= <- <- <-].
  destruct (alloc_spec _ _ _ _ Ho) as [_ Hro].
  destruct (alloc_spec _ _ _ _ Hf) as [[e ->] Hrf].
  split; [by apply repr_mono|done].
Qed.

Lemma getProp_fresh h ps k : getProp (h ++ [CObj ps]) (VRef (length h)) k = lookupProp k ps.
Proof. unfold getProp. simpl. by rewrite list_lookup_middle. Qed.

Lemma isObject_fresh h ps : isObject (h ++ [CObj ps]) (VRef (length h)) = true.
Proof. eapply isObject_obj. by apply list_lookup_middle. Qed.

Lemma keysOf_fresh h ps : keysOf (h ++ [CObj ps]) (VRef (length h)) = map fst ps.
Proof. unfold keysOf. simpl. by rewrite list_lookup_middle. Qed.

Lemma keysOf_app h h' x : isObject h x = true -> keysOf (h ++ h') x = keysOf h x.
Proof.
  intros (l & ps & -> & Hl)%isObject_true. unfold keysOf. simpl.
  by rewrite (lookup_app_l_Some _ _ _ _ Hl), Hl.
Qed.

(** A value that stands for something else than an object is no object,
    also after cells have been added. *)
Lemma repr_not_object h ext v t :
  repr h v t -> isJObj t = false -> isObject (h ++ ext) v = false.
Proof.
  intros Hr Ht. rewrite (repr_isObject (h ++ ext) v t); [done|]. by apply repr_mono.
Qed.

Lemma enter_mirrored h (o : jv) ro rf iss seen record fixedRecord st1 :
  repr h ro o -> repr h rf (cloneElem o) ->
  enterRecord ro rf (State h iss seen) = (record, fixedRecord, st1) ->
  lineItemsMirrored (st_heap st1) record fixedRecord /\
  st_issues st1 = iss /\ invoiceNumbersSeen st1 = seen.
Proof.
  intros Hro Hrf. unfold enterRecord, asRecord. simpl.
  destruct (isJObj o) eqn:Ho.
  - (* the record is an object *)
    destruct o as [| | | | | |kts]; try done.
    change (cloneElem (JObj kts)) with (JObj (cloneProps kts)) in Hrf.
    rewrite (repr_isObject _ _ _ Hro). simpl.
    rewrite (repr_isObject _ _ _ Hrf). simpl.
    unfold unwrapRecord.
    destruct (keysOf h ro) as [|inner [|]] eqn:Hkeys;
      try (intros [= <- <- <-]; split; [by eapply mirrored_of_repr|done]).
    destruct (isObject h (getProp h ro inner)) eqn:Hinner;
      [|intros [= <- <- <-]; split; [by eapply mirrored_of_repr|done]].
    (* the single-key wrapper *)
    inversion Hro as [| | | | | |l kvs kts0 Hl Hkvs]; subst.
    inversion Hrf as [| | | | | |l' kvs' kts1 Hl' Hkvs']; subst.
    unfold keysOf in Hkeys. simpl in Hkeys. rewrite Hl in Hkeys.
    destruct kvs as [|[k0 v0] [|]]; try done. injection Hkeys as ->.
    inversion Hkvs as [|? [k1 t1] ? ? [Hk Hv0] Hnil]; subst. inversion Hnil; subst.
    simpl in Hk. subst k1. simpl in Hv0.
    assert (Hgr : getProp h (VRef l) inner = v0).
    { unfold getProp. simpl. rewrite Hl. unfold lookupProp. simpl.
      by rewrite String.eqb_refl. }
    rewrite Hgr in Hinner |- *.
    rewrite (repr_isObject _ _ _ Hv0) in Hinner.
    destruct t1 as [| | | | | |kts2]; try done.
    simpl in Hkvs'. inversion Hkvs' as [|[k1 v1] ? ? ? [Hk' Hv1] Hnil']; subst.
    inversion Hnil'; subst. simpl in Hk'. subst k1. simpl in Hv1.
    assert (Hgf : getProp h (VRef l') inner = v1).
    { unfold getProp. simpl. rewrite Hl'. unfold lookupProp. simpl.
      by rewrite String.eqb_refl. }
    rewrite Hgf. rewrite (isObject_obj _ _ _ Hl'). simpl.
    rewrite (repr_isObject _ _ _ Hv1). simpl.
    intros [= <- <- <-]. split; [|done]. simpl.
    eapply mirrored_of_repr; eauto.
  - (* the record is not an object: it is wrapped as { value: ... } *)
    rewrite (repr_isObject _ _ _ Hro), Ho. simpl.
    assert (Hf : isJObj (cloneElem o) = false) by (by rewrite cloneElem_isJObj).
    rewrite (repr_not_object _ _ _ _ Hrf Hf). simpl.
    unfold unwrapRecord.
    rewrite (keysOf_app _ [_] (VRef (length h))) by apply isObject_fresh.
    rewrite keysOf_fresh. simpl.
    rewrite (getProp_app _ [_] (VRef (length h))) by apply isObject_fresh.
    rewrite getProp_fresh.
    change (lookupProp "value" [("value", ro)]) with ro.
    rewrite <- app_assoc. rewrite (repr_not_object _ _ _ _ Hro Ho).
    intros [= <- <- <-]. split; [|done]. simpl.
    set (c1 := CObj [("value", ro)]). set (c2 := CObj [("value", rf)]).
    change (h ++ [c1; c2]) with (h ++ [c1] ++ [c2]). rewrite app_assoc.
    assert (Hr0 : isObject ((h ++ [c1]) ++ [c2]) (VRef (length h)) = true)
      by apply isObject_app, isObject_fresh.
    assert (Hg : forall k, getProp ((h ++ [c1]) ++ [c2]) (VRef (length h)) k =
                           lookupProp k [("value", ro)]).
    { intros k. rewrite getProp_app by apply isObject_fresh. apply getProp_fresh. }
    split; [done|]. split; [apply isObject_fresh|].
    split; rewrite Hg; apply copyShape_undef.
Qed.

End enter.

(** * Values that convert to strings *)

Section plain_store.

Local Arguments String.eqb : simpl never.

Implicit Types (h : heap) (t : jv) (v : value) (k : string).

Lemma hasKey_assignProp k' k v (ps : list (string * value)) :
  hasKey k' (assignProp k v ps) = hasKey k' ps || String.eqb k' k.
Proof.
  unfold hasKey. induction ps as [|[k0 v0] ps IH]; simpl; [by rewrite orb_false_r|].
  destruct (String.eqb_spec k k0) as [->|Hne]; simpl.
  - destruct (String.eqb k' k0); simpl; [done|]. by rewrite orb_false_r.
  - rewrite IH. by rewrite orb_assoc.
Qed.

Lemma plainHeap_setProp h l k v :
  k <> "toString" -> plainHeap h -> plainHeap (setProp l k v h).
Proof.
  intros Hk Hp. unfold setProp. destruct (h !! l) as [[ps|es]|] eqn:Hl; try done.
  apply Forall_insert; [done|]. simpl.
  rewrite hasKey_assignProp. rewrite (Forall_lookup_1 _ _ _ _ Hp Hl : plainCell (CObj ps)).
  simpl. apply String.eqb_neq. congruence.
Qed.

Lemma plainHeap_app h c : plainCell c -> plainHeap h -> plainHeap (h ++ [c]).
Proof. intros Hc Hp. apply Forall_app. split; [done|]. by constructor. Qed.

Lemma plainHeap_writeStable (K : string -> bool) :
  (forall k, K k = true -> k <> "toString") -> writeStable K plainHeap.
Proof. intros HK h l k v Hk Hp. apply plainHeap_setProp; auto. Qed.

Lemma plainHeap_allocStable : allocStable plainHeap.
Proof. intros h c Hc Hp. by apply plainHeap_app. Qed.

Lemma inKeys_not_toString (keys : list string) k :
  inKeys keys "toString" = false -> inKeys keys k = true -> k <> "toString".
Proof. intros Hno Hk ->. congruence. Qed.

Lemma existsb_key_map (f : value -> jv) k (ps : list (string * value)) :
  existsb (fun kt : string * jv => String.eqb k (fst kt))
          (map (fun kv : string * value => (fst kv, f (snd kv))) ps) = hasKey k ps.
Proof.
  unfold hasKey. induction ps as [|[k0 v0] ps IHps]; simpl; [done|]. by rewrite IHps.
Qed.

(** The documents of a plain store convert to strings. *)
Lemma reify_stringable h :
  plainHeap h -> forall fuel v, stringable (reify fuel h v) = true.
Proof.
  intros Hp. induction fuel as [|fuel IH]; intros [| | | | |l]; simpl; try done.
  destruct (h !! l) as [[ps|es]|] eqn:Hl; simpl; try done.
  - pose proof (Forall_lookup_1 _ _ _ _ Hp Hl : plainCell (CObj ps)) as Hc. simpl in Hc.
    apply negb_true_iff. by rewrite existsb_key_map.
  - apply forallb_forall. intros x (y & <- & _)%in_map_iff. apply IH.
Qed.

Lemma stringOf_Ok (t : jv) (s : string) : stringOf t = Ok s -> s = toStr t.
Proof. unfold stringOf. destruct (stringable t); [|done]. by intros [= <-]. Qed.

Lemma toStrV_Ok h v (s : string) : toStrV h v = Ok s -> s = toStr (contentOf h v).
Proof. apply stringOf_Ok. Qed.

Lemma toStrV_plain h v : plainHeap h -> toStrV h v = Ok (toStr (contentOf h v)).
Proof.
  intros Hp. unfold toStrV, stringOf, contentOf. by rewrite (reify_stringable h Hp).
Qed.

Lemma parseNumberV_plain h v : plainHeap h -> isOk (parseNumberV h v).
Proof.
  intros Hp. unfold parseNumberV, parseNumber.
  pose proof (toStrV_plain h v Hp) as Hs. unfold toStrV in Hs.
  destruct (contentOf h v); try (by eexists); rewrite Hs, bind_Ok; by eexists.
Qed.

(** Placing a plain document in a plain store gives a plain store. *)
Lemma allocElems_plain (ts : list jv) :
  Forall (fun t => forall h v h',
            plain t = true -> plainHeap h -> alloc t h = (v, h') -> plainHeap h') ts ->
  forallb plain ts = true ->
  forall h vs h', plainHeap h -> allocElems alloc ts h = (vs, h') -> plainHeap h'.
Proof.
  induction 1 as [|t ts Ht _ IH]; intros Hpl h vs h' Hp; simpl.
  - by intros [= <- <-].
  - simpl in Hpl. apply andb_true_iff in Hpl as [Hpl1 Hpl2].
    destruct (alloc t h) as [v h1] eqn:Hv.
    destruct (allocElems alloc ts h1) as [vs' h2] eqn:Hvs. intros [= <- <-].
    eapply IH; [done| |exact Hvs]. eapply Ht; eauto.
Qed.

Lemma allocProps_plain (kts : list (string * jv)) :
  Forall (fun kt => forall h v h',
            plain (snd kt) = true -> plainHeap h -> alloc (snd kt) h = (v, h') ->
            plainHeap h') kts ->
  forallb (fun kt : string * jv => plain (snd kt)) kts = true ->
  forall h kvs h', plainHeap h -> allocProps alloc kts h = (kvs, h') ->
    plainHeap h' /\ map fst kvs = map fst kts.
Proof.
  induction 1 as [|[k t] kts Ht _ IH]; intros Hpl h kvs h' Hp; simpl.
  - by intros [= <- <-].
  - simpl in Hpl. apply andb_true_iff in Hpl as [Hpl1 Hpl2].
    destruct (alloc t h) as [v h1] eqn:Hv.
    destruct (allocProps alloc kts h1) as [kvs' h2] eqn:Hvs. intros [= <- <-].
    destruct (IH Hpl2 h1 kvs' h2) as [Hp2 Hkeys]; [by eapply Ht; eauto|done|].
    split; [done|]. simpl. by rewrite Hkeys.
Qed.

Lemma hasKey_keys k (kvs : list (string * value)) (kts : list (string * jv)) :
  map fst kvs = map fst kts ->
  hasKey k kvs = existsb (fun kt : string * jv => String.eqb k (fst kt)) kts.
Proof.
  unfold hasKey. revert kts. induction kvs as [|[k0 v0] kvs IH]; intros [|[k1 t1] kts];
    simpl; try done.
  intros [= -> Hrest]. by rewrite (IH kts Hrest).
Qed.

Lemma alloc_plain t :
  forall h v h', plain t = true -> plainHeap h -> alloc t h = (v, h') -> plainHeap h'.
Proof.
  induction t as [| | | | |elems IH|props IH] using jv_ind; intros h v h' Hpl Hp; simpl;
    try (by intros [= <- <-]).
  - destruct (allocElems alloc elems h) as [vs h1] eqn:Hvs. intros [= <- <-].
    apply plainHeap_app; [done|]. by eapply allocElems_plain.
  - simpl in Hpl. apply andb_true_iff in Hpl as [Hno Hpl]. apply negb_true_iff in Hno.
    destruct (allocProps alloc props h) as [kvs h1] eqn:Hvs. intros [= <- <-].
    destruct (allocProps_plain _ IH Hpl _ _ _ Hp Hvs) as [Hp1 Hkeys].
    apply plainHeap_app; [|done]. simpl. by rewrite (hasKey_keys _ _ _ Hkeys).
Qed.

(** The deep copy of a plain document is plain. *)
Lemma cloneElem_plain t : plain t = true -> plain (cloneElem t) = true.
Proof.
  induction t as [| | | | |elems IH|props IH] using jv_ind; try done.
  - intros Hpl. change (forallb plain (map cloneElem elems) = true).
    simpl in Hpl. induction IH as [|e elems He _ IHe]; simpl in *; [done|].
    apply andb_true_iff in Hpl as [H1 H2]. apply andb_true_iff. auto.
  - intros Hpl. simpl in Hpl. apply andb_true_iff in Hpl as [Hno Hpl].
    apply negb_true_iff in Hno.
    change (plain (JObj (cloneProps props)) = true). simpl. apply andb_true_iff.
    unfold cloneProps. split.
    + apply negb_true_iff.
      clear IH Hpl. induction props as [|[k0 t0] props IHp]; simpl in *; [done|].
      apply orb_false_iff in Hno as [H1 H2].
      destruct (jsonClone t0); simpl; [rewrite H1|]; auto.
    + clear Hno. induction IH as [|[k0 t0] props He _ IHp]; simpl in *; [done|].
      apply andb_true_iff in Hpl as [H1 H2].
      destruct (jsonClone t0) as [c|] eqn:Hc; simpl; [|auto].
      apply andb_true_iff. split; [|auto].
      specialize (He H1). unfold cloneElem in He. by rewrite Hc in He.
Qed.

Lemma place_plain (o : jv) ro rf h :
  placeRecord o (cloneElem o) = (ro, rf, h) -> plain o = true -> plainHeap h.
Proof.
  unfold placeRecord. destruct (alloc o []) as [ro' h1] eqn:Ho.
  destruct (alloc (cloneElem o) h1) as [rf' h2] eqn:Hf. intros [= <- <- <-] Hpl.
  eapply alloc_plain; [by apply cloneElem_plain| |exact Hf].
  eapply alloc_plain; [exact Hpl| |exact Ho]. constructor.
Qed.

Lemma plain_unwrapTop (data : jv) : plain data = true -> plain (unwrapTop data) = true.
Proof.
  destruct data as [| | | | | |props]; try done.
  destruct props as [|[k [| | | | | |inner]] [|]]; try done.
  simpl. rewrite andb_true_r. by intros [_ H]%andb_true_iff.
Qed.

Lemma plain_asList (t : jv) : plain t = true -> forallb plain (asList t) = true.
Proof. destruct t; simpl; try done. all: intros ->; done. Qed.

End plain_store.

(** * What a rule may do to the state *)

Section evolution.

Context {K : string -> bool} {Q : ValidationIssue -> Prop}.

Lemma evolves_trans (st1 st2 st3 : state) :
  evolves K Q st1 st2 -> evolves K Q st2 st3 -> evolves K Q st1 st3.
Proof. intros H12 H23. induction H23; eauto using evolves. Qed.

Lemma evolves_seen (st st' : state) :
  evolves K Q st st' -> invoiceNumbersSeen st' = invoiceNumbersSeen st.
Proof.
  induction 1 as [|st st' i _ IH _|st st' o k v _ IH _|st st' c _ IH _]; try done.
  by destruct o.
Qed.

Lemma evolves_issues (st st' : state) :
  evolves K Q st st' ->
  exists new, st_issues st' = st_issues st ++ new /\ Forall Q new.
Proof.
  induction 1 as [st|st st' i _ (new & Hnew & HQ) Hi|st st' o k v _ IH _|st st' c _ IH _].
  - exists []. by rewrite app_nil_r.
  - exists (new ++ [i]). simpl. rewrite Hnew, app_assoc. split; [done|].
    apply Forall_app. auto.
  - by destruct o.
  - done.
Qed.

Lemma evolves_heap (P : heap -> Prop) (st st' : state) :
  writeStable K P -> allocStable P ->
  evolves K Q st st' -> P (st_heap st) -> P (st_heap st').
Proof.
  intros HW HA. induction 1 as [|st st' i _ IH _|st st' o k v _ IH Hk|st st' c _ IH Hc];
    intros HP; auto.
  - destruct o; simpl; auto.
  - simpl. auto.
Qed.

End evolution.

Lemma evolves_mono (K K' : string -> bool) (Q Q' : ValidationIssue -> Prop)
      (st st' : state) :
  (forall k, K k = true -> K' k = true) -> (forall i, Q i -> Q' i) ->
  evolves K Q st st' -> evolves K' Q' st st'.
Proof. intros HK HQ. induction 1; eauto using evolves. Qed.

Lemma inKeys_app (ks ks' : list string) (k : string) :
  inKeys (ks ++ ks') k = inKeys ks k || inKeys ks' k.
Proof. unfold inKeys. apply existsb_app. Qed.

(** The shape of the body of a rule is followed: a binding of a state is
    cut at the state, a branch is taken apart, a push and an assignment are
    steps of [evolves]. *)
Ltac ev_push_side := unfold notDuplicate; simpl; discriminate.

Ltac ev_step :=
  lazymatch goal with
  | |- evolves _ _ ?st ?st => apply ev_refl
  | |- evolves _ _ _ (pushIssue _ _) => apply ev_push; [|ev_push_side]
  | |- evolves _ _ _ (assign _ (if ?c then _ else _) _ _) => destruct c eqn:?
  | |- evolves _ _ _ (assign _ _ _ _) => apply ev_assign; [|first [reflexivity|assumption]]
  | |- evolves ?K ?Q ?st (let x := ?a in @?b x) =>
      lazymatch type of a with
      | state => apply (evolves_trans st a (b a)); [|generalize a; intro; cbv beta]
      | _ => change (evolves K Q st (b a)); cbv beta
      end
  | |- evolves _ _ _ (if ?c then _ else _) => destruct c eqn:?
  | |- evolves _ _ _ (match ?x with _ => _ end) => destruct x eqn:?
  end.

Ltac ev := repeat ev_step.

Section evolution_outcome.

Context {K : string -> bool} {Q : ValidationIssue -> Prop}.

Lemma evO_ok (st st' : state) : evolves K Q st st' -> evolvesO K Q st (Ok st').
Proof. intros H st'' [= <-]. done. Qed.

Lemma evO_throw (st : state) (e : string) : evolvesO K Q st (Throw e).
Proof. intros st' [=]. Qed.

Lemma evO_trans (st0 st : state) (m : outcome state) :
  evolves K Q st0 st -> evolvesO K Q st m -> evolvesO K Q st0 m.
Proof. intros H0 Hm st' Hst'. eapply evolves_trans; eauto. Qed.

Lemma evO_bind (st : state) (m : outcome state) (f : state -> outcome state) :
  evolvesO K Q st m -> (forall x, evolvesO K Q x (f x)) ->
  evolvesO K Q st (x ← m; f x).
Proof.
  intros Hm Hf st' Hst'. destruct m as [x|e]; simpl in Hst'; [|done].
  eapply evolves_trans; [by apply Hm|by apply Hf].
Qed.

Lemma forEachM_evolves {A : Type} (f : A -> state -> outcome state) (xs : list A)
      (st : state) :
  (forall x st, evolvesO K Q st (f x st)) -> evolvesO K Q st (forEachM f xs st).
Proof.
  intros Hf. revert st. induction xs as [|x xs IH]; intros st; simpl.
  - apply evO_ok, ev_refl.
  - apply evO_bind; auto.
Qed.

End evolution_outcome.

Lemma evolvesO_mono (K K' : string -> bool) (Q Q' : ValidationIssue -> Prop)
      (st : state) (m : outcome state) :
  (forall k, K k = true -> K' k = true) -> (forall i, Q i -> Q' i) ->
  evolvesO K Q st m -> evolvesO K' Q' st m.
Proof. intros HK HQ H st' Hst'. eapply evolves_mono; eauto. Qed.

Ltac evo_step :=
  lazymatch goal with
  | |- evolvesO _ _ _ (Ok _) => apply evO_ok
  | |- evolvesO _ _ _ (Throw _) => apply evO_throw
  | |- evolvesO _ _ _ (mbind _ ?m) =>
      lazymatch type of m with
      | outcome state => fail "a rule: use its lemma"
      | _ =>
          destruct m as [?|?];
          lazymatch goal with
          | |- evolvesO ?K ?Q ?st (mbind ?f (Ok ?x)) =>
              change (evolvesO K Q st (f x)); cbv beta
          | |- evolvesO ?K ?Q ?st (mbind _ (Throw ?e)) =>
              change (evolvesO K Q st (Throw e)); apply evO_throw
          end
      end
  | |- evolvesO ?K ?Q ?st (let x := ?a in @?b x) =>
      lazymatch type of a with
      | state => apply (evO_trans st a (b a)); [|generalize a; intro; cbv beta]
      | _ => change (evolvesO K Q st (b a)); cbv beta
      end
  | |- evolvesO _ _ _ (if ?c then _ else _) => destruct c eqn:?
  | |- evolvesO _ _ _ (match ?x with _ => _ end) => destruct x eqn:?
  | |- evolves _ _ _ _ => ev_step
  end.

Ltac evo := repeat evo_step.

Section rules.

Variable clk : clock.
Implicit Types (st : state) (record fixedRecord : value) (index : nat).

Lemma checkMandatory_evolves K index record st :
  evolves K notDuplicate st (checkMandatory index record st).
Proof.
  unfold checkMandatory. generalize (validateMandatoryFields (st_heap st) record).
  intros flds. cut (forall st0, evolves K notDuplicate st0 st ->
    evolves K notDuplicate st0
      (fold_left (fun st fld => pushIssue (mandatoryIssue index fld) st) flds st)).
  { intros H. apply H, ev_refl. }
  revert st. induction flds as [|fld flds IH]; intros st st0 Hst; simpl; [done|].
  apply IH. apply ev_push; [done|ev_push_side].
Qed.

Lemma checkCurrency_evolves index record fixedRecord st :
  evolvesO (inKeys currencyKeys) notDuplicate st (checkCurrency index record fixedRecord st).
Proof. cbv beta delta [checkCurrency]. evo. Qed.

Lemma checkTpin_evolves index record fixedRecord st :
  evolves (inKeys tpinKeys) notDuplicate st (checkTpin index record fixedRecord st).
Proof.
  unfold checkTpin.
  destruct (tpinAlias (st_heap st) record) as [tpinField|] eqn:Halias; [|apply ev_refl].
  assert (inKeys tpinKeys tpinField = true).
  { unfold tpinAlias in Halias. repeat case_match; simplify_eq; done. }
  ev.
Qed.

Lemma checkDate_evolves index record fixedRecord st dateField :
  inKeys dateKeys dateField = true ->
  evolves (inKeys dateKeys) notDuplicate st (checkDate clk index record fixedRecord st dateField).
Proof. intros Hk. unfold checkDate. ev. Qed.

Lemma checkDates_evolves index record fixedRecord st :
  evolves (inKeys dateKeys) notDuplicate st (checkDates clk index record fixedRecord st).
Proof.
  unfold checkDates. simpl.
  repeat (eapply evolves_trans; [|by apply checkDate_evolves]). apply ev_refl.
Qed.

Lemma checkVatRate_evolves index record fixedRecord st :
  evolvesO (inKeys vatRateKeys) notDuplicate st (checkVatRate index record fixedRecord st).
Proof. cbv beta delta [checkVatRate]. evo. Qed.

Lemma checkNegative_evolves K fld what index x st :
  evolves K notDuplicate st (checkNegative fld what index x st).
Proof. unfold checkNegative. ev. Qed.

Lemma recomputeTotals_evolves index record fixedRecord vf gf taxable st :
  inKeys totalsKeys vf = true -> inKeys totalsKeys gf = true ->
  evolvesO (inKeys totalsKeys) notDuplicate st
           (recomputeTotals index record fixedRecord vf gf taxable st).
Proof. intros Hv Hg. cbv beta delta [recomputeTotals effectiveVatRate]. evo. Qed.

Lemma checkTotals_evolves index record fixedRecord st :
  evolvesO (inKeys totalsKeys) notDuplicate st (checkTotals index record fixedRecord st).
Proof.
  cbv beta delta [checkTotals].
  repeat lazymatch goal with
    | |- evolvesO _ _ _ (recomputeTotals _ _ _ _ _ _ _) =>
        apply recomputeTotals_evolves;
        lazymatch goal with
        | |- inKeys _ (if ?c then _ else _) = true => destruct c; reflexivity
        end
    | |- evolves _ _ _ (checkNegative _ _ _ _ _) => apply checkNegative_evolves
    | |- _ => evo_step
    end.
Qed.

Lemma checkSchema_evolves K index record st :
  evolves K notDuplicate st (checkSchema index record st).
Proof. unfold checkSchema. ev. Qed.

Lemma asRecord_evolves K x st : evolves K notDuplicate st (snd (asRecord x st)).
Proof.
  unfold asRecord. destruct (isObject (st_heap st) x); simpl; [apply ev_refl|].
  apply (ev_alloc K notDuplicate st st); [apply ev_refl|reflexivity].
Qed.

Lemma assignStrict_evolves K o k v st :
  K k = true -> evolvesO K notDuplicate st (assignStrict o k v st).
Proof. intros Hk. unfold assignStrict. evo. Qed.

Lemma lineRules_evolves index lineIndex fixedLine l st :
  evolvesO (inKeys lineTotalKeys) notDuplicate st (lineRules index lineIndex fixedLine l st).
Proof.
  cbv beta delta [lineRules].
  repeat lazymatch goal with
    | |- evolvesO _ _ _ (mbind _ (assignStrict _ _ _ _)) =>
        apply evO_bind; [apply assignStrict_evolves; by case_match|intro]
    | |- _ => evo_step
    end.
Qed.

Lemma processLine_evolves index lineItemsField fixedRecord lineItems lineIndex st0 :
  evolvesO (inKeys lineTotalKeys) notDuplicate st0
           (processLine index lineItemsField fixedRecord lineItems lineIndex st0).
Proof.
  cbv beta delta [processLine]. evo_step.
  destruct (indexInto _ _ _) as [fixedLine|e]; [|apply evO_throw].
  rewrite bind_Ok.
  pose proof (asRecord_evolves (inKeys lineTotalKeys)
    (default VUndef (arrElems (st_heap st0) lineItems ≫= λ es, es !! lineIndex)) st0) as Has.
  destruct (asRecord _ st0) as [l st]. simpl in Has.
  apply (evO_trans st0 st); [done|]. apply lineRules_evolves.
Qed.

Lemma normalizeLineItems_evolves lineItemsField fixedRecord lineItems0 st :
  inKeys lineItemsKeys lineItemsField = true ->
  evolves (inKeys lineItemsKeys) notDuplicate st
          (snd (normalizeLineItems lineItemsField fixedRecord lineItems0 st)).
Proof.
  intros Hk. unfold normalizeLineItems.
  destruct (_ && _); simpl; [|apply ev_refl].
  destruct (isArray _ _); simpl.
  - destruct (_ && _); [|destruct st; apply ev_refl].
    apply ev_assign; [|done]. destruct st; apply ev_refl.
  - destruct (_ && _).
    + apply ev_assign; [|done]. apply (ev_alloc _ _ st st); [apply ev_refl|done].
    + apply (ev_alloc _ _ st st); [apply ev_refl|done].
Qed.

Lemma checkLineItems_evolves index record fixedRecord st :
  evolvesO (inKeys (lineItemsKeys ++ lineTotalKeys)) notDuplicate st
           (checkLineItems index record fixedRecord st).
Proof.
  unfold checkLineItems.
  destruct (_ || _); [|evo].
  set (lif := if truthy _ then _ else _).
  assert (Hlif : inKeys lineItemsKeys lif = true) by (subst lif; by case_match).
  pose proof (normalizeLineItems_evolves lif fixedRecord
                (getProp (st_heap st) record lif) st Hlif) as Hn.
  destruct (normalizeLineItems _ _ _ _) as [lineItems st1]. simpl in Hn.
  apply (evO_trans st st1).
  { eapply evolves_mono; [| |exact Hn]; [|done].
    intros k Hk. by rewrite inKeys_app, Hk. }
  destruct (arrElems _ _) as [es|]; [|evo].
  match goal with
  | |- evolvesO _ _ _ (forEachM _ _ ?s) =>
      apply (evO_trans st1 s); [evo|]
  end.
  apply forEachM_evolves. intros x st'.
  eapply evolvesO_mono; [| |apply processLine_evolves]; [|done].
  intros k Hk. by rewrite inKeys_app, Hk, orb_true_r.
Qed.

End rules.

(** * The rules do not throw on a plain store *)

Section totality.

Variable clk : clock.
Implicit Types (h : heap) (st : state) (v : value) (k : string).

Lemma reify_prim fuel h v : isRef v = false -> reify fuel h v = reify 0 h v.
Proof. by destruct fuel, v. Qed.

Lemma contentOf_undef h : contentOf h VUndef = JUndef.
Proof. unfold contentOf. by rewrite reify_prim. Qed.

Lemma contentOf_num h n : contentOf h (VNum n) = JNum n.
Proof. unfold contentOf. by rewrite reify_prim. Qed.

Lemma inKeys_ne (keys : list string) k k' :
  inKeys keys k = true -> inKeys keys k' = false -> k <> k'.
Proof. intros H1 H2 ->. congruence. Qed.

Lemma copyShape_setProp h l k v a b : copyShape h a b -> copyShape (setProp l k v h) a b.
Proof.
  intros (H1 & H2 & H3). split; [|split; [done|]].
  - intros l' Hl'. apply setProp_is_Some. auto.
  - intros es. rewrite !arrElems_setProp. apply H3.
Qed.

Lemma copyShape_app h c a b : copyShape h a b -> copyShape (h ++ [c]) a b.
Proof.
  intros (H1 & H2 & H3). split; [|split; [done|]].
  - intros l' Hl'. destruct (H1 _ Hl') as [x Hx]. exists x. by apply lookup_app_l_Some.
  - intros es (l & -> & Hl)%arrElems_Some.
    destruct (H1 l eq_refl) as [x Hx].
    rewrite (lookup_app_l_Some _ _ _ _ Hx) in Hl. injection Hl as ->.
    destruct (H3 es) as (es' & Hes' & Hrefs); [by apply arrElems_Some; eauto|].
    exists es'. split; [by apply arrElems_app|done].
Qed.

Lemma mirrored_writeStable r f : writeStable notLineItems (fun h => lineItemsMirrored h r f).
Proof.
  intros h l k v Hk (Hr & Hf & H1 & H2).
  assert (k <> "LineItems" /\ k <> "lineItems") as [Hk1 Hk2].
  { unfold notLineItems, inKeys in Hk. simpl in Hk.
    split; intros ->; simpl in Hk; done. }
  unfold lineItemsMirrored. rewrite !isObject_setProp.
  rewrite !(getProp_setProp_ne _ _ "LineItems") by done.
  rewrite !(getProp_setProp_ne _ _ "lineItems") by done.
  auto using copyShape_setProp.
Qed.

Lemma mirrored_allocStable r f : allocStable (fun h => lineItemsMirrored h r f).
Proof.
  intros h c _ (Hr & Hf & H1 & H2). unfold lineItemsMirrored.
  rewrite !getProp_app by done. auto using isObject_app, copyShape_app.
Qed.

Lemma getProp_ref_isObject h x k l : getProp h x k = VRef l -> isObject h x = true.
Proof.
  unfold getProp, isObject. destruct (objProps h x); [|done].
  intros _. apply bool_decide_eq_true. eauto.
Qed.

Lemma lineLoopInv_writeStable f li lif :
  inKeys lineItemsKeys lif = true ->
  writeStable (inKeys lineTotalKeys) (lineLoopInv f li lif).
Proof.
  intros Hlif h l k v Hk (la & es & la' & es' & -> & Hla & Hg & Hla' & Hrefs).
  assert (k <> lif).
  { apply (inKeys_ne lineTotalKeys); [done|].
    unfold inKeys in Hlif. simpl in Hlif.
    destruct (String.eqb_spec lif "LineItems") as [E1|_]; [by rewrite E1|].
    destruct (String.eqb_spec lif "lineItems") as [E2|_]; [by rewrite E2|done]. }
  exists la, es, la', es'. split; [done|].
  split; [by apply setProp_lookup_arr|].
  split; [by rewrite getProp_setProp_ne|].
  split; [by apply setProp_lookup_arr|done].
Qed.

Lemma lineLoopInv_allocStable f li lif : allocStable (lineLoopInv f li lif).
Proof.
  intros h c _ (la & es & la' & es' & -> & Hla & Hg & Hla' & Hrefs).
  exists la, es, la', es'. split; [done|].
  split; [by apply lookup_app_l_Some|].
  split; [|split; [by apply lookup_app_l_Some|done]].
  rewrite getProp_app; [done|]. by eapply getProp_ref_isObject.
Qed.

(** [isOk] follows the shape of a body as [evolves] does; a conversion
    of a value of a plain store gives a result. *)
Ltac ok_bind :=
  lazymatch goal with
  | |- isOk (mbind ?f (Ok ?x)) => change (isOk (f x)); cbv beta
  end.

Ltac ok_step :=
  lazymatch goal with
  | |- isOk (Ok _) => eexists; reflexivity
  | |- isOk (let x := ?a in @?b x) =>
      lazymatch type of a with
      | state => change (isOk (b a)); generalize a; intro; cbv beta
      | _ => change (isOk (b a)); cbv beta
      end
  | |- isOk (if ?c then _ else _) => destruct c eqn:?
  | |- isOk (match ?x with _ => _ end) => destruct x eqn:?
  | |- isOk (mbind _ (assignStrict (VRef _) _ _ _)) =>
      unfold assignStrict; ok_bind
  | |- isOk (mbind _ (parseNumberV ?h ?v)) =>
      let H := fresh in
      destruct (parseNumberV_plain h v) as [? H]; [assumption|rewrite H; ok_bind]
  | |- isOk (mbind _ (toStrV ?h ?v)) =>
      rewrite (toStrV_plain h v) by assumption; ok_bind
  end.

Lemma lineRules_ok_ref index lineIndex lf l st :
  plainHeap (st_heap st) -> isOk (lineRules index lineIndex (VRef lf) l st).
Proof. intros Hp. cbv beta delta [lineRules]. repeat ok_step. Qed.

Lemma lineRules_ok_wrapper index lineIndex fixedLine l st :
  plainHeap (st_heap st) ->
  getProp (st_heap st) l "Quantity" = VUndef ->
  getProp (st_heap st) l "quantity" = VUndef ->
  isOk (lineRules index lineIndex fixedLine l st).
Proof.
  intros Hp H1 H2.
  assert (Hq : parseNumberV (st_heap st)
                 (extractPrimitive (st_heap st)
                    (getProp (st_heap st) l
                       (if negb (isUndef (getProp (st_heap st) l "Quantity"))
                        then "Quantity" else "quantity"))) = Ok None).
  { rewrite H1. simpl. rewrite H2. unfold parseNumberV.
    change (extractPrimitive (st_heap st) VUndef) with VUndef.
    by rewrite contentOf_undef. }
  cbv beta delta [lineRules]. cbv zeta. rewrite Hq. ok_bind.
  ok_step. by eexists.
Qed.

Lemma processLine_ok index lif f li idx st0 :
  lineLoopInv f li lif (st_heap st0) -> plainHeap (st_heap st0) ->
  isOk (processLine index lif f li idx st0).
Proof.
  intros (la & es & la' & es' & -> & Hla & Hg & Hla' & Hrefs) Hp.
  cbv beta delta [processLine]. cbv zeta.
  rewrite Hg. simpl. rewrite Hla, Hla'. simpl.
  unfold asRecord.
  destruct (isObject (st_heap st0) (default VUndef (es !! idx))) eqn:Hobj.
  - (* the line is an object: the line of the fixed record is one too *)
    destruct (es !! idx) as [x|] eqn:Hx; [|done]. simpl in *.
    destruct (Hrefs idx x Hx (isObject_isRef _ _ Hobj)) as [l' ->]. simpl.
    by apply lineRules_ok_ref.
  - (* the line is wrapped as { value: line }: no quantity *)
    simpl. apply lineRules_ok_wrapper; simpl; [|by rewrite getProp_fresh..].
    by apply plainHeap_app.
Qed.

Lemma forEachM_ok {A : Type} (I : heap -> Prop) (f : A -> state -> outcome state)
      (xs : list A) (st : state) :
  (forall x st, I (st_heap st) -> exists st', f x st = Ok st' /\ I (st_heap st')) ->
  I (st_heap st) -> isOk (forEachM f xs st).
Proof.
  intros Hf. revert st. induction xs as [|x xs IH]; intros st HI; simpl.
  - by eexists.
  - destruct (Hf x st HI) as (st' & -> & HI'). rewrite bind_Ok. auto.
Qed.

Lemma lineLoop_ok index lif f li (idxs : list nat) st :
  inKeys lineItemsKeys lif = true ->
  lineLoopInv f li lif (st_heap st) -> plainHeap (st_heap st) ->
  isOk (forEachM (processLine index lif f li) idxs st).
Proof.
  intros Hlif Hinv Hp.
  apply (forEachM_ok (fun h => lineLoopInv f li lif h /\ plainHeap h)); [|done].
  intros idx st0 [HI HP]. destruct (processLine_ok index lif f li idx st0 HI HP) as [st' Hst'].
  exists st'. split; [done|].
  pose proof (processLine_evolves index lif f li idx st0 st' Hst') as Hev.
  split.
  - eapply (evolves_heap (K:=inKeys lineTotalKeys) (Q:=notDuplicate));
      [by apply lineLoopInv_writeStable|apply lineLoopInv_allocStable|exact Hev|done].
  - eapply (evolves_heap (K:=inKeys lineTotalKeys) (Q:=notDuplicate));
      [|apply plainHeap_allocStable|exact Hev|done].
    apply plainHeap_writeStable. intros k. by apply inKeys_not_toString.
Qed.

Lemma lineLoopInv_alias h lf lif la es :
  h !! la = Some (CArr es) -> isObject h (VRef lf) = true ->
  lineLoopInv (VRef lf) (VRef la) lif (setProp lf lif (VRef la) h).
Proof.
  intros Hla Hf. exists la, es, la, es. split; [done|].
  split; [by apply setProp_lookup_arr|].
  split; [by apply getProp_setProp_eq|].
  split; [by apply setProp_lookup_arr|].
  intros idx x Hx Href. destruct x; try done. eauto.
Qed.

Lemma lineLoopInv_copy h r f lif es :
  copyShape h (getProp h r lif) (getProp h f lif) ->
  arrElems h (getProp h r lif) = Some es ->
  lineLoopInv f (getProp h r lif) lif h.
Proof.
  intros (_ & _ & H3) Hes. destruct (H3 es Hes) as (es' & Hes' & Hrefs).
  apply arrElems_Some in Hes as (la & Hla & Hcell).
  apply arrElems_Some in Hes' as (la' & Hla' & Hcell').
  exists la, es, la', es'. auto.
Qed.

Lemma isArray_true h x : isArray h x = true <-> exists es, arrElems h x = Some es.
Proof. unfold isArray. by rewrite bool_decide_eq_true. Qed.

Lemma inKeys_lineItems_toString lif : inKeys lineItemsKeys lif = true -> lif <> "toString".
Proof. by apply inKeys_not_toString. Qed.

Lemma checkLineItems_ok index record fixedRecord st :
  lineItemsMirrored (st_heap st) record fixedRecord -> plainHeap (st_heap st) ->
  isOk (checkLineItems index record fixedRecord st).
Proof.
  intros (Hr & Hf & H1 & H2) Hp. unfold checkLineItems.
  destruct (_ || _); [|by eexists].
  set (lif := if truthy _ then _ else _).
  assert (Hlif : inKeys lineItemsKeys lif = true) by (subst lif; by case_match).
  assert (Hshape : copyShape (st_heap st) (getProp (st_heap st) record lif)
                             (getProp (st_heap st) fixedRecord lif))
    by (subst lif; by case_match).
  clearbody lif. clear H1 H2.
  apply isObject_true in Hf as Hf'. destruct Hf' as (lf & psf & -> & Hlf).
  unfold normalizeLineItems.
  destruct (_ && _ && _) eqn:Hw.
  - (* the LineItems.LineItem wrapper *)
    apply andb_true_iff in Hw as [Hw _]. apply andb_true_iff in Hw as [_ Hobj].
    destruct Hshape as (_ & Hshape & _).
    specialize (Hshape (isObject_isRef _ _ Hobj)).
    destruct (getProp (st_heap st) (VRef lf) lif) as [| | | | |lc] eqn:Hcopy; try done.
    set (li := getProp (st_heap st) (getProp (st_heap st) record lif) "LineItem").
    destruct (isArray (st_heap st) li) eqn:Harr.
    + apply isArray_true in Harr as [es Hes].
      rewrite Hf, Hcopy. simpl. rewrite arrElems_setProp, Hes.
      apply arrElems_Some in Hes as (la & Hla & Hcell). rewrite Hla.
      assert (Hinv : lineLoopInv (VRef lf) (VRef la) lif (setProp lf lif (VRef la) (st_heap st)))
        by (by eapply lineLoopInv_alias).
      assert (Hp' : plainHeap (setProp lf lif (VRef la) (st_heap st)))
        by (apply plainHeap_setProp; [by apply inKeys_lineItems_toString|done]).
      apply lineLoop_ok; [done|by destruct (length es =? 0)%nat..].
    + simpl. rewrite (isObject_app _ _ _ Hf), (getProp_app _ _ _ _ Hf), Hcopy. simpl.
      assert (Hnew : (st_heap st ++ [CArr [li]]) !! length (st_heap st) = Some (CArr [li]))
        by (by apply list_lookup_middle).
      rewrite (setProp_lookup_arr _ _ _ _ _ _ Hnew).
      apply lineLoop_ok; [done| |]; simpl.
      * eapply lineLoopInv_alias; [done|]. by apply isObject_app.
      * apply plainHeap_setProp; [by apply inKeys_lineItems_toString|].
        by apply plainHeap_app.
  - (* the line items as the record has them *)
    destruct (arrElems (st_heap st) (getProp (st_heap st) record lif)) as [es|] eqn:Hes;
      [|by eexists].
    assert (Hinv : lineLoopInv (VRef lf) (getProp (st_heap st) record lif) lif (st_heap st))
      by (by eapply lineLoopInv_copy).
    apply lineLoop_ok; [done|by destruct (length es =? 0)%nat..].
Qed.

(** ** The other rules *)

Lemma checkMandatory_heap index record st :
  st_heap (checkMandatory index record st) = st_heap st.
Proof.
  unfold checkMandatory. generalize (validateMandatoryFields (st_heap st) record).
  intros flds. revert st. induction flds as [|fld flds IH]; intros st; simpl; [done|].
  by rewrite IH.
Qed.

Lemma checkNegative_heap fld what index x st :
  st_heap (checkNegative fld what index x st) = st_heap st.
Proof. unfold checkNegative. by repeat case_match. Qed.

Lemma plainHeap_assign o k v st :
  k <> "toString" -> plainHeap (st_heap st) -> plainHeap (st_heap (assign o k v st)).
Proof. intros Hk Hp. destruct o; try done. by apply plainHeap_setProp. Qed.

Lemma checkInvoiceNumber_ok index record st :
  plainHeap (st_heap st) -> isOk (checkInvoiceNumber index record st).
Proof. intros Hp. cbv beta delta [checkInvoiceNumber]. repeat ok_step. Qed.

Lemma checkCurrency_ok index record fixedRecord st :
  plainHeap (st_heap st) -> isOk (checkCurrency index record fixedRecord st).
Proof. intros Hp. cbv beta delta [checkCurrency]. repeat ok_step. Qed.

Lemma checkVatRate_ok index record fixedRecord st :
  plainHeap (st_heap st) -> isOk (checkVatRate index record fixedRecord st).
Proof.
  intros Hp. cbv beta delta [checkVatRate]. cbv zeta.
  set (vatField := if negb (isUndef (getProp (st_heap st) record "VATRate")) then _ else _).
  assert (HvatField : vatField <> "toString") by (subst vatField; by case_match).
  clearbody vatField.
  ok_step. ok_step; [|repeat ok_step].
  rewrite toStrV_plain by (by apply plainHeap_assign). by eexists.
Qed.

Lemma effectiveVatRate_ok h fixedRecord :
  plainHeap h -> isOk (effectiveVatRate h fixedRecord).
Proof. intros Hp. cbv beta delta [effectiveVatRate]. repeat ok_step. Qed.

Lemma recomputeTotals_ok index record fixedRecord vf gf taxable st :
  vf <> "toString" -> plainHeap (st_heap st) ->
  isOk (recomputeTotals index record fixedRecord vf gf taxable st).
Proof.
  intros Hvf Hp. cbv beta delta [recomputeTotals]. cbv zeta.
  destruct (effectiveVatRate_ok (st_heap st) fixedRecord Hp) as [vatRate ->]. ok_bind.
  ok_step.
  match goal with
  | |- isOk (mbind _ (parseNumberV (st_heap ?s) _)) =>
      assert (Hp1 : plainHeap (st_heap s));
      [case_match; [by apply plainHeap_assign|done]|generalize dependent s; intros st1 Hp1]
  end.
  repeat ok_step.
Qed.

Lemma checkTotals_ok index record fixedRecord st :
  plainHeap (st_heap st) -> isOk (checkTotals index record fixedRecord st).
Proof.
  intros Hp. cbv beta delta [checkTotals]. cbv zeta.
  do 3 ok_step.
  match goal with
  | |- isOk (match ?taxable with _ => _ end) =>
      destruct taxable as [t|]; [|by eexists]
  end.
  destruct (num_geb t n0); [|by eexists].
  apply recomputeTotals_ok; [clear; by case_match|].
  destruct (notNullAnd _ _); unfold pushIssue; cbn [st_heap];
    by rewrite !checkNegative_heap.
Qed.

Lemma enterRecord_evolves K ro rf st record fixedRecord st1 :
  enterRecord ro rf st = (record, fixedRecord, st1) -> evolves K notDuplicate st st1.
Proof.
  unfold enterRecord.
  pose proof (asRecord_evolves K ro st) as H1.
  destruct (asRecord ro st) as [record0 st0].
  pose proof (asRecord_evolves K rf st0) as H2.
  destruct (asRecord rf st0) as [fixedRecord0 st1'].
  destruct (unwrapRecord _ _ _). intros [= <- <- <-].
  eapply evolves_trans; [exact H1|exact H2].
Qed.

Lemma checkInvoiceNumber_heap index record st st' :
  checkInvoiceNumber index record st = Ok st' -> st_heap st' = st_heap st.
Proof.
  unfold checkInvoiceNumber. destruct (negb _); [by intros [= <-]|].
  intros (text & _ & [= <-])%bind_Ok_inv. by case_match.
Qed.

Lemma inKeys_disjoint (ks ks' : list string) :
  forallb (fun k => negb (inKeys ks' k)) ks = true ->
  forall k, inKeys ks k = true -> negb (inKeys ks' k) = true.
Proof.
  intros Hall k Hk. unfold inKeys in Hk. apply existsb_exists in Hk as (k' & Hin & Heq).
  apply String.eqb_eq in Heq as <-.
  rewrite forallb_forall in Hall. by apply Hall.
Qed.

Lemma inKeys_sub (ks ks' : list string) :
  forallb (inKeys ks') ks = true -> forall k, inKeys ks k = true -> inKeys ks' k = true.
Proof.
  intros Hall k Hk. unfold inKeys in Hk. apply existsb_exists in Hk as (k' & Hin & Heq).
  apply String.eqb_eq in Heq as <-.
  rewrite forallb_forall in Hall. by apply Hall.
Qed.

(** What the callback keeps of the store up to the rule on line items. *)
Lemma step_mirrored (ks : list string) record fixedRecord st st' :
  forallb (fun k => negb (inKeys lineItemsKeys k)) ks = true ->
  inKeys ks "toString" = false ->
  evolves (inKeys ks) notDuplicate st st' ->
  lineItemsMirrored (st_heap st) record fixedRecord /\ plainHeap (st_heap st) ->
  lineItemsMirrored (st_heap st') record fixedRecord /\ plainHeap (st_heap st').
Proof.
  intros Hks Hno Hev [Hm Hp]. split.
  - eapply (evolves_heap (K:=notLineItems) (Q:=notDuplicate)
              (fun h => lineItemsMirrored h record fixedRecord));
      [apply mirrored_writeStable|apply mirrored_allocStable| |done].
    eapply evolves_mono; [| |exact Hev]; [|done]. by apply inKeys_disjoint.
  - eapply (evolves_heap (K:=inKeys ks) (Q:=notDuplicate));
      [|apply plainHeap_allocStable|exact Hev|done].
    apply plainHeap_writeStable. intros k. by apply inKeys_not_toString.
Qed.

Lemma step_plain (ks : list string) st st' :
  inKeys ks "toString" = false ->
  evolves (inKeys ks) notDuplicate st st' ->
  plainHeap (st_heap st) -> plainHeap (st_heap st').
Proof.
  intros Hno Hev Hp.
  eapply (evolves_heap (K:=inKeys ks) (Q:=notDuplicate));
    [|apply plainHeap_allocStable|exact Hev|done].
  apply plainHeap_writeStable. intros k. by apply inKeys_not_toString.
Qed.

Lemma processRecord_ok index (o : jv) h ro rf iss seen :
  repr h ro o -> repr h rf (cloneElem o) -> plainHeap h ->
  isOk (processRecord clk index ro rf (State h iss seen)).
Proof.
  intros Hro Hrf Hp. unfold processRecord.
  destruct (enterRecord ro rf (State h iss seen)) as [[record fixedRecord] st1] eqn:He.
  destruct (enter_mirrored _ _ _ _ _ _ _ _ _ Hro Hrf He) as [Hm _].
  assert (H1 : lineItemsMirrored (st_heap st1) record fixedRecord /\ plainHeap (st_heap st1)).
  { split; [done|]. apply (step_plain [] _ _ eq_refl (enterRecord_evolves _ _ _ _ _ _ _ He)).
    done. }
  clear Hm. cbv zeta.
  rewrite <- (checkMandatory_heap index record st1) in H1.
  destruct (checkInvoiceNumber_ok index record _ (proj2 H1)) as [st3 Hst3].
  rewrite Hst3, bind_Ok. rewrite <- (checkInvoiceNumber_heap _ _ _ _ Hst3) in H1.
  destruct (checkCurrency_ok index record fixedRecord st3 (proj2 H1)) as [st4 Hst4].
  rewrite Hst4, bind_Ok.
  apply (step_mirrored currencyKeys _ _ _ _ eq_refl eq_refl
           (checkCurrency_evolves _ _ _ _ _ Hst4)) in H1.
  apply (step_mirrored tpinKeys _ _ _ _ eq_refl eq_refl
           (checkTpin_evolves index record fixedRecord st4)) in H1.
  apply (step_mirrored dateKeys _ _ _ _ eq_refl eq_refl
           (checkDates_evolves clk index record fixedRecord _)) in H1.
  destruct (checkVatRate_ok index record fixedRecord _ (proj2 H1)) as [st7 Hst7].
  rewrite Hst7, bind_Ok.
  apply (step_mirrored vatRateKeys _ _ _ _ eq_refl eq_refl
           (checkVatRate_evolves _ _ _ _ _ Hst7)) in H1.
  destruct (checkLineItems_ok index record fixedRecord st7 (proj1 H1) (proj2 H1))
    as [st8 Hst8].
  rewrite Hst8, bind_Ok.
  pose proof (step_plain (lineItemsKeys ++ lineTotalKeys) _ _ eq_refl
                (checkLineItems_evolves _ _ _ _ _ Hst8) (proj2 H1)) as Hp8.
  destruct (checkTotals_ok index record fixedRecord st8 Hp8) as [st9 Hst9].
  rewrite Hst9, bind_Ok. by eexists.
Qed.

Lemma validateRecords_ok (records : list jv) :
  forallb plain records = true ->
  forall index iss seen,
    isOk (validateRecords clk index records (map cloneElem records) iss seen).
Proof.
  induction records as [|o records IH]; intros Hpl index iss seen; simpl; [by eexists|].
  simpl in Hpl. apply andb_true_iff in Hpl as [Hpl1 Hpl2].
  destruct (placeRecord o (cloneElem o)) as [[ro rf] h] eqn:Hp.
  destruct (place_repr _ _ _ _ _ Hp) as [Hro Hrf].
  destruct (processRecord_ok index o h ro rf iss seen Hro Hrf (place_plain _ _ _ _ Hp Hpl1))
    as [st ->].
  rewrite bind_Ok.
  destruct (IH Hpl2 (S index) (st_issues st) (invoiceNumbersSeen st))
    as [[[origs fixeds] iss'] ->].
  rewrite bind_Ok. by eexists.
Qed.

(** The records of the deep copy are the copies of the records. *)
Lemma asList_jsonClone (w fixedData : jv) :
  jsonClone w = Some fixedData -> asList fixedData = map cloneElem (asList w).
Proof. destruct w; simpl; intros [= <-]; done. Qed.

Lemma unwrapTop_undef (data : jv) : unwrapTop data = JUndef -> data = JUndef.
Proof.
  destruct data as [| | | | | |props]; try done.
  destruct props as [|[k [| | | | | |inner]] [|]]; done.
Qed.

Lemma jsonClone_defined (w : jv) : w <> JUndef -> exists c, jsonClone w = Some c.
Proof. destruct w; try done; eauto. Qed.

End totality.

(** The call returns for a plain payload that the deep copy accepts. *)
Lemma validateAndFix_total (clk : clock) (data : jv) (fileType : FileType) :
  data <> JUndef -> plain data = true -> isOk (validateAndFix clk data fileType).
Proof.
  intros Hdata Hpl. unfold validateAndFix.
  destruct (jsonClone_defined (unwrapTop data)) as [fixedData Hc].
  { intros Hw. by apply Hdata, unwrapTop_undef. }
  rewrite Hc, (asList_jsonClone _ _ Hc).
  destruct (validateRecords_ok clk (asList (unwrapTop data))
              (plain_asList _ (plain_unwrapTop _ Hpl)) 0 [] ∅)
    as [[[origs fixeds] iss] ->].
  rewrite bind_Ok. by eexists.
Qed.

(** * The steps of the callback on one record *)

Section record_steps.

Variable clk : clock.
Implicit Types (h : heap) (st : state) (v : value) (k : string).

(** A run of the callback that returns, taken apart: the states after
    the rule on the invoice number and after the rule on the currency, and
    what the rules after the one on the taxpayer ID do to the state. *)
Lemma processRecord_steps index ro rf st0 st :
  processRecord clk index ro rf st0 = Ok st ->
  exists record fixedRecord st1 st3 st4,
    enterRecord ro rf st0 = (record, fixedRecord, st1) /\
    checkInvoiceNumber index record (checkMandatory index record st1) = Ok st3 /\
    checkCurrency index record fixedRecord st3 = Ok st4 /\
    evolves (inKeys (dateKeys ++ vatRateKeys ++ lineItemsKeys ++ lineTotalKeys ++ totalsKeys))
            notDuplicate (checkTpin index record fixedRecord st4) st.
Proof.
  unfold processRecord.
  destruct (enterRecord ro rf st0) as [[record fixedRecord] st1]. cbv zeta.
  intros (st3 & H3 & H)%bind_Ok_inv.
  apply bind_Ok_inv in H as (st4 & H4 & H).
  apply bind_Ok_inv in H as (st7 & H7 & H).
  apply bind_Ok_inv in H as (st8 & H8 & H).
  apply bind_Ok_inv in H as (st9 & H9 & [= <-]).
  exists record, fixedRecord, st1, st3, st4. repeat split; try done.
  set (K := inKeys _).
  assert (HK : forall ks, forallb K ks = true -> forall k, inKeys ks k = true -> K k = true)
    by (intros ks; apply inKeys_sub).
  eapply evolves_trans; [eapply evolves_trans; [eapply evolves_trans;
    [eapply evolves_trans|]|]|].
  - eapply evolves_mono; [by apply (HK dateKeys)|done|apply checkDates_evolves].
  - eapply evolves_mono; [by apply (HK vatRateKeys)|done|].
    by apply (checkVatRate_evolves _ _ _ _ _ H7).
  - eapply evolves_mono; [by apply (HK (lineItemsKeys ++ lineTotalKeys))|done|].
    by apply (checkLineItems_evolves _ _ _ _ _ H8).
  - eapply evolves_mono; [by apply (HK totalsKeys)|done|].
    by apply (checkTotals_evolves _ _ _ _ _ H9).
  - apply checkSchema_evolves.
Qed.

End record_steps.

(** C3.  The call returns for every payload other than [undefined] whose
    values convert to strings, and in every result of a call [isValid] is
    true exactly when no issue of the returned list, over all the records
    of the payload, has severity [error]. *)
Theorem isValid_iff_no_error (clk : clock) (data : jv) (fileType : FileType) :
  (data <> JUndef -> plain data = true ->
   exists r : ValidationResult, validateAndFix clk data fileType = Ok r) /\
  forall r : ValidationResult,
    validateAndFix clk data fileType = Ok r ->
    (isValid r = true <-> Forall (fun i => severity i <> SevError) (issues r)).
Proof. split; [apply validateAndFix_total|apply isValid_of_result]. Qed.

Lemma isValid_iff_no_error_witness :
  exists r : ValidationResult,
    validateAndFix exampleClock exemptInvoice Json = Ok r /\
    (isValid r = true <-> Forall (fun i => severity i <> SevError) (issues r)).
Proof.
  destruct (isValid_iff_no_error exampleClock exemptInvoice Json) as [Hret Hres].
  destruct Hret as [r Hr]; [discriminate|reflexivity|].
  exists r. split; [exact Hr|exact (Hres r Hr)].
Defined.

(** * Duplicate invoice numbers *)

Local Close Scope Z_scope.

Section duplicates.

Variable clk : clock.
Implicit Types (h : heap) (st : state) (v : value) (k : string).

Lemma filter_isDup_notDuplicate (new : list ValidationIssue) :
  Forall notDuplicate new -> List.filter isDup new = [].
Proof.
  induction 1 as [|i new Hi _ IH]; simpl; [done|].
  unfold isDup at 1. by rewrite bool_decide_eq_false_2.
Qed.

Lemma enterRecord_indep ro rf h iss seen :
  enterRecord ro rf (State h iss seen) =
  let '(record, fixedRecord, st) := enterRecord ro rf (State h [] ∅) in
  (record, fixedRecord, State (st_heap st) iss seen).
Proof.
  unfold enterRecord, asRecord. simpl.
  destruct (isObject h ro); simpl; (destruct (isObject _ rf); simpl);
    by destruct (unwrapRecord _ _ _).
Qed.

(** The rule on the invoice number files the record under its key. *)
Lemma checkInvoiceNumber_log index record st st' :
  checkInvoiceNumber index record st = Ok st' ->
  let key :=
    let invField := invoiceNumberField (st_heap st) record in
    if truthy invField then Some (trim (toStr (contentOf (st_heap st) invField))) else None in
  invoiceNumbersSeen st' = seenAfter key index (invoiceNumbersSeen st) /\
  exists new,
    st_issues st' = st_issues st ++ new /\
    List.filter isDup new = dupOf key index (invoiceNumbersSeen st).
Proof.
  unfold checkInvoiceNumber. cbv zeta.
  destruct (truthy (invoiceNumberField (st_heap st) record)); simpl.
  - intros (text & Htext & [= <-])%bind_Ok_inv.
    apply toStrV_Ok in Htext as ->.
    destruct (invoiceNumbersSeen st !! _) as [f|] eqn:Hseen; simpl.
    + split; [done|]. eexists. split; [done|]. done.
    + split; [done|]. exists []. by rewrite app_nil_r.
  - intros [= <-]. split; [done|]. eexists. split; [done|]. done.
Qed.

Lemma processRecord_log index (o : jv) ro rf h iss seen st :
  placeRecord o (cloneElem o) = (ro, rf, h) ->
  processRecord clk index ro rf (State h iss seen) = Ok st ->
  invoiceNumbersSeen st = seenAfter (invoiceKey o) index seen /\
  exists new,
    st_issues st = iss ++ new /\
    List.filter isDup new = dupOf (invoiceKey o) index seen.
Proof.
  intros Hp Hrun. unfold invoiceKey, recordStart. rewrite Hp.
  destruct (processRecord_steps clk _ _ _ _ _ Hrun)
    as (record & fixedRecord & st1 & st3 & st4 & He & H3 & H4 & Ht).
  rewrite enterRecord_indep in He.
  destruct (enterRecord ro rf (State h [] ∅)) as [[record' fixedRecord'] st0].
  injection He as -> -> <-.
  set (st1 := State (st_heap st0) iss seen) in *.
  pose proof (checkMandatory_evolves anyKey index record st1) as Hm.
  destruct (evolves_issues _ _ Hm) as (new2 & Hnew2 & Hnd2).
  pose proof (evolves_seen _ _ Hm) as Hseen2.
  pose proof (checkMandatory_heap index record st1) as Hheap2.
  set (st2 := checkMandatory index record st1) in *.
  destruct (checkInvoiceNumber_log index record st2 st3 H3) as (Hseen3 & newI & HnewI & HdupI).
  rewrite Hheap2 in Hseen3, HdupI. simpl in Hseen3, HdupI.
  pose proof (checkCurrency_evolves _ _ _ _ _ H4) as Hc.
  destruct (evolves_issues _ _ Hc) as (new4 & Hnew4 & Hnd4).
  pose proof (checkTpin_evolves index record fixedRecord st4) as Hq.
  destruct (evolves_issues _ _ Hq) as (new5 & Hnew5 & Hnd5).
  destruct (evolves_issues _ _ Ht) as (new6 & Hnew6 & Hnd6).
  rewrite Hseen2 in Hseen3, HdupI. simpl in Hseen3, HdupI.
  split.
  - by rewrite (evolves_seen _ _ Ht), (evolves_seen _ _ Hq), (evolves_seen _ _ Hc), Hseen3.
  - exists (new2 ++ newI ++ new4 ++ new5 ++ new6). split.
    + rewrite Hnew6, Hnew5, Hnew4, HnewI, Hnew2. simpl. by rewrite <- !app_assoc.
    + rewrite !List.filter_app, HdupI.
      rewrite (filter_isDup_notDuplicate _ Hnd2), (filter_isDup_notDuplicate _ Hnd4),
        (filter_isDup_notDuplicate _ Hnd5), (filter_isDup_notDuplicate _ Hnd6).
      by rewrite !app_nil_r.
Qed.

Lemma validateRecords_log (records : list jv) :
  forall index iss seen origs fixeds iss',
    validateRecords clk index records (map cloneElem records) iss seen =
      Ok (origs, fixeds, iss') ->
    exists new,
      iss' = iss ++ new /\
      List.filter isDup new = dupsOf index (map invoiceKey records) seen.
Proof.
  induction records as [|o records IH]; intros index iss seen origs fixeds iss'; simpl.
  - intros [= <- <- <-]. exists []. by rewrite app_nil_r.
  - destruct (placeRecord o (cloneElem o)) as [[ro rf] h] eqn:Hp.
    intros (st & Hst & Hrest)%bind_Ok_inv.
    apply bind_Ok_inv in Hrest as ([[origs' fixeds'] iss''] & Hrest & [= <- <- <-]).
    destruct (processRecord_log _ _ _ _ _ _ _ _ Hp Hst) as (Hseen & new1 & Hnew1 & Hdup1).
    destruct (IH _ _ _ _ _ _ Hrest) as (new2 & -> & Hdup2).
    exists (new1 ++ new2). split; [by rewrite Hnew1, app_assoc|].
    rewrite List.filter_app, Hdup1, Hdup2, Hseen.
    unfold dupOf, seenAfter. destruct (invoiceKey o) as [s|]; [|done].
    by destruct (seen !! s).
Qed.


End duplicates.

Section dedup_table.

Implicit Types (keys : list (option string)) (seen : gmap string nat) (s : string).

Lemma string_app_inj_r (s1 s2 t : string) : s1 +:+ t = s2 +:+ t -> s1 = s2.
Proof.
  revert s2. induction s1 as [|c s1 IH]; intros [|c2 s2]; simpl; try done.
  - intros H. apply (f_equal String.length) in H. simpl in H.
    rewrite !length_appS in H. simpl in H. lia.
  - intros H. apply (f_equal String.length) in H. simpl in H.
    rewrite !length_appS in H. simpl in H. lia.
  - intros [= -> H]. f_equal. by apply IH.
Qed.

Lemma recordLabel_inj (i j : nat) : recordLabel i = recordLabel j -> i = j.
Proof.
  unfold recordLabel. intros H.
  apply (inj (String.app " (Record ")) in H.
  apply string_app_inj_r in H. apply (inj pretty) in H. lia.
Qed.




End dedup_table.

(** The text a record is filed under is trimmed of all white space of the
    source, the no-break space included: the batch whose second record has
    the number of the first with a no-break space after it has two
    duplicates. *)
Example duplicates_with_no_break_space :
  trim (nbsp +:+ "A-1" +:+ nbsp) = "A-1" /\
  exists r : ValidationResult,
    validateAndFix exampleClock batchWithNoBreakSpace Json = Ok r /\
    map field (List.filter isDup (issues r)) =
      ["InvoiceNumber (Record 2)"; "InvoiceNumber (Record 3)"].
Proof. split; [vm_compute; reflexivity|]. eexists. split; vm_compute; reflexivity. Qed.




(** * A taxpayer ID given as a number *)

Section numeric_tpin.

Variable clk : clock.
Implicit Types (h : heap) (st : state) (v : value) (k : string).

Lemma repr_isUndef h v t : repr h v t -> isUndef v = isJUndef t.
Proof. by inversion 1. Qed.

Lemma tpinAlias_repr h r (kts : list (string * jv)) :
  repr h r (JObj kts) -> tpinAlias h r = tpinAliasOf kts.
Proof.
  intros Hr. inversion Hr as [| | | | | |l kvs kts0 Hl Hkvs]; subst.
  unfold tpinAlias, tpinAliasOf, getProp. simpl. rewrite Hl.
  by rewrite !(repr_isUndef _ _ _ (lookup_repr h _ _ _ Hkvs)).
Qed.

Lemma getProp_repr h r (kts : list (string * jv)) k :
  repr h r (JObj kts) -> repr h (getProp h r k) (jlookup k kts).
Proof.
  intros Hr. inversion Hr as [| | | | | |l kvs kts0 Hl Hkvs]; subst.
  unfold getProp. simpl. rewrite Hl. by apply lookup_repr.
Qed.

Lemma tpinAliasOf_keys (kts : list (string * jv)) k :
  tpinAliasOf kts = Some k -> inKeys tpinKeys k = true.
Proof. unfold tpinAliasOf. repeat case_match; intros [= <-]; done. Qed.

(** A record whose taxpayer ID is a number is not a single-key wrapper:
    the callback works on the record itself and on its copy. *)
Lemma enterRecord_plain h ro rf (kts : list (string * jv)) k n iss seen :
  repr h ro (JObj kts) -> repr h rf (cloneElem (JObj kts)) ->
  jlookup k kts = JNum n ->
  enterRecord ro rf (State h iss seen) = (ro, rf, State h iss seen).
Proof.
  intros Hro Hrf Hk. unfold enterRecord, asRecord. cbn [st_heap].
  rewrite (repr_isObject _ _ _ Hro). cbn [st_heap isJObj].
  rewrite (repr_isObject _ _ _ Hrf), cloneElem_isJObj. cbn [st_heap isJObj].
  unfold unwrapRecord.
  destruct (keysOf h ro) as [|inner [|]] eqn:Hkeys; try done.
  destruct (isObject h (getProp h ro inner)) eqn:Hinner; [|done].
  exfalso.
  inversion Hro as [| | | | | |l kvs kts0 Hl Hkvs]; subst.
  unfold keysOf in Hkeys. simpl in Hkeys. rewrite Hl in Hkeys.
  destruct kvs as [|[k0 v0] [|]]; try done. injection Hkeys as ->.
  inversion Hkvs as [|? [k1 t1] ? ? [Hk1 Hv0] Hnil]; subst. inversion Hnil; subst.
  simpl in Hk1. subst k1. simpl in Hv0.
  unfold getProp in Hinner. simpl in Hinner. rewrite Hl in Hinner.
  unfold lookupProp in Hinner. simpl in Hinner. rewrite String.eqb_refl in Hinner.
  simpl in Hinner. rewrite (repr_isObject _ _ _ Hv0) in Hinner.
  unfold jlookup, jprop in Hk. simpl in Hk.
  destruct (String.eqb k inner); simpl in Hk; [|done].
  subst t1. done.
Qed.


Lemma tpinPending_writeStable r f k n : writeStable notTpin (tpinPending r f k n).
Proof.
  intros h l k' v Hk' (Ha & Hv & Hf).
  assert (Hne : forall k0, inKeys tpinKeys k0 = true -> k' <> k0).
  { intros k0 Hk0 ->. unfold notTpin in Hk'. by rewrite Hk0 in Hk'. }
  unfold tpinPending, tpinAlias in *.
  rewrite !(getProp_setProp_ne _ _ "TPIN"), !(getProp_setProp_ne _ _ "tpin"),
    !(getProp_setProp_ne _ _ "TaxpayerTIN") by (by apply Hne).
  rewrite isObject_setProp. split; [done|]. split; [|done].
  rewrite getProp_setProp_ne; [done|]. apply Hne.
  repeat case_match; simplify_eq; done.
Qed.

Lemma getProp_defined_isObject h x k : getProp h x k <> VUndef -> isObject h x = true.
Proof.
  unfold getProp, isObject. destruct (objProps h x); [|done].
  intros _. apply bool_decide_eq_true. eauto.
Qed.

Lemma tpinPending_allocStable r f k n : allocStable (tpinPending r f k n).
Proof.
  intros h c _ (Ha & Hv & Hf).
  assert (Hr : isObject h r = true) by (apply (getProp_defined_isObject h r k); by rewrite Hv).
  unfold tpinPending, tpinAlias in *. rewrite !getProp_app by done.
  auto using isObject_app.
Qed.


Lemma tpinWritten_writeStable f k s :
  inKeys tpinKeys k = true -> writeStable notTpin (tpinWritten f k s).
Proof.
  intros Hk h l k' v Hk' Hw. unfold tpinWritten in *.
  rewrite getProp_setProp_ne; [done|]. intros ->. unfold notTpin in Hk'. by rewrite Hk in Hk'.
Qed.

Lemma tpinWritten_allocStable f k s : allocStable (tpinWritten f k s).
Proof.
  intros h c _ Hw. unfold tpinWritten in *. rewrite getProp_app; [done|].
  apply (getProp_defined_isObject h f k). by rewrite Hw.
Qed.

(** The rule on the taxpayer ID for a numeric value: the normalized string
    never equals the number, so that the fix is made and reported. *)
Lemma checkTpin_numeric index record lf k n st :
  tpinPending record (VRef lf) k n (st_heap st) ->
  let '(s, conf) := normalizeTpin (JNum n) in
  checkTpin index record (VRef lf) st =
    pushIssue (tpinIssue index k (JNum n) s conf) (assign (VRef lf) k (VStr s) st) /\
  tpinWritten (VRef lf) k s (st_heap (checkTpin index record (VRef lf) st)).
Proof.
  intros (Ha & Hv & Hf). unfold checkTpin. rewrite Ha, Hv.
  change (extractPrimitive (st_heap st) (VNum n)) with (VNum n).
  rewrite contentOf_num. destruct (normalizeTpin (JNum n)) as [s conf]. simpl.
  split; [done|]. by apply getProp_setProp_eq.
Qed.


(** The callback on a record with a numeric taxpayer ID. *)
Lemma processRecord_tpin index ro rf h (kts : list (string * jv)) k n iss seen st :
  repr h ro (JObj kts) -> repr h rf (cloneElem (JObj kts)) ->
  tpinAliasOf kts = Some k -> jlookup k kts = JNum n ->
  processRecord clk index ro rf (State h iss seen) = Ok st ->
  In (tpinIssue index k (JNum n) (fst (normalizeTpin (JNum n))) (snd (normalizeTpin (JNum n))))
     (st_issues st) /\
  tpinWritten rf k (fst (normalizeTpin (JNum n))) (st_heap st).
Proof.
  intros Hro Hrf Ha Hk Hrun.
  destruct (processRecord_steps clk _ _ _ _ _ Hrun)
    as (record & fixedRecord & st1 & st3 & st4 & He & H3 & H4 & Ht).
  rewrite (enterRecord_plain _ _ _ _ _ _ _ _ Hro Hrf Hk) in He.
  injection He as <- <- <-.
  assert (H3' : tpinPending ro rf k n (st_heap st3)).
  { rewrite (checkInvoiceNumber_heap _ _ _ _ H3), checkMandatory_heap. simpl.
    split; [by rewrite (tpinAlias_repr _ _ _ Hro)|]. split.
    - pose proof (getProp_repr _ _ _ k Hro) as Hv. rewrite Hk in Hv. by inversion Hv.
    - by rewrite (repr_isObject _ _ _ Hrf), cloneElem_isJObj. }
  assert (H4' : tpinPending ro rf k n (st_heap st4)).
  { eapply (evolves_heap (K:=notTpin) (Q:=notDuplicate));
      [apply tpinPending_writeStable|apply tpinPending_allocStable| |exact H3'].
    eapply evolves_mono; [|done|exact (checkCurrency_evolves _ _ _ _ _ H4)].
    intros k' Hk'. by apply (inKeys_disjoint currencyKeys tpinKeys). }
  assert (Hlf : exists lf, rf = VRef lf).
  { destruct H4' as (_ & _ & (lf & ps & -> & _)%isObject_true). eauto. }
  destruct Hlf as [lf ->].
  pose proof (checkTpin_numeric index ro lf k n st4 H4') as H5.
  destruct (normalizeTpin (JNum n)) as [s conf]. destruct H5 as [E5 H5]. simpl.
  set (st5 := checkTpin index ro (VRef lf) st4) in *.
  split.
  - destruct (evolves_issues _ _ Ht) as (new & Hnew & _). rewrite Hnew.
    apply in_or_app. left. rewrite E5. unfold pushIssue. cbn [st_issues].
    apply in_or_app. right. apply in_eq.
  - eapply (evolves_heap (K:=notTpin) (Q:=notDuplicate));
      [apply tpinWritten_writeStable|apply tpinWritten_allocStable| |exact H5].
    + by apply (tpinAliasOf_keys kts).
    + eapply evolves_mono; [|done|exact Ht].
      intros k' Hk'. by apply (inKeys_disjoint _ tpinKeys) in Hk'.
Qed.

(** The fixed record of position [i] and the issues of its callback in
    the result of the loop over the records. *)
Lemma validateRecords_at (records : list jv) :
  forall index iss seen origs fixeds iss' i o,
    validateRecords clk index records (map cloneElem records) iss seen =
      Ok (origs, fixeds, iss') ->
    records !! i = Some o ->
    exists ro rf h issi seeni st,
      placeRecord o (cloneElem o) = (ro, rf, h) /\
      processRecord clk (index + i) ro rf (State h issi seeni) = Ok st /\
      fixeds !! i = Some (contentOf (st_heap st) rf) /\
      exists later, iss' = st_issues st ++ later.
Proof.
  induction records as [|o0 records IH]; intros index iss seen origs fixeds iss' i o; [done|].
  simpl. destruct (placeRecord o0 (cloneElem o0)) as [[ro rf] h] eqn:Hp.
  intros (st & Hst & Hrest)%bind_Ok_inv.
  apply bind_Ok_inv in Hrest as ([[origs' fixeds'] iss''] & Hrest & [= <- <- <-]).
  destruct i as [|i]; simpl.
  - intros [= <-]. exists ro, rf, h, iss, seen, st. rewrite Nat.add_0_r.
    repeat split; [done..|].
    destruct (validateRecords_log clk _ _ _ _ _ _ _ Hrest) as (new & -> & _). eauto.
  - intros Ho. destruct (IH _ _ _ _ _ _ _ _ Hrest Ho)
      as (ro' & rf' & h' & issi & seeni & st' & Hp' & Hst' & Hf & Hl).
    exists ro', rf', h', issi, seeni, st'. rewrite Nat.add_succ_r. done.
Qed.

(** The document of an object of the store, one level deep. *)
Lemma jprop_reify fuel h k (ps : list (string * value)) :
  jprop k (JObj (map (fun kv : string * value => (fst kv, reify fuel h (snd kv))) ps)) =
  reify fuel h (lookupProp k ps).
Proof.
  unfold lookupProp, jprop. induction ps as [|[k0 v0] ps IHps]; simpl; [by destruct fuel|].
  by destruct (String.eqb k k0).
Qed.

Lemma contentOf_prop h rf k s :
  tpinWritten rf k s h -> isJObj (contentOf h rf) = true /\ jprop k (contentOf h rf) = JStr s.
Proof.
  unfold tpinWritten. intros Hw.
  assert (Hobj : isObject h rf = true) by (apply (getProp_defined_isObject h rf k); by rewrite Hw).
  apply isObject_true in Hobj as (l & ps & -> & Hl).
  unfold getProp, objProps in Hw. rewrite Hl in Hw.
  unfold contentOf. destruct (length h) as [|m] eqn:Hlen.
  { destruct h; [by rewrite lookup_nil in Hl|discriminate Hlen]. }
  cbn [reify]. rewrite Hl. split; [done|].
  rewrite jprop_reify, Hw. by rewrite reify_prim.
Qed.

Lemma payloadRecords_single (data : jv) :
  isJArr data <> true -> payloadRecords data = [unwrapTop data].
Proof.
  destruct data as [| | | | | |ps]; try done.
  intros _. by destruct ps as [|[k0 []] [|]].
Qed.

End numeric_tpin.

(** Claim C10.  A record of the payload whose taxpayer-ID alias (the first
    of [TPIN], [tpin] and [TaxpayerTIN] that is not undefined) holds a
    number.  Then the call returns when every value of the payload converts
    to a string; and in every result of the call the issue list holds an
    auto-fixed issue of category tpin on that alias and record, and the
    fixed record holds under the alias a string of ten digits, the
    normalized form of the number.  This is so whatever the number is, also
    when its digits are a valid taxpayer ID already: the normalized string
    is never strictly equal to a number. *)
Theorem numeric_tpin_always_fixed (clk : clock) (data : jv) (fileType : FileType)
        (i : nat) (props : list (string * jv)) (tpinField : string) (n : num) :
  payloadRecords data !! i = Some (JObj props) ->
  tpinAliasOf props = Some tpinField ->
  jprop tpinField (JObj props) = JNum n ->
  (plain data = true -> exists r : ValidationResult, validateAndFix clk data fileType = Ok r) /\
  forall r : ValidationResult,
    validateAndFix clk data fileType = Ok r ->
    exists (fixedRecord : jv) (normalized : string) (conf : Confidence),
      normalizeTpin (JNum n) = (normalized, conf) /\
      String.length normalized = 10 /\ forallS isDigit normalized = true /\
      asList (fixedData r) !! i = Some fixedRecord /\
      jprop tpinField fixedRecord = JStr normalized /\
      In (Issue (if bool_decide (conf = Low) then SevError else SevWarning)
                (tpinField +:+ recordLabel i)
                ("TPIN normalized to ZRA 10-digit format (" +:+ normalized +:+ ")")
                (JNum n) (JStr normalized) true conf CatTpin)
         (issues r).
Proof.
  intros Hi Ha Hk. split.
  { intros Hplain. apply validateAndFix_total; [|done]. intros ->. by destruct i. }
  intros r Hr.
  pose proof Hr as Hrun. unfold validateAndFix in Hrun.
  destruct (jsonClone (unwrapTop data)) as [fixedData0|] eqn:Hc; [|done].
  rewrite (asList_jsonClone _ _ Hc) in Hrun.
  apply bind_Ok_inv in Hrun as ([[origs fixeds] iss] & Hrecs & [= <-]).
  destruct (validateRecords_at clk _ _ _ _ _ _ _ _ _ Hrecs Hi)
    as (ro & rf & h & issi & seeni & st & Hp & Hst & Hf & later & ->).
  destruct (place_repr _ _ _ _ _ Hp) as [Hro Hrf].
  destruct (processRecord_tpin clk _ _ _ _ _ _ _ _ _ _ Hro Hrf Ha Hk Hst) as [Hin Hw].
  destruct (contentOf_prop _ _ _ _ Hw) as [Hobj Hprop].
  destruct (normalizeTpin_ten_digits (JNum n)) as [Hlen Hdig].
  destruct (normalizeTpin (JNum n)) as [s conf] eqn:Hn. simpl in *.
  exists (contentOf (st_heap st) rf), s, conf.
  repeat split; try done.
  - destruct (decide (isJArr data = true)) as [Harr|Harr].
    + by destruct data.
    + rewrite payloadRecords_single in Hi by done.
      destruct i; [|done]. simpl in Hf.
      assert (Hhead : head fixeds = Some (contentOf (st_heap st) rf)) by (by destruct fixeds).
      replace (match data with JArr _ => JArr fixeds | _ => default JUndef (head fixeds) end)
        with (contentOf (st_heap st) rf) by (rewrite Hhead; by destruct data).
      by destruct (contentOf (st_heap st) rf).
  - apply in_or_app. by left.
Qed.

Lemma numeric_tpin_always_fixed_witness :
  exists (r : ValidationResult) (fixedRecord : jv) (normalized : string) (conf : Confidence),
    validateAndFix exampleClock numericTpinInvoice Json = Ok r /\
    normalizeTpin (jnum 1234567890) = (normalized, conf) /\
    String.length normalized = 10 /\ forallS isDigit normalized = true /\
    asList (fixedData r) !! 0 = Some fixedRecord /\
    jprop "TPIN" fixedRecord = JStr normalized /\
    In (Issue (if bool_decide (conf = Low) then SevError else SevWarning)
              ("TPIN" +:+ recordLabel 0)
              ("TPIN normalized to ZRA 10-digit format (" +:+ normalized +:+ ")")
              (jnum 1234567890) (JStr normalized) true conf CatTpin)
       (issues r).
Proof.
  destruct (numeric_tpin_always_fixed exampleClock numericTpinInvoice Json 0
              [("TPIN", jnum 1234567890); ("InvoiceNumber", JStr "INV-7")]
              "TPIN" (num_of_Z 1234567890)) as [Hret Hres]; [reflexivity..|].
  destruct (Hret eq_refl) as [r Hr].
  destruct (Hres r Hr) as (fixedRecord & normalized & conf & H).
  exists r, fixedRecord, normalized, conf. split; [exact Hr|exact H].
Defined.

(** The number 1234567890 is a valid taxpayer ID digit for digit, and is
    reported and replaced by the string all the same. *)
Example numeric_tpin_valid_digits :
  normalizeTpin (jnum 1234567890) = ("1234567890", High) /\
  match validateAndFix exampleClock numericTpinInvoice Json with
  | Ok r =>
      jprop "TPIN" (fixedData r) = JStr "1234567890" /\
      jprop "TPIN" (originalData r) = jnum 1234567890 /\
      List.filter (fun i => bool_decide (category i = CatTpin)) (issues r) =
        [Issue SevWarning "TPIN (Record 1)"
               "TPIN normalized to ZRA 10-digit format (1234567890)"
               (jnum 1234567890) (JStr "1234567890") true High CatTpin]
  | Throw _ => False
  end.
Proof. split; [reflexivity|]. vm_compute. repeat split; reflexivity. Qed.

(** * The normalizer and the rule on the taxpayer ID *)

Section tpin_rules.

Import ZraRules.

Lemma normalizeTpin_of_ten_digits (s : string) :
  String.length s = 10 -> forallS isDigit s = true ->
  normalizeTpin (JStr s) = (s, High).
Proof.
  intros Hlen Hdig. rewrite normalizeTpin_unfold. cbv zeta.
  unfold tpinDigits, textOfValue.
  rewrite (filterS_id _ _ Hdig), Hlen. reflexivity.
Qed.

End tpin_rules.

(** Whatever the input is, [normalizeTpin] answers with a string of
    exactly ten characters, all of them digits. *)
Theorem normalizeTpin_always_ten_digits (value : jv) :
  String.length (fst (normalizeTpin value)) = 10 /\
  forallS isDigit (fst (normalizeTpin value)) = true.
Proof. apply normalizeTpin_ten_digits. Qed.

(** Normalizing a normalized taxpayer ID changes nothing, and the second
    pass is of high confidence whatever the confidence of the first. *)
Theorem normalizeTpin_idempotent (value : jv) :
  normalizeTpin (JStr (fst (normalizeTpin value))) = (fst (normalizeTpin value), High).
Proof.
  destruct (normalizeTpin_ten_digits value) as [Hlen Hdig].
  by apply normalizeTpin_of_ten_digits.
Qed.

(** The standalone rule [validateTPIN] accepts every taxpayer ID that
    [normalizeTpin] produces. *)
Theorem validateTPIN_accepts_normalized (value : jv) :
  ZraRules.valid (ZraRules.validateTPIN (fst (normalizeTpin value))) = true /\
  ZraRules.message (ZraRules.validateTPIN (fst (normalizeTpin value))) = None.
Proof.
  destruct (normalizeTpin_ten_digits value) as [Hlen Hdig].
  unfold ZraRules.validateTPIN.
  destruct (fst (normalizeTpin value)) as [|c r] eqn:E; [done|].
  rewrite bool_decide_eq_false_2 by done. cbv zeta.
  unfold stripNonDigits. rewrite (filterS_id _ _ Hdig), Hlen. done.
Qed.

(** On a string the two agree: [validateTPIN] accepts it exactly when
    [normalizeTpin] is of high confidence, that is when the string holds
    exactly ten digits among its characters. *)
Theorem validateTPIN_iff_high_confidence (tpin : string) :
  ZraRules.valid (ZraRules.validateTPIN tpin) = true <->
  snd (normalizeTpin (JStr tpin)) = High.
Proof.
  rewrite normalizeTpin_unfold. cbv zeta.
  unfold ZraRules.validateTPIN, tpinDigits, textOfValue, stripNonDigits,
    ZraRules.TPIN_LENGTH.
  destruct tpin as [|c r]; [by split|].
  rewrite bool_decide_eq_false_2 by done. cbv zeta.
  destruct (String.length (filterS isDigit (String c r)) =? 10)%nat eqn:E10; simpl;
    [done|].
  split; [done|]. repeat case_match; done.
Qed.

(** * The standalone rule on amounts *)

Section amounts.



End amounts.



(** * The statistics of a result *)

Section stats.

Import Stats.

Lemma severity_partition (iss : list ValidationIssue) :
  length iss =
  length (List.filter (isSeverity SevError) iss) +
  length (List.filter (isSeverity SevWarning) iss) +
  length (List.filter (isSeverity SevInfo) iss).
Proof.
  induction iss as [|i iss IH]; [done|].
  cbn [List.filter]. unfold isSeverity in *.
  destruct (severity i); repeat case_bool_decide; try done; simpl; lia.
Qed.

(** The key under which an issue of the category [c] is counted. *)
Lemma categoryKey_inj (i j : ValidationIssue) :
  categoryKey i = categoryKey j -> category i = category j.
Proof.
  unfold categoryKey. destruct (category i), (category j); simpl; intros [=]; done.
Qed.

Lemma fold_countIssue_lookup (i0 : ValidationIssue) (iss : list ValidationIssue) :
  forall m : gmap string nat,
    default 0 (fold_left countIssue iss m !! categoryKey i0) =
    countOf (category i0) iss + default 0 (m !! categoryKey i0).
Proof.
  induction iss as [|i iss IH]; intros m; [done|].
  cbn [fold_left]. rewrite IH. unfold countOf. cbn [List.filter]. unfold countIssue.
  case_bool_decide as Hc.
  - replace (categoryKey i) with (categoryKey i0) by (unfold categoryKey; by rewrite Hc).
    rewrite lookup_insert_eq. simpl. lia.
  - rewrite lookup_insert_ne; [done|]. intros Heq. by apply categoryKey_inj in Heq.
Qed.

Lemma fold_countIssue_positive (iss : list ValidationIssue) :
  forall (m : gmap string nat) k n,
    (forall k n, m !! k = Some n ->
                 0 < n /\ (k = "other" \/ exists c, categoryName c = Some k)) ->
    fold_left countIssue iss m !! k = Some n ->
    0 < n /\ (k = "other" \/ exists c, categoryName c = Some k).
Proof.
  induction iss as [|i iss IH]; intros m k n Hm; [by apply Hm|].
  cbn [fold_left]. apply IH. intros k' n'. unfold countIssue.
  destruct (decide (k' = categoryKey i)) as [->|Hne].
  - rewrite lookup_insert_eq. intros [= <-]. split; [lia|].
    unfold categoryKey. destruct (categoryName (category i)) eqn:E; simpl; eauto.
  - rewrite lookup_insert_ne by done. apply Hm.
Qed.

Lemma map_sum_insert (m : gmap string nat) (k : string) :
  map_fold (fun _ n acc => n + acc) 0 (<[k := S (default 0 (m !! k))]> m) =
  S (map_fold (fun _ n acc => n + acc) 0 m).
Proof.
  destruct (m !! k) as [n|] eqn:Hk; simpl.
  - rewrite (map_fold_delete_L _ 0 k n m); [|intros; lia|done].
    rewrite <- insert_delete_eq.
    rewrite map_fold_insert_L; [done|intros; lia|apply lookup_delete_eq].
  - rewrite map_fold_insert_L; [done|intros; lia|done].
Qed.

Lemma fold_countIssue_sum (iss : list ValidationIssue) :
  forall m : gmap string nat,
    map_fold (fun _ n acc => n + acc) 0 (fold_left countIssue iss m) =
    length iss + map_fold (fun _ n acc => n + acc) 0 m.
Proof.
  induction iss as [|i iss IH]; intros m; [done|].
  cbn [fold_left]. rewrite IH. unfold countIssue. rewrite map_sum_insert. simpl. lia.
Qed.

End stats.

(** Every issue is counted under exactly one severity: the total is the
    sum of the errors, the warnings and the informational messages; and
    the issues that need a manual review are among the errors. *)
Theorem getValidationStats_severities (result : ValidationResult) :
  let stats := Stats.getValidationStats result in
  Stats.totalIssues stats =
    Stats.criticalErrors stats + Stats.warnings stats + Stats.infoMessages stats /\
  Stats.manualReviewNeeded stats <= Stats.criticalErrors stats /\
  Stats.autoFixed stats <= Stats.totalIssues stats.
Proof.
  cbv zeta. unfold Stats.getValidationStats. simpl. split; [apply severity_partition|].
  split.
  - induction (issues result) as [|i iss IH]; [done|].
    cbn [List.filter]. unfold Stats.needsManualReview at 1, Stats.isSeverity at 1.
    destruct (bool_decide (severity i = SevError)); simpl; [|done].
    destruct (negb (autoFixed i)); simpl; lia.
  - induction (issues result) as [|i iss IH]; [done|].
    cbn [List.filter]. destruct (Stats.isAutoFixed i); simpl; lia.
Qed.

(** [byCategory] holds, under the name of a category, the number of
    issues of that category, under ['other'] the number of issues without
    a category, and no entry where there is no issue to count; its keys are
    names of categories or ['other'], and its numbers add up to the
    total. *)
Theorem getValidationStats_byCategory (result : ValidationResult) :
  let stats := Stats.getValidationStats result in
  (forall c : Category,
     Stats.byCategory stats !! default "other" (Stats.categoryName c) =
       let n := length (List.filter (fun i => bool_decide (category i = c))
                                    (issues result)) in
       if (n =? 0)%nat then None else Some n) /\
  (forall k n, Stats.byCategory stats !! k = Some n ->
               k = "other" \/ exists c, Stats.categoryName c = Some k) /\
  map_fold (fun _ n acc => n + acc) 0 (Stats.byCategory stats) = Stats.totalIssues stats.
Proof.
  cbv zeta. unfold Stats.getValidationStats. simpl. split; [|split].
  - intros c.
    pose proof (fold_countIssue_lookup
                  (Issue SevInfo "" "" JUndef JUndef false High c) (issues result) ∅) as Hl.
    unfold Stats.categoryKey in Hl. cbn [category] in Hl.
    rewrite lookup_empty in Hl. simpl in Hl. rewrite Nat.add_0_r in Hl.
    unfold countOf in Hl.
    destruct (fold_left Stats.countIssue (issues result) ∅ !!
                default "other" (Stats.categoryName c)) as [n|] eqn:Hn; simpl in Hl.
    + destruct (fold_countIssue_positive _ _ _ _ (fun k n H => ltac:(by rewrite lookup_empty in H)) Hn)
        as [Hpos _].
      rewrite <- Hl. destruct n; [lia|done].
    + by rewrite <- Hl.
  - intros k n Hn.
    by destruct (fold_countIssue_positive _ _ _ _
                   (fun k n H => ltac:(by rewrite lookup_empty in H)) Hn).
  - rewrite fold_countIssue_sum, map_fold_empty. lia.
Qed.

(** * The issues a rule pushes *)

Ltac field_side :=
  eexists; (split; cycle 1);
  [> first [left; reflexivity
           |right; split; [reflexivity|eexists; reflexivity]]
   | cbn [category baseOk]; first [assumption|reflexivity|repeat case_match; reflexivity] ].

Ltac issue_side :=
  repeat lazymatch goal with
         | c : Confidence |- _ => destruct c
         end;
  (split; [reflexivity|split; [reflexivity|field_side]]).

Ltac ev_push_side ::=
  first [ unfold notDuplicate; simpl; discriminate | issue_side ].

Section rule_issues.

Variable clk : clock.
Implicit Types (st : state) (record fixedRecord : value) (index : nat).

Lemma issueBy_mono (cats cats' : list Category) index (i : ValidationIssue) :
  (forall c, inCats cats c = true -> inCats cats' c = true) ->
  issueBy cats index i -> issueBy cats' index i.
Proof. intros Hc (H1 & H2 & H3). split; auto. Qed.

Lemma inCats_sub (cats cats' : list Category) :
  forallb (inCats cats') cats = true ->
  forall c, inCats cats c = true -> inCats cats' c = true.
Proof.
  intros Hall c Hc. unfold inCats in Hc at 1.
  apply existsb_exists in Hc as (c' & Hin & Heq).
  apply bool_decide_eq_true in Heq as ->.
  rewrite forallb_forall in Hall. by apply Hall.
Qed.

Lemma widen (cats : list Category) index st st' (K : string -> bool) :
  evolves K (issueBy cats index) st st' ->
  forallb (inCats allCats) cats = true ->
  evolves anyKey (issueBy allCats index) st st'.
Proof.
  intros Hev Hsub. revert Hev.
  apply evolves_mono; [done|]. intros i. apply issueBy_mono. by apply inCats_sub.
Qed.

Lemma checkMandatory_pushes index record st :
  evolves anyKey (issueBy [CatMandatory] index) st (checkMandatory index record st).
Proof.
  unfold checkMandatory. generalize (validateMandatoryFields (st_heap st) record).
  intros flds. cut (forall st0, evolves anyKey (issueBy [CatMandatory] index) st0 st ->
    evolves anyKey (issueBy [CatMandatory] index) st0
      (fold_left (fun st fld => pushIssue (mandatoryIssue index fld) st) flds st)).
  { intros H. apply H, ev_refl. }
  revert st. induction flds as [|fld flds IH]; intros st st0 Hst; simpl; [done|].
  apply IH. apply ev_push; [done|]. unfold mandatoryIssue. issue_side.
Qed.

Lemma checkInvoiceNumber_pushes index record st st' :
  checkInvoiceNumber index record st = Ok st' ->
  st_heap st' = st_heap st /\
  exists new, st_issues st' = st_issues st ++ new /\
              Forall (issueBy [CatMandatory; CatDuplicate] index) new.
Proof.
  unfold checkInvoiceNumber. destruct (negb _).
  - intros [= <-]. split; [done|]. eexists. split; [done|].
    constructor; [issue_side|constructor].
  - intros (text & _ & [= <-])%bind_Ok_inv. cbv zeta.
    destruct (invoiceNumbersSeen st !! _) as [f|]; simpl.
    + split; [done|]. eexists. split; [done|].
      constructor; [unfold duplicateIssue; issue_side|constructor].
    + split; [done|]. exists []. by rewrite app_nil_r.
Qed.

Lemma checkCurrency_pushes index record fixedRecord st :
  evolvesO anyKey (issueBy [CatCurrency] index) st (checkCurrency index record fixedRecord st).
Proof. cbv beta delta [checkCurrency]. evo. Qed.

Lemma checkTpin_pushes index record fixedRecord st :
  evolves anyKey (issueBy [CatTpin] index) st (checkTpin index record fixedRecord st).
Proof.
  unfold checkTpin.
  destruct (tpinAlias (st_heap st) record) as [tpinField|] eqn:Halias; [|apply ev_refl].
  assert (inKeys tpinKeys tpinField = true).
  { unfold tpinAlias in Halias. repeat case_match; simplify_eq; done. }
  unfold tpinIssue. ev.
Qed.

Lemma checkDate_pushes index record fixedRecord st dateField :
  inKeys dateKeys dateField = true ->
  evolves anyKey (issueBy [CatDate] index) st
          (checkDate clk index record fixedRecord st dateField).
Proof. intros Hk. unfold checkDate. ev. Qed.

Lemma checkDates_pushes index record fixedRecord st :
  evolves anyKey (issueBy [CatDate] index) st (checkDates clk index record fixedRecord st).
Proof.
  unfold checkDates. simpl.
  repeat (eapply evolves_trans; [|by apply checkDate_pushes]). apply ev_refl.
Qed.

Lemma checkVatRate_pushes index record fixedRecord st :
  evolvesO anyKey (issueBy [CatVat] index) st (checkVatRate index record fixedRecord st).
Proof. cbv beta delta [checkVatRate]. evo. Qed.

Lemma checkNegative_pushes fld what index x st :
  evolves anyKey (issueBy [CatAmount] index) st (checkNegative fld what index x st).
Proof. unfold checkNegative, negativeIssue. ev. Qed.

Lemma recomputeTotals_pushes index record fixedRecord vf gf taxable st :
  evolvesO anyKey (issueBy [CatAmount] index) st
           (recomputeTotals index record fixedRecord vf gf taxable st).
Proof. cbv beta delta [recomputeTotals effectiveVatRate]. evo. Qed.

Lemma checkTotals_pushes index record fixedRecord st :
  evolvesO anyKey (issueBy [CatAmount] index) st (checkTotals index record fixedRecord st).
Proof.
  cbv beta delta [checkTotals].
  repeat lazymatch goal with
    | |- evolvesO _ _ _ (recomputeTotals _ _ _ _ _ _ _) => apply recomputeTotals_pushes
    | |- evolves _ _ _ (checkNegative _ _ _ _ _) => apply checkNegative_pushes
    | |- _ => evo_step
    end.
Qed.

Lemma checkSchema_pushes index record st :
  evolves anyKey (issueBy [CatSchema] index) st (checkSchema index record st).
Proof. unfold checkSchema. ev. Qed.

Lemma asRecord_quiet (K : string -> bool) (Q : ValidationIssue -> Prop) x st :
  evolves K Q st (snd (asRecord x st)).
Proof.
  unfold asRecord. destruct (isObject (st_heap st) x); simpl; [apply ev_refl|].
  apply (ev_alloc K Q st st); [apply ev_refl|reflexivity].
Qed.

Lemma lineRules_pushes index lineIndex fixedLine l st :
  evolvesO anyKey (issueBy [CatAmount] index) st (lineRules index lineIndex fixedLine l st).
Proof.
  cbv beta delta [lineRules].
  repeat lazymatch goal with
    | |- evolvesO _ _ _ (mbind _ (assignStrict _ _ _ _)) =>
        apply evO_bind; [unfold assignStrict; evo|intro]
    | |- _ => evo_step
    end.
Qed.

Lemma processLine_pushes index lineItemsField fixedRecord lineItems lineIndex st0 :
  evolvesO anyKey (issueBy [CatAmount] index) st0
           (processLine index lineItemsField fixedRecord lineItems lineIndex st0).
Proof.
  cbv beta delta [processLine]. evo_step.
  destruct (indexInto _ _ _) as [fixedLine|e]; [|apply evO_throw].
  rewrite bind_Ok.
  pose proof (asRecord_quiet anyKey (issueBy [CatAmount] index)
    (default VUndef (arrElems (st_heap st0) lineItems ≫= λ es, es !! lineIndex)) st0) as Has.
  destruct (asRecord _ st0) as [l st]. simpl in Has.
  apply (evO_trans st0 st); [done|]. apply lineRules_pushes.
Qed.

Lemma normalizeLineItems_quiet (Q : ValidationIssue -> Prop)
      lineItemsField fixedRecord lineItems0 st :
  evolves anyKey Q st (snd (normalizeLineItems lineItemsField fixedRecord lineItems0 st)).
Proof.
  unfold normalizeLineItems.
  destruct (_ && _); simpl; [|apply ev_refl].
  destruct (isArray _ _); simpl.
  - destruct (_ && _); [|destruct st; apply ev_refl].
    apply ev_assign; [|done]. destruct st; apply ev_refl.
  - destruct (_ && _).
    + apply ev_assign; [|done]. apply (ev_alloc _ _ st st); [apply ev_refl|done].
    + apply (ev_alloc _ _ st st); [apply ev_refl|done].
Qed.

Lemma checkLineItems_pushes index record fixedRecord st :
  evolvesO anyKey (issueBy [CatMandatory; CatSchema; CatAmount] index) st
           (checkLineItems index record fixedRecord st).
Proof.
  unfold checkLineItems.
  destruct (_ || _); [|evo].
  set (lif := if truthy _ then _ else _).
  pose proof (normalizeLineItems_quiet (issueBy [CatMandatory; CatSchema; CatAmount] index)
                lif fixedRecord (getProp (st_heap st) record lif) st) as Hn.
  destruct (normalizeLineItems _ _ _ _) as [lineItems st1]. simpl in Hn.
  apply (evO_trans st st1); [done|].
  destruct (arrElems _ _) as [es|]; [|evo].
  match goal with
  | |- evolvesO _ _ _ (forEachM _ _ ?s) =>
      apply (evO_trans st1 s); [evo|]
  end.
  apply forEachM_evolves. intros x st'.
  eapply evolvesO_mono; [| |apply processLine_pushes]; [done|].
  intros i. apply issueBy_mono. intros c. by destruct c.
Qed.

Lemma enterRecord_quiet (K : string -> bool) (Q : ValidationIssue -> Prop)
      ro rf st record fixedRecord st1 :
  enterRecord ro rf st = (record, fixedRecord, st1) -> evolves K Q st st1.
Proof.
  unfold enterRecord.
  pose proof (asRecord_quiet K Q ro st) as H1.
  destruct (asRecord ro st) as [record0 st0].
  pose proof (asRecord_quiet K Q rf st0) as H2.
  destruct (asRecord rf st0) as [fixedRecord0 st1'].
  destruct (unwrapRecord _ _ _). intros [= <- <- <-].
  eapply evolves_trans; [exact H1|exact H2].
Qed.

(** A run of the callback that returns, rule by rule. *)
Lemma processRecord_trace index ro rf st0 st :
  processRecord clk index ro rf st0 = Ok st ->
  exists record fixedRecord st1 st3 st4 st7 st8 st9,
    enterRecord ro rf st0 = (record, fixedRecord, st1) /\
    checkInvoiceNumber index record (checkMandatory index record st1) = Ok st3 /\
    checkCurrency index record fixedRecord st3 = Ok st4 /\
    checkVatRate index record fixedRecord
      (checkDates clk index record fixedRecord (checkTpin index record fixedRecord st4))
      = Ok st7 /\
    checkLineItems index record fixedRecord st7 = Ok st8 /\
    checkTotals index record fixedRecord st8 = Ok st9 /\
    st = checkSchema index record st9.
Proof.
  unfold processRecord.
  destruct (enterRecord ro rf st0) as [[record fixedRecord] st1]. cbv zeta.
  intros (st3 & H3 & H)%bind_Ok_inv.
  apply bind_Ok_inv in H as (st4 & H4 & H).
  apply bind_Ok_inv in H as (st7 & H7 & H).
  apply bind_Ok_inv in H as (st8 & H8 & H).
  apply bind_Ok_inv in H as (st9 & H9 & [= <-]).
  by exists record, fixedRecord, st1, st3, st4, st7, st8, st9.
Qed.

(** The issues of one callback: all of them are issues of the record at
    [index]. *)
Lemma processRecord_issues index ro rf st0 st :
  processRecord clk index ro rf st0 = Ok st ->
  exists new, st_issues st = st_issues st0 ++ new /\ Forall (issueBy allCats index) new.
Proof.
  intros (record & fixedRecord & st1 & st3 & st4 & st7 & st8 & st9 &
          He & H3 & H4 & H7 & H8 & H9 & ->)%processRecord_trace.
  pose proof (enterRecord_quiet anyKey (issueBy allCats index) _ _ _ _ _ _ He) as E1.
  pose proof (widen _ _ _ _ _ (checkMandatory_pushes index record st1) eq_refl) as E2.
  destruct (checkInvoiceNumber_pushes _ _ _ _ H3) as (_ & new3 & Hnew3 & HQ3).
  pose proof (widen _ _ _ _ _ (checkCurrency_pushes _ _ _ _ _ H4) eq_refl) as E4.
  pose proof (widen _ _ _ _ _ (checkTpin_pushes index record fixedRecord st4) eq_refl) as E5.
  pose proof (widen _ _ _ _ _ (checkDates_pushes index record fixedRecord
                                 (checkTpin index record fixedRecord st4)) eq_refl) as E6.
  pose proof (widen _ _ _ _ _ (checkVatRate_pushes _ _ _ _ _ H7) eq_refl) as E7.
  pose proof (widen _ _ _ _ _ (checkLineItems_pushes _ _ _ _ _ H8) eq_refl) as E8.
  pose proof (widen _ _ _ _ _ (checkTotals_pushes _ _ _ _ _ H9) eq_refl) as E9.
  pose proof (widen _ _ _ _ _ (checkSchema_pushes index record st9) eq_refl) as E10.
  destruct (evolves_issues _ _ (evolves_trans _ _ _ E1 E2)) as (new2 & Hnew2 & HQ2).
  pose proof (evolves_trans _ _ _ E4 (evolves_trans _ _ _ E5 (evolves_trans _ _ _ E6
    (evolves_trans _ _ _ E7 (evolves_trans _ _ _ E8 (evolves_trans _ _ _ E9 E10)))))) as E.
  destruct (evolves_issues _ _ E) as (new4 & Hnew4 & HQ4).
  exists (new2 ++ new3 ++ new4). split.
  - by rewrite Hnew4, Hnew3, Hnew2, <- !app_assoc.
  - rewrite !Forall_app. repeat split; [done| |done].
    eapply Forall_impl; [exact HQ3|]. intros i. apply issueBy_mono.
    by apply inCats_sub.
Qed.

Lemma validateRecords_issues (records : list jv) :
  forall index fixedRecords iss seen origs fixeds iss',
    validateRecords clk index records fixedRecords iss seen = Ok (origs, fixeds, iss') ->
    exists new,
      iss' = iss ++ new /\
      Forall (fun i => exists k, (k < length records)%nat /\ issueBy allCats (index + k) i) new.
Proof.
  induction records as [|o records IH]; intros index fixedRecords iss seen origs fixeds iss'; simpl.
  - intros [= <- <- <-]. exists []. by rewrite app_nil_r.
  - destruct (placeRecord o _) as [[ro rf] h] eqn:Hp.
    intros (st & Hst & Hrest)%bind_Ok_inv.
    apply bind_Ok_inv in Hrest as ([[origs' fixeds'] iss''] & Hrest & [= <- <- <-]).
    destruct (processRecord_issues _ _ _ _ _ Hst) as (new1 & Hnew1 & HQ1).
    destruct (IH _ _ _ _ _ _ _ Hrest) as (new2 & -> & HQ2).
    exists (new1 ++ new2). split; [by rewrite Hnew1, app_assoc|].
    apply Forall_app. split.
    + eapply Forall_impl; [exact HQ1|]. intros i Hi. exists 0%nat.
      rewrite Nat.add_0_r. split; [lia|done].
    + eapply Forall_impl; [exact HQ2|]. intros i (k & Hk & Hi). exists (S k).
      rewrite Nat.add_succ_r. split; [lia|done].
Qed.

Lemma validateAndFix_issues (data : jv) (fileType : FileType) (r : ValidationResult) :
  validateAndFix clk data fileType = Ok r ->
  Forall (fun i => exists k, (k < length (payloadRecords data))%nat /\ issueBy allCats k i)
         (issues r).
Proof.
  unfold validateAndFix, payloadRecords.
  destruct (jsonClone (unwrapTop data)) as [fixedData|] eqn:Hc; [|done].
  intros ([[origs fixeds] iss] & Hrun & [= <-])%bind_Ok_inv. simpl.
  by destruct (validateRecords_issues _ _ _ _ _ _ _ _ Hrun) as (new & -> & HQ).
Qed.

End rule_issues.

(** * The normalizer of dates *)

Section date_normalizer.

Variable clk : clock.

Lemma appS_cons (c : ascii) (s t : string) : String c s +:+ t = String c (s +:+ t).
Proof. reflexivity. Qed.

Lemma appS_nil (t : string) : "" +:+ t = t.
Proof. reflexivity. Qed.

Lemma appS_empty_r (s : string) : s +:+ "" = s.
Proof. induction s as [|c r IH]; [done|]. by rewrite appS_cons, IH. Qed.

Lemma appS_assoc (s t u : string) : (s +:+ t) +:+ u = s +:+ (t +:+ u).
Proof. induction s as [|c r IH]; [done|]. by rewrite !appS_cons, IH. Qed.

Lemma rev_app_appS (s1 s2 acc : string) :
  String.rev_app (s1 +:+ s2) acc = String.rev_app s2 (String.rev_app s1 acc).
Proof.
  revert acc. induction s1 as [|c r IH]; intros acc; [done|].
  rewrite appS_cons. simpl. apply IH.
Qed.

Lemma rev_app_rev_app (s a b : string) :
  String.rev_app (String.rev_app s a) b = String.rev_app a (s +:+ b).
Proof.
  revert a. induction s as [|c r IH]; intros a; simpl; [done|].
  by rewrite IH, appS_cons.
Qed.

Lemma rev_involutive (s : string) : String.rev (String.rev s) = s.
Proof. unfold String.rev. rewrite rev_app_rev_app. simpl. apply appS_empty_r. Qed.

Lemma isDigit_not_space (c : ascii) : isDigit c = true -> isSpace c = false.
Proof.
  unfold isDigit, isSpace. intros [H1 H2]%andb_true_iff.
  apply Nat.leb_le in H1, H2.
  rewrite !orb_false_iff. split; [split|].
  - apply andb_false_iff. right. apply Nat.leb_gt. lia.
  - apply Nat.eqb_neq. lia.
  - apply Nat.eqb_neq. lia.
Qed.

(** A string between two digits is left alone by [trim]. *)
Lemma trim_between_digits (c0 c1 c2 : ascii) (p : string) :
  isDigit c0 = true -> isDigit c2 = true ->
  trim (String c0 p +:+ String c1 (String c2 "")) = String c0 p +:+ String c1 (String c2 "").
Proof.
  intros H0 H2. unfold trim.
  assert (Hs : trimStart (String c0 p +:+ String c1 (String c2 "")) =
               String c0 p +:+ String c1 (String c2 "")).
  { rewrite appS_cons. simpl. by rewrite (isDigit_not_space _ H0). }
  rewrite Hs.
  assert (Hr : String.rev (String c0 p +:+ String c1 (String c2 "")) =
               String c2 (String c1 (String.rev (String c0 p)))).
  { unfold String.rev. by rewrite rev_app_appS. }
  rewrite Hr. cbn [trimStart]. rewrite (isDigit_not_space _ H2).
  rewrite <- Hr. apply rev_involutive.
Qed.

Lemma spanDigits_spec (s d r : string) :
  spanDigits s = (d, r) -> s = d +:+ r /\ forallS isDigit d = true.
Proof.
  revert d r. induction s as [|c s IH]; intros d r; simpl.
  - by intros [= <- <-].
  - destruct (isDigit c) eqn:Hc.
    + destruct (spanDigits s) as [d' r'] eqn:Hs. intros [= <- <-].
      destruct (IH d' r' eq_refl) as [-> Hd]. rewrite appS_cons. simpl. by rewrite Hc.
    + by intros [= <- <-].
Qed.

Lemma spanDigits_digits (d : string) (c : ascii) (r : string) :
  forallS isDigit d = true -> isDigit c = false ->
  spanDigits (d +:+ String c r) = (d, String c r).
Proof.
  intros Hd Hc. induction d as [|c' d IH].
  - change ("" +:+ String c r) with (String c r). simpl. by rewrite Hc.
  - simpl in Hd. apply andb_true_iff in Hd as [Hc' Hd].
    rewrite appS_cons. simpl. by rewrite Hc', (IH Hd).
Qed.

Lemma spanDigits_all (d : string) :
  forallS isDigit d = true -> spanDigits d = (d, "").
Proof.
  intros Hd. induction d as [|c' d IH]; simpl; [done|].
  simpl in Hd. apply andb_true_iff in Hd as [Hc' Hd]. by rewrite Hc', (IH Hd).
Qed.

Lemma matchFormat_Some (f : dateFormat) (s a b c : string) :
  matchFormat f s = Some (a, b, c) ->
  forallS isDigit a = true /\ forallS isDigit b = true /\ forallS isDigit c = true /\
  lenIn (g1 f) a = true /\ lenIn (g2 f) b = true /\ lenIn (g3 f) c = true.
Proof.
  unfold matchFormat.
  destruct (spanDigits s) as [a' r1] eqn:H1. destruct r1 as [|c1 r1']; [done|].
  destruct (spanDigits r1') as [b' r2] eqn:H2. destruct r2 as [|c2 r2']; [done|].
  destruct (spanDigits r2') as [c' r3] eqn:H3.
  destruct (_ && _) eqn:Hall; [|done]. intros [= <- <- <-].
  repeat (apply andb_true_iff in Hall as [Hall ?]).
  apply spanDigits_spec in H1 as [_ ?], H2 as [_ ?], H3 as [_ ?]. done.
Qed.

Lemma firstFormat_Some (s : string) (fs : list dateFormat) (n : string) :
  firstFormat clk s fs = Some n -> exists f, In f fs /\ tryFormat clk s f = Some n.
Proof.
  induction fs as [|f fs IH]; simpl; [done|].
  destruct (tryFormat clk s f) as [n'|] eqn:Ht.
  - intros [= <-]. exists f. auto.
  - intros (f' & Hin & Hf')%IH. exists f'. auto.
Qed.

Lemma lenIn_bounds (lo hi : nat) (s : string) :
  lenIn (lo, hi) s = true -> lo <= String.length s <= hi.
Proof.
  unfold lenIn. simpl. intros [H1 H2]%andb_true_iff.
  apply Nat.leb_le in H1, H2. lia.
Qed.

Lemma padStart_two (s : string) :
  1 <= String.length s <= 2 -> forallS isDigit s = true ->
  String.length (padStart 2 "0" s) = 2 /\ forallS isDigit (padStart 2 "0" s) = true.
Proof.
  intros Hlen Hd. unfold padStart. split.
  - rewrite length_appS, length_repeatS. lia.
  - by rewrite forallS_appS, forallS_repeatS, Hd.
Qed.

Lemma padStart_id (s : string) : String.length s = 2 -> padStart 2 "0" s = s.
Proof. intros Hlen. unfold padStart. by rewrite Hlen. Qed.

Lemma tryFormat_plausible (s : string) (f : dateFormat) (n : string) :
  In f formats -> tryFormat clk s f = Some n -> plausibleDate clk n.
Proof.
  intros Hf. unfold tryFormat.
  destruct (matchFormat f s) as [[[a b] c]|] eqn:Hm; [|done].
  apply matchFormat_Some in Hm as (Ha & Hb & Hc & La & Lb & Lc).
  assert (Hshape : exists year month day,
            (if yearFirst f then (a, b, c) else (c, b, a)) = (year, month, day) /\
            String.length year = 4 /\ 1 <= String.length month <= 2 /\
            1 <= String.length day <= 2 /\
            forallS isDigit year = true /\ forallS isDigit month = true /\
            forallS isDigit day = true).
  { simpl in Hf. destruct Hf as [<-|[<-|[<-|[<-|[<-|[]]]]]]; simpl in *;
      apply lenIn_bounds in La, Lb, Lc; eexists _, _, _;
      (split; [reflexivity|]); repeat split; first [done|lia]. }
  destruct Hshape as (year & month & day & -> & Ly & Lm & Ld & Hy & Hmo & Hd).
  destruct (padStart_two month Lm Hmo) as [Lm' Hm'].
  destruct (padStart_two day Ld Hd) as [Ld' Hd'].
  destruct (dateOfYMD year (padStart 2 "0" month) (padStart 2 "0" day)) as [t|] eqn:Ht;
    [|done].
  destruct (t <=? now clk)%Z eqn:Hnow; [|done].
  destruct (_ && _) eqn:Hyear; [|done]. intros [= <-].
  exists year, (padStart 2 "0" month), (padStart 2 "0" day).
  apply andb_true_iff in Hyear as [Hy1 Hy2].
  apply Z.leb_le in Hnow, Hy1, Hy2.
  repeat split; try done; try lia.
  - unfold dateOfYMD in Ht. destruct (_ && _) eqn:Hb4 in Ht; [|done].
    repeat (apply andb_true_iff in Hb4 as [Hb4 ?]). lia.
  - unfold dateOfYMD in Ht. destruct (_ && _) eqn:Hb4 in Ht; [|done].
    repeat (apply andb_true_iff in Hb4 as [Hb4 ?]). lia.
  - unfold dateOfYMD in Ht. destruct (_ && _) eqn:Hb4 in Ht; [|done].
    repeat (apply andb_true_iff in Hb4 as [Hb4 ?]). lia.
  - unfold dateOfYMD in Ht. destruct (_ && _) eqn:Hb4 in Ht; [|done].
    repeat (apply andb_true_iff in Hb4 as [Hb4 ?]). lia.
  - exists t. split; [done|lia].
Qed.

Lemma normalizeDate_high (value : jv) :
  snd (normalizeDate clk value) = High -> plausibleDate clk (fst (normalizeDate clk value)).
Proof.
  unfold normalizeDate.
  assert (Hgen : forall s : string,
            snd (match firstFormat clk s formats with
                 | Some normalized => (normalized, High)
                 | None =>
                     if forallS isDigit s && (10 <=? String.length s)%nat &&
                        (String.length s <=? 13)%nat
                     then
                       (isoDateOfMs
                          (if (String.length (num_toString (num_of_Z (digitsVal s))) =? 10)%nat
                           then (digitsVal s * 1000)%Z else digitsVal s), Medium)
                     else (today clk, Low)
                 end) = High ->
            plausibleDate clk
              (fst (match firstFormat clk s formats with
                    | Some normalized => (normalized, High)
                    | None =>
                        if forallS isDigit s && (10 <=? String.length s)%nat &&
                           (String.length s <=? 13)%nat
                        then
                          (isoDateOfMs
                             (if (String.length (num_toString (num_of_Z (digitsVal s))) =? 10)%nat
                              then (digitsVal s * 1000)%Z else digitsVal s), Medium)
                        else (today clk, Low)
                    end))).
  { intros s. destruct (firstFormat clk s formats) as [n|] eqn:Hn.
    - intros _. simpl. apply firstFormat_Some in Hn as (f & Hf & Ht).
      by apply (tryFormat_plausible s f).
    - by destruct (_ && _). }
  destruct value; try done; apply Hgen.
Qed.

(** A plausible date is normalized to itself, with high confidence. *)
Lemma normalizeDate_plausible (n : string) :
  plausibleDate clk n -> normalizeDate clk (JStr n) = (n, High).
Proof.
  intros (year & month & day & -> & Ly & Lm & Ld & Hy & Hmo & Hd & Hyr & _ & _ & t & Ht & Hnow).
  unfold normalizeDate, coerceText, toStr.
  assert (Htrim : trim (year +:+ "-" +:+ month +:+ "-" +:+ day) =
                  year +:+ "-" +:+ month +:+ "-" +:+ day).
  { destruct year as [|c0 year]; [done|].
    destruct day as [|c1 [|c2 [|]]]; try done.
    simpl in Hy, Hd. apply andb_true_iff in Hy as [H0 _].
    apply andb_true_iff in Hd as [_ [H2 _]%andb_true_iff].
    pose proof (trim_between_digits c0 c1 c2 (year +:+ "-" +:+ month +:+ "-") H0 H2) as Hx.
    replace (String c0 (year +:+ "-" +:+ month +:+ "-") +:+ String c1 (String c2 ""))
      with (String c0 year +:+ "-" +:+ month +:+ "-" +:+ String c1 (String c2 "")) in Hx.
    - exact Hx.
    - repeat (rewrite appS_cons || rewrite appS_assoc || rewrite appS_nil). done. }
  rewrite Htrim. clear Htrim.
  assert (Hfirst : tryFormat clk (year +:+ "-" +:+ month +:+ "-" +:+ day)
                     (DateFormat "-" (4, 4) (1, 2) (1, 2) true) =
                   Some (year +:+ "-" +:+ month +:+ "-" +:+ day)).
  { unfold tryFormat, matchFormat.
    change (year +:+ "-" +:+ month +:+ "-" +:+ day)
      with (year +:+ String "-" (month +:+ String "-" day)).
    rewrite (spanDigits_digits year "-" _ Hy eq_refl).
    rewrite (spanDigits_digits month "-" _ Hmo eq_refl).
    rewrite (spanDigits_all day Hd).
    unfold lenIn. cbn [sep g1 g2 g3 yearFirst fst snd]. rewrite Ly, Lm, Ld.
    cbn [Nat.leb andb]. rewrite !bool_decide_eq_true_2 by done. cbn [andb].
    rewrite (padStart_id month Lm), (padStart_id day Ld), Ht.
    apply Z.leb_le in Hnow. rewrite Hnow.
    destruct Hyr as [Hy1 Hy2]. apply Z.leb_le in Hy1, Hy2. by rewrite Hy1, Hy2. }
  unfold formats. cbn [firstFormat]. by rewrite Hfirst.
Qed.

End date_normalizer.

(** When [normalizeDate] answers with high confidence, the date it
    returns has the form [YYYY-MM-DD] with four, two and two digits, its
    year is between 2000 and the year after the current one, its month
    between 1 and 12, its day between 1 and 31, and it is not after the
    current time. *)
Theorem normalizeDate_high_is_plausible (clk : clock) (value : jv) :
  snd (normalizeDate clk value) = High ->
  exists year month day : string,
    fst (normalizeDate clk value) = year +:+ "-" +:+ month +:+ "-" +:+ day /\
    String.length year = 4 /\ String.length month = 2 /\ String.length day = 2 /\
    forallS isDigit year = true /\ forallS isDigit month = true /\
    forallS isDigit day = true /\
    (2000 <= digitsVal year <= localYear clk + 1)%Z /\
    (1 <= digitsVal month <= 12)%Z /\ (1 <= digitsVal day <= 31)%Z /\
    exists t : Z, dateOfYMD year month day = Some t /\ (t <= now clk)%Z.
Proof. apply normalizeDate_high. Qed.

Lemma normalizeDate_high_is_plausible_witness :
  exists year month day : string,
    fst (normalizeDate exampleClock (JStr "1.5.2023")) =
      year +:+ "-" +:+ month +:+ "-" +:+ day /\
    String.length year = 4 /\ String.length month = 2 /\ String.length day = 2 /\
    forallS isDigit year = true /\ forallS isDigit month = true /\
    forallS isDigit day = true /\
    (2000 <= digitsVal year <= localYear exampleClock + 1)%Z /\
    (1 <= digitsVal month <= 12)%Z /\ (1 <= digitsVal day <= 31)%Z /\
    exists t : Z, dateOfYMD year month day = Some t /\ (t <= now exampleClock)%Z.
Proof. apply (normalizeDate_high_is_plausible exampleClock (JStr "1.5.2023")). reflexivity. Defined.

(** A date that [normalizeDate] returns with high confidence is a fixed
    point: normalizing it again gives the same date, with high
    confidence. *)
Theorem normalizeDate_idempotent_on_high (clk : clock) (value : jv) :
  snd (normalizeDate clk value) = High ->
  normalizeDate clk (JStr (fst (normalizeDate clk value))) =
    (fst (normalizeDate clk value), High).
Proof. intros H. by apply normalizeDate_plausible, normalizeDate_high. Qed.

Lemma normalizeDate_idempotent_on_high_witness :
  normalizeDate exampleClock (JStr (fst (normalizeDate exampleClock (JStr "1.5.2023")))) =
    (fst (normalizeDate exampleClock (JStr "1.5.2023")), High).
Proof. apply (normalizeDate_idempotent_on_high exampleClock (JStr "1.5.2023")). reflexivity. Defined.

(** * The issues of a result *)

Section result_issues.

Variable clk : clock.

Lemma issueCoherent_spec (i : ValidationIssue) :
  issueCoherent i = true ->
  (confidence i = Low <-> severity i = SevError /\ autoFixed i = true) /\
  (confidence i = Low -> category i = CatTpin \/ category i = CatDate) /\
  (severity i = SevError -> autoFixed i = false ->
   (fixedValue i = JStr "REQUIRED" \/ fixedValue i = JStr "MANUAL_REVIEW_REQUIRED") /\
   confidence i = High) /\
  (category i = CatMandatory \/ category i = CatDuplicate \/ category i = CatSchema ->
   severity i = SevError /\ autoFixed i = false) /\
  (category i = CatCurrency -> autoFixed i = true /\ confidence i = High) /\
  (exists s : string, fixedValue i = JStr s).
Proof.
  destruct i as [sev f m o fv af conf cat]. unfold issueCoherent, isError.
  cbn [severity autoFixed confidence category fixedValue].
  rewrite !andb_true_iff. intros ((((((Ha & Hb) & Hc) & Hd) & He) & Hf) & _).
  split; [|split; [|split; [|split; [|split]]]].
  - split; [intros ->; by destruct sev, af|intros [-> ->]; by destruct conf].
  - intros ->. destruct cat; try done; auto.
  - intros -> ->. simpl in Hc. apply andb_true_iff in Hc as [Hc Hh].
    apply bool_decide_eq_true in Hh. split; [|done].
    destruct fv as [| | | |s| |]; try done.
    apply orb_true_iff in Hc as [Hc|Hc]; apply String.eqb_eq in Hc; subst; auto.
  - intros [->| [->| ->]]; by destruct sev, af.
  - intros ->. simpl in He. apply andb_true_iff in He as [He Hh].
    apply bool_decide_eq_true in Hh. by destruct af.
  - destruct fv; try done. eauto.
Qed.


End result_issues.

(** Every issue of a result is of one of these kinds.  Its confidence is
    low exactly when it is an error that was fixed automatically, and only
    the rules on the taxpayer ID and on the dates give such an issue.  An
    error that was not fixed has the fixed value [REQUIRED] or
    [MANUAL_REVIEW_REQUIRED] and high confidence; the issues of a missing
    mandatory field, of a duplicate and of the schema are of this kind.  An
    issue on the currency is fixed, with high confidence.  The fixed value
    of every issue is a string. *)
Theorem issues_are_coherent (clk : clock) (data : jv) (fileType : FileType)
        (r : ValidationResult) (i : ValidationIssue) :
  validateAndFix clk data fileType = Ok r -> In i (issues r) ->
  (confidence i = Low <-> severity i = SevError /\ autoFixed i = true) /\
  (confidence i = Low -> category i = CatTpin \/ category i = CatDate) /\
  (severity i = SevError -> autoFixed i = false ->
   (fixedValue i = JStr "REQUIRED" \/ fixedValue i = JStr "MANUAL_REVIEW_REQUIRED") /\
   confidence i = High) /\
  (category i = CatMandatory \/ category i = CatDuplicate \/ category i = CatSchema ->
   severity i = SevError /\ autoFixed i = false) /\
  (category i = CatCurrency -> autoFixed i = true /\ confidence i = High) /\
  (exists s : string, fixedValue i = JStr s).
Proof.
  intros Hr Hin. pose proof (validateAndFix_issues clk _ _ _ Hr) as Hall.
  rewrite List.Forall_forall in Hall. destruct (Hall i Hin) as (k & _ & _ & Hc & _).
  by apply issueCoherent_spec.
Qed.

Lemma issues_are_coherent_witness :
  let i := Issue SevWarning "TPIN (Record 1)"
                 "TPIN normalized to ZRA 10-digit format (1234567890)"
                 (jnum 1234567890) (JStr "1234567890") true High CatTpin in
  (confidence i = Low <-> severity i = SevError /\ autoFixed i = true) /\
  (confidence i = Low -> category i = CatTpin \/ category i = CatDate) /\
  (severity i = SevError -> autoFixed i = false ->
   (fixedValue i = JStr "REQUIRED" \/ fixedValue i = JStr "MANUAL_REVIEW_REQUIRED") /\
   confidence i = High) /\
  (category i = CatMandatory \/ category i = CatDuplicate \/ category i = CatSchema ->
   severity i = SevError /\ autoFixed i = false) /\
  (category i = CatCurrency -> autoFixed i = true /\ confidence i = High) /\
  (exists s : string, fixedValue i = JStr s).
Proof.
  intros i.
  eapply (issues_are_coherent exampleClock numericTpinInvoice Json);
    [vm_compute; reflexivity|vm_compute; tauto].
Defined.

(** Every issue of a result names a record of the payload: its field is a
    name followed by the label [(Record n)] of a record, n counted from 1,
    or, for an issue on an amount of a line, by the label of the line of a
    record; for the rules on the taxpayer ID, the currency, the dates and
    the VAT rate the name is the alias of the field found in the record. *)
Theorem issues_name_a_record (clk : clock) (data : jv) (fileType : FileType)
        (r : ValidationResult) (i : ValidationIssue) :
  validateAndFix clk data fileType = Ok r -> In i (issues r) ->
  exists index : nat, index < length (payloadRecords data) /\ fieldOf index i.
Proof.
  intros Hr Hin. pose proof (validateAndFix_issues clk _ _ _ Hr) as Hall.
  rewrite List.Forall_forall in Hall. destruct (Hall i Hin) as (k & Hk & _ & _ & Hf).
  by exists k.
Qed.

Lemma issues_name_a_record_witness :
  exists index : nat,
    index < length (payloadRecords numericTpinInvoice) /\
    fieldOf index (Issue SevWarning "TPIN (Record 1)"
                         "TPIN normalized to ZRA 10-digit format (1234567890)"
                         (jnum 1234567890) (JStr "1234567890") true High CatTpin).
Proof.
  eapply (issues_name_a_record exampleClock numericTpinInvoice Json);
    [vm_compute; reflexivity|vm_compute; tauto].
Defined.

Section result_stats.

Lemma errors_split (iss : list ValidationIssue) :
  Forall (fun i => issueCoherent i = true) iss ->
  length (List.filter (Stats.isSeverity SevError) iss) =
  length (List.filter Stats.needsManualReview iss) +
  length (List.filter isLowConfidence iss).
Proof.
  induction 1 as [|i iss Hi _ IH]; [done|].
  cbn [List.filter].
  destruct (issueCoherent_spec i Hi) as (Hlow & _ & Hman & _).
  unfold Stats.isSeverity at 1, Stats.needsManualReview at 1, isLowConfidence at 1.
  destruct (decide (severity i = SevError)) as [Hsev|Hsev].
  - rewrite (bool_decide_eq_true_2 _ Hsev). destruct (autoFixed i) eqn:Haf; simpl.
    + rewrite bool_decide_eq_true_2 by (by apply Hlow). simpl. lia.
    + destruct (Hman Hsev eq_refl) as [_ Hc].
      rewrite bool_decide_eq_false_2 by (by rewrite Hc). simpl. lia.
  - rewrite (bool_decide_eq_false_2 _ Hsev). simpl.
    rewrite bool_decide_eq_false_2; [done|]. intros Hc. apply Hlow in Hc as [? _]. done.
Qed.

Lemma filter_isError_isSeverity (iss : list ValidationIssue) :
  List.filter isError iss = List.filter (Stats.isSeverity SevError) iss.
Proof. done. Qed.

End result_stats.

(** The statistics of a result of [validateAndFix]: the result is valid
    exactly when [criticalErrors] is 0, and the critical errors are the
    issues that need a manual review together with the fixes of low
    confidence. *)
Theorem stats_of_validated_result (clk : clock) (data : jv) (fileType : FileType)
        (r : ValidationResult) :
  validateAndFix clk data fileType = Ok r ->
  let stats := Stats.getValidationStats r in
  (isValid r = true <-> Stats.criticalErrors stats = 0) /\
  Stats.criticalErrors stats =
    Stats.manualReviewNeeded stats + length (List.filter isLowConfidence (issues r)).
Proof.
  intros Hr. cbv zeta. unfold Stats.getValidationStats. simpl. split.
  - rewrite <- filter_isError_isSeverity.
    rewrite (isValid_of_result clk _ _ _ Hr), <- filter_isError_nil.
    by rewrite Nat.eqb_eq.
  - apply errors_split.
    pose proof (validateAndFix_issues clk _ _ _ Hr) as Hall.
    eapply Forall_impl; [exact Hall|]. by intros i (k & _ & _ & Hc & _).
Qed.

Lemma stats_of_validated_result_witness :
  exists r : ValidationResult,
    validateAndFix exampleClock batchWithoutTotal Json = Ok r /\
    (isValid r = true <-> Stats.criticalErrors (Stats.getValidationStats r) = 0) /\
    Stats.criticalErrors (Stats.getValidationStats r) =
      Stats.manualReviewNeeded (Stats.getValidationStats r) +
      length (List.filter isLowConfidence (issues r)).
Proof.
  destruct (validateAndFix exampleClock batchWithoutTotal Json) as [r|e] eqn:Hr;
    [|vm_compute in Hr; discriminate Hr].
  exists r. split; [reflexivity|].
  exact (stats_of_validated_result exampleClock batchWithoutTotal Json r Hr).
Defined.

(** * Counting the duplicates *)

Section duplicate_count.


End duplicate_count.



(** * The shape of the result for a batch *)

Lemma validateRecords_lengths (clk : clock) (records : list jv) :
  forall index fixedRecords iss seen origs fixeds iss',
    validateRecords clk index records fixedRecords iss seen = Ok (origs, fixeds, iss') ->
    length origs = length records /\ length fixeds = length records.
Proof.
  induction records as [|o records IH]; intros index fixedRecords iss seen origs fixeds iss';
    simpl.
  - by intros [= <- <- <-].
  - destruct (placeRecord o _) as [[ro rf] h].
    intros (st & Hst & Hrest)%bind_Ok_inv.
    apply bind_Ok_inv in Hrest as ([[origs' fixeds'] iss''] & Hrest & [= <- <- <-]).
    destruct (IH _ _ _ _ _ _ _ Hrest) as [Ho Hf]. simpl. by rewrite Ho, Hf.
Qed.

(** For a payload that is an array, the original and the fixed data of
    the result are arrays with one element for each record of the payload,
    also for the elements that are no objects. *)
Theorem batch_result_has_one_record_each (clk : clock) (records : list jv)
        (fileType : FileType) (r : ValidationResult) :
  validateAndFix clk (JArr records) fileType = Ok r ->
  exists origs fixeds : list jv,
    originalData r = JArr origs /\ fixedData r = JArr fixeds /\
    length origs = length records /\ length fixeds = length records.
Proof.
  unfold validateAndFix. cbn [unwrapTop jsonClone asList reassemble].
  intros ([[origs fixeds] iss] & Hrun & [= <-])%bind_Ok_inv. simpl.
  exists origs, fixeds. repeat split; by apply (validateRecords_lengths _ _ _ _ _ _ _ _ _ Hrun).
Qed.

Lemma batch_result_has_one_record_each_witness :
  exists (r : ValidationResult) (origs fixeds : list jv),
    validateAndFix exampleClock batchWithDuplicate Json = Ok r /\
    originalData r = JArr origs /\ fixedData r = JArr fixeds /\
    length origs = 3 /\ length fixeds = 3.
Proof.
  destruct (validateAndFix exampleClock batchWithDuplicate Json) as [r|e] eqn:Hr;
    [|vm_compute in Hr; discriminate Hr].
  destruct (batch_result_has_one_record_each exampleClock _ Json r Hr)
    as (origs & fixeds & Ho & Hf & Hlo & Hlf).
  exists r, origs, fixeds. repeat split; done.
Defined.

(** * Records of the payload and their callbacks *)

Section at_record.

Variable clk : clock.

(** The callback of the record at position [i] of the payload, and its
    issues in the result. *)
Lemma validateAndFix_at (data : jv) (fileType : FileType) (r : ValidationResult)
      (i : nat) (o : jv) :
  validateAndFix clk data fileType = Ok r ->
  payloadRecords data !! i = Some o ->
  exists ro rf h issi seeni st fixeds,
    placeRecord o (cloneElem o) = (ro, rf, h) /\
    processRecord clk i ro rf (State h issi seeni) = Ok st /\
    fixeds !! i = Some (contentOf (st_heap st) rf) /\
    fixedData r = match data with
                  | JArr _ => JArr fixeds
                  | _ => default JUndef (head fixeds)
                  end /\
    exists later, issues r = st_issues st ++ later.
Proof.
  unfold validateAndFix, payloadRecords. intros Hr Hi.
  destruct (jsonClone (unwrapTop data)) as [fixedData0|] eqn:Hc; [|done].
  rewrite (asList_jsonClone _ _ Hc) in Hr.
  apply bind_Ok_inv in Hr as ([[origs fixeds] iss] & Hrecs & [= <-]).
  destruct (validateRecords_at clk _ _ _ _ _ _ _ _ _ Hrecs Hi)
    as (ro & rf & h & issi & seeni & st & Hp & Hst & Hf & later & ->).
  exists ro, rf, h, issi, seeni, st, fixeds. simpl. eauto 10.
Qed.

(** The issues of the check of the mandatory fields stay in the list. *)
Lemma processRecord_mandatory index ro rf st0 st record fixedRecord st1 fld :
  processRecord clk index ro rf st0 = Ok st ->
  enterRecord ro rf st0 = (record, fixedRecord, st1) ->
  In fld (validateMandatoryFields (st_heap st1) record) ->
  In (mandatoryIssue index fld) (st_issues st).
Proof.
  intros (record' & fixedRecord' & st1' & st3 & st4 & st7 & st8 & st9 &
          He & H3 & H4 & H7 & H8 & H9 & ->)%processRecord_trace.
  rewrite He. intros [= <- <- <-] Hfld.
  assert (H2 : In (mandatoryIssue index fld) (st_issues (checkMandatory index record' st1'))).
  { unfold checkMandatory. revert Hfld.
    generalize (validateMandatoryFields (st_heap st1') record'). intros flds.
    generalize st1'. induction flds as [|f flds IH]; intros s; simpl; [done|].
    intros [->|Hin]; [|by apply IH].
    assert (Hkeep : forall fs s' x, In x (st_issues s') ->
              In x (st_issues (fold_left (fun st fld => pushIssue (mandatoryIssue index fld) st)
                                         fs s'))).
    { induction fs as [|f' fs IHfs]; intros s' x Hx; simpl; [done|].
      apply IHfs. unfold pushIssue. simpl. apply in_or_app. by left. }
    apply Hkeep. unfold pushIssue. simpl. apply in_or_app. right. apply in_eq. }
  destruct (checkInvoiceNumber_pushes _ _ _ _ H3) as (_ & new3 & Hnew3 & _).
  pose proof (widen _ _ _ _ _ (checkCurrency_pushes _ _ _ _ _ H4) eq_refl) as E4.
  pose proof (widen _ _ _ _ _ (checkTpin_pushes index record' fixedRecord' st4) eq_refl) as E5.
  pose proof (widen _ _ _ _ _ (checkDates_pushes clk index record' fixedRecord'
                                 (checkTpin index record' fixedRecord' st4)) eq_refl) as E6.
  pose proof (widen _ _ _ _ _ (checkVatRate_pushes _ _ _ _ _ H7) eq_refl) as E7.
  pose proof (widen _ _ _ _ _ (checkLineItems_pushes _ _ _ _ _ H8) eq_refl) as E8.
  pose proof (widen _ _ _ _ _ (checkTotals_pushes _ _ _ _ _ H9) eq_refl) as E9.
  pose proof (widen _ _ _ _ _ (checkSchema_pushes index record' st9) eq_refl) as E10.
  pose proof (evolves_trans _ _ _ E4 (evolves_trans _ _ _ E5 (evolves_trans _ _ _ E6
    (evolves_trans _ _ _ E7 (evolves_trans _ _ _ E8 (evolves_trans _ _ _ E9 E10)))))) as E.
  destruct (evolves_issues _ _ E) as (new4 & Hnew4 & _).
  rewrite Hnew4, Hnew3. apply in_or_app. left. apply in_or_app. by left.
Qed.

(** A result with an issue of severity [error] is not valid. *)
Lemma isValid_false (data : jv) (fileType : FileType) (r : ValidationResult)
      (i : ValidationIssue) :
  validateAndFix clk data fileType = Ok r ->
  In i (issues r) -> severity i = SevError -> isValid r = false.
Proof.
  intros Hr Hin Hsev. apply not_true_is_false. intros Hv.
  apply (isValid_of_result clk _ _ _ Hr) in Hv.
  rewrite List.Forall_forall in Hv. by apply (Hv i).
Qed.

(** The issue of a missing field of the record at position [i]. *)
Lemma missing_field_reported (data : jv) (fileType : FileType) (r : ValidationResult)
      (i : nat) (o : jv) (fld : string) :
  validateAndFix clk data fileType = Ok r ->
  payloadRecords data !! i = Some o ->
  In fld (missingFields o) ->
  In (mandatoryIssue i fld) (issues r) /\ isValid r = false.
Proof.
  intros Hr Hi Hfld.
  destruct (validateAndFix_at _ _ _ _ _ Hr Hi)
    as (ro & rf & h & issi & seeni & st & fixeds & Hp & Hst & _ & _ & later & Hlater).
  unfold missingFields, recordStart in Hfld. rewrite Hp in Hfld.
  pose proof (enterRecord_indep ro rf h issi seeni) as He.
  destruct (enterRecord ro rf (State h [] ∅)) as [[record fixedRecord] st1].
  pose proof (processRecord_mandatory _ _ _ _ _ _ _ _ fld Hst He Hfld) as Hin.
  assert (Hin' : In (mandatoryIssue i fld) (issues r)).
  { rewrite Hlater. apply in_or_app. by left. }
  split; [exact Hin'|]. by apply (isValid_false _ _ _ _ Hr Hin').
Qed.

End at_record.

(** A mandatory field that the check of the mandatory fields finds missing
    in a record of the payload is reported: the result has the issue of
    the missing field for this record, and it is not valid. *)
Theorem missing_mandatory_field_invalid (clk : clock) (data : jv) (fileType : FileType)
        (r : ValidationResult) (i : nat) (o : jv) (fld : string) :
  validateAndFix clk data fileType = Ok r ->
  payloadRecords data !! i = Some o ->
  In fld (missingFields o) ->
  In (Issue SevError (fld +:+ recordLabel i)
            "Mandatory field missing per ZRA requirements"
            (JStr "missing") (JStr "REQUIRED") false High CatMandatory)
     (issues r) /\
  isValid r = false.
Proof. apply missing_field_reported. Qed.

Lemma missing_mandatory_field_invalid_witness :
  exists r : ValidationResult,
    validateAndFix exampleClock batchWithoutTotal Json = Ok r /\
    In (Issue SevError "GrandTotal (Record 2)"
              "Mandatory field missing per ZRA requirements"
              (JStr "missing") (JStr "REQUIRED") false High CatMandatory)
       (issues r) /\
    isValid r = false.
Proof.
  eexists. split; [vm_compute; reflexivity|].
  eapply (missing_mandatory_field_invalid exampleClock batchWithoutTotal Json _ 1 _ "GrandTotal");
    [vm_compute; reflexivity|reflexivity|vm_compute; tauto].
Defined.

(** * The record as the callback enters it *)

Section entered_record.

Implicit Types (h : heap) (st : state).

Lemma unwrapRecord_inner h ro f (kts : list (string * jv)) :
  repr h ro (JObj kts) ->
  repr h (fst (unwrapRecord h ro f)) (innerRecord (JObj kts)).
Proof.
  intros Hro. unfold unwrapRecord.
  inversion Hro as [| | | | | |l kvs kts0 Hl Hkvs]; subst.
  unfold keysOf. simpl. rewrite Hl.
  destruct kvs as [|[k0 v0] [|kv1 kvs]]; simpl.
  - inversion Hkvs; subst. done.
  - inversion Hkvs as [|? [k1 t1] ? ? [Hk Hv0] Hnil]; subst. inversion Hnil; subst.
    simpl in Hk, Hv0. subst k1.
    assert (Hg : getProp h (VRef l) k0 = v0).
    { unfold getProp. simpl. rewrite Hl. unfold lookupProp. simpl.
      by rewrite String.eqb_refl. }
    rewrite Hg, (repr_isObject _ _ _ Hv0).
    destruct t1; simpl; done.
  - inversion Hkvs as [|? kt0 ? ? _ Hrest]; subst.
    inversion Hrest; subst. destruct kt0 as [k t]. by destruct t.
Qed.

Lemma asRecord_heap x st : exists ext, st_heap (snd (asRecord x st)) = st_heap st ++ ext.
Proof.
  unfold asRecord. destruct (isObject _ _); simpl; [exists []; by rewrite app_nil_r|eauto].
Qed.

Lemma asRecord_repr x st (t : jv) :
  repr (st_heap st) x t ->
  repr (st_heap (snd (asRecord x st))) (fst (asRecord x st))
       (match t with JObj _ => t | _ => JObj [("value", t)] end).
Proof.
  intros Hx. unfold asRecord. rewrite (repr_isObject _ _ _ Hx).
  destruct (isJObj t) eqn:Ht; simpl.
  - by destruct t.
  - assert (Hw : repr (st_heap st ++ [CObj [("value", x)]]) (VRef (length (st_heap st)))
                      (JObj [("value", t)])).
    { eapply repr_obj; [by rewrite lookup_app_r, Nat.sub_diag by lia|].
      constructor; [|constructor]. split; [done|]. by apply repr_mono. }
    by destruct t.
Qed.

Lemma enterRecord_inner h (o : jv) ro rf iss seen record fixedRecord st1 :
  repr h ro o ->
  enterRecord ro rf (State h iss seen) = (record, fixedRecord, st1) ->
  repr (st_heap st1) record (innerRecord o).
Proof.
  intros Hro. unfold enterRecord.
  pose proof (asRecord_repr ro (State h iss seen) o Hro) as H0.
  destruct (asRecord ro (State h iss seen)) as [record0 st0]. simpl in H0.
  destruct (asRecord_heap rf st0) as [ext Hext].
  destruct (asRecord rf st0) as [fixedRecord0 st1']. simpl in Hext.
  apply (repr_mono _ _ ext) in H0. rewrite <- Hext in H0.
  assert (Hin : exists kts, (match o with JObj _ => o | _ => JObj [("value", o)] end) = JObj kts /\
                            innerRecord (JObj kts) = innerRecord o).
  { destruct o; eauto. }
  destruct Hin as (kts & Hk & Hi). rewrite Hk in H0.
  pose proof (unwrapRecord_inner _ _ fixedRecord0 _ H0) as Hu.
  destruct (unwrapRecord _ _ _) as [record' fixedRecord']. simpl in Hu.
  intros [= <- <- <-]. by rewrite <- Hi.
Qed.

Lemma repr_isNullish h v (t : jv) : repr h v t -> isNullish v = isNullishJ t.
Proof. by destruct 1. Qed.

Lemma repr_coalesce h a b (ta tb : jv) :
  repr h a ta -> repr h b tb -> repr h (coalesce a b) (coalesceJ ta tb).
Proof.
  intros Ha Hb. unfold coalesce, coalesceJ. rewrite (repr_isNullish _ _ _ Ha).
  by destruct (isNullishJ ta).
Qed.

Lemma getProp_repr_jprop h r (t : jv) k :
  repr h r t -> isJObj t = true -> repr h (getProp h r k) (jprop k t).
Proof.
  intros Hr Ht. destruct t as [| | | | | |kts]; try done.
  inversion Hr as [| | | | | |l kvs kts0 Hl Hkvs]; subst.
  unfold getProp. simpl. rewrite Hl. by apply lookup_repr.
Qed.

(** The check of the mandatory fields on the store and on the document. *)
Lemma validateMandatoryFields_repr h r (t : jv) :
  repr h r t -> isJObj t = true ->
  validateMandatoryFields h r = List.filter (missingIn t) MANDATORY_INVOICE_FIELDS.
Proof.
  intros Hr Ht. unfold validateMandatoryFields.
  apply List.filter_ext. intros fld. unfold mandatoryValue, missingIn.
  rewrite (repr_isObject _ _ _ Hr), Ht.
  pose proof (repr_coalesce _ _ _ _ _
    (repr_coalesce _ _ _ _ _ (getProp_repr_jprop h r t fld Hr Ht)
                   (getProp_repr_jprop h r t (toLowerCase fld) Hr Ht))
    (getProp_repr_jprop h r t (lowerFirst fld) Hr Ht)) as Hv.
  by destruct Hv.
Qed.

Lemma innerRecord_isJObj (o : jv) : isJObj (innerRecord o) = true.
Proof. destruct o as [| | | | | |kts]; try done. by destruct kts as [|[k []] [|]]. Qed.

(** The missing fields of a record are those of the object the rules
    read. *)
Lemma missingFields_inner (o : jv) :
  missingFields o = List.filter (missingIn (innerRecord o)) MANDATORY_INVOICE_FIELDS.
Proof.
  unfold missingFields, recordStart.
  destruct (placeRecord o (cloneElem o)) as [[ro rf] h] eqn:Hp.
  destruct (place_repr _ _ _ _ _ Hp) as [Hro Hrf].
  destruct (enterRecord ro rf (State h [] ∅)) as [[record fixedRecord] st1] eqn:He.
  apply (validateMandatoryFields_repr _ _ (innerRecord o)).
  - by eapply enterRecord_inner.
  - apply innerRecord_isJObj.
Qed.

End entered_record.

(** * Rows of line items from a CSV file *)

(** The rows of a CSV file whose first row has one of the names of a line
    item ([Quantity], [UnitPrice], [LineTotal] or their lower-case forms)
    are validated as the line items of one invoice without a header: the
    result reports each of the six mandatory fields as missing for the
    record 1, and it is never valid. *)
Theorem csv_line_items_never_valid (clk : clock) (first : jv) (rest : list jv)
        (r : ValidationResult) :
  hasLineItemKeys first = Ok true ->
  processFile clk Csv (JArr (first :: rest)) = Ok r ->
  isValid r = false /\
  forall fld : string,
    In fld MANDATORY_INVOICE_FIELDS ->
    In (Issue SevError (fld +:+ " (Record 1)")
              "Mandatory field missing per ZRA requirements"
              (JStr "missing") (JStr "REQUIRED") false High CatMandatory)
       (issues r).
Proof.
  intros Hkeys. unfold processFile, wrapLineItemRows.
  destruct first as [| | | | | |props]; try discriminate Hkeys.
  cbn [truthyJ]. rewrite Hkeys.
  rewrite bind_Ok. cbv beta iota. rewrite bind_Ok.
  intros Hr.
  set (o := JObj [("LineItems", JArr (JObj props :: rest))]) in *.
  assert (Hmiss : missingFields o = MANDATORY_INVOICE_FIELDS).
  { rewrite missingFields_inner. reflexivity. }
  split.
  - apply (missing_field_reported clk o Csv r 0 o "TPIN" Hr); [reflexivity|].
    rewrite Hmiss. simpl. tauto.
  - intros fld Hfld.
    apply (missing_field_reported clk o Csv r 0 o fld Hr); [reflexivity|]. by rewrite Hmiss.
Qed.


Lemma csv_line_items_never_valid_witness :
  exists r : ValidationResult,
    processFile exampleClock Csv lineItemRows = Ok r /\
    isValid r = false /\
    In (Issue SevError "TPIN (Record 1)"
              "Mandatory field missing per ZRA requirements"
              (JStr "missing") (JStr "REQUIRED") false High CatMandatory)
       (issues r).
Proof.
  pose proof (csv_line_items_never_valid exampleClock
                (JObj [("Description", JStr "Widget"); ("Quantity", jnum 2);
                       ("UnitPrice", jnum 10)])
                [JObj [("Description", JStr "Gadget"); ("Quantity", jnum 1);
                       ("UnitPrice", jnum 5)]]) as H.
  destruct (processFile exampleClock Csv lineItemRows) as [r|e] eqn:Hr;
    [|vm_compute in Hr; discriminate Hr].
  exists r. split; [reflexivity|].
  destruct (H r eq_refl Hr) as [Hv Hm].
  split; [exact Hv|apply (Hm "TPIN"); simpl; tauto].
Defined.

(** * The fields of the fixed record *)

Section kept_fields.

Variable clk : clock.
Implicit Types (h : heap) (st : state) (k : string).

Lemma keepsFields_writeStable l (kvs : list (string * value)) :
  writeStable (inKeys writtenKeys) (keepsFields l kvs).
Proof.
  intros h l' k v Hk (ps & Hl & Hkeys & Hvals).
  destruct (decide (l' = l)) as [->|Hne].
  - exists (assignProp k v ps). split; [by apply setProp_lookup_obj|]. split.
    + intros k' Hk'. rewrite hasKey_assignProp, (Hkeys k' Hk'). done.
    + intros k' Hk'. rewrite lookupProp_assignProp_ne; [by apply Hvals|].
      intros ->. congruence.
  - exists ps. by rewrite setProp_lookup_ne.
Qed.

Lemma keepsFields_allocStable l (kvs : list (string * value)) :
  allocStable (keepsFields l kvs).
Proof.
  intros h c _ (ps & Hl & Hkeys & Hvals). exists ps.
  split; [by apply lookup_app_l_Some|done].
Qed.

(** A property of the store that no write of a rule breaks holds after
    the callback. *)
Lemma processRecord_heap (P : heap -> Prop) index ro rf st0 st :
  writeStable (inKeys writtenKeys) P -> allocStable P ->
  processRecord clk index ro rf st0 = Ok st ->
  P (st_heap st0) -> P (st_heap st).
Proof.
  intros HW HA Hrun H0.
  destruct (processRecord_steps clk _ _ _ _ _ Hrun)
    as (record & fixedRecord & st1 & st3 & st4 & He & H3 & H4 & Ht).
  assert (Hsub : forall ks, forallb (inKeys writtenKeys) ks = true ->
                            forall k, inKeys ks k = true -> inKeys writtenKeys k = true)
    by (intros ks; apply inKeys_sub).
  assert (Hstep : forall ks s s', forallb (inKeys writtenKeys) ks = true ->
                    evolves (inKeys ks) notDuplicate s s' -> P (st_heap s) -> P (st_heap s')).
  { intros ks s s' Hks Hev. apply (evolves_heap (K:=inKeys writtenKeys) (Q:=notDuplicate)); [done..|].
    eapply evolves_mono; [by apply Hsub|done|exact Hev]. }
  assert (H1 : P (st_heap st1)).
  { eapply (evolves_heap (K:=inKeys writtenKeys) (Q:=notDuplicate)); [done..| |exact H0].
    by eapply enterRecord_evolves. }
  assert (H3' : P (st_heap st3)).
  { by rewrite (checkInvoiceNumber_heap _ _ _ _ H3), checkMandatory_heap. }
  assert (H4' : P (st_heap st4)).
  { apply (Hstep currencyKeys st3); [done| |done].
    exact (checkCurrency_evolves _ _ _ _ _ H4). }
  apply (Hstep (dateKeys ++ vatRateKeys ++ lineItemsKeys ++ lineTotalKeys ++ totalsKeys)
                (checkTpin index record fixedRecord st4)); [done|exact Ht|].
  apply (Hstep tpinKeys st4); [done| |done]. apply checkTpin_evolves.
Qed.

Lemma hasKey_In k (ps : list (string * value)) : hasKey k ps = true -> In k (map fst ps).
Proof.
  unfold hasKey. intros (kv & Hin & Heq)%existsb_exists.
  apply String.eqb_eq in Heq as ->. by apply in_map.
Qed.

Lemma lookupProp_hasKey k (ps : list (string * value)) :
  lookupProp k ps <> VUndef -> hasKey k ps = true.
Proof.
  unfold lookupProp, hasKey. induction ps as [|[k0 v0] ps IH]; simpl; [done|].
  destruct (String.eqb k k0); simpl; [done|apply IH].
Qed.

Lemma repr_reify_prim h h' fuel v (t : jv) :
  repr h v t -> isNode t = false -> reify fuel h' v = t.
Proof. destruct 1; try done; by destruct fuel. Qed.

Lemma jsonClone_not_undef (t c : jv) : jsonClone t = Some c -> c <> JUndef.
Proof. destruct t; simpl; intros [= <-]; done. Qed.

Lemma jsonClone_prim (t : jv) : isNode t = false -> t <> JUndef -> jsonClone t = Some t.
Proof. by destruct t. Qed.

(** The fixed record of an object of the payload. *)
Lemma fixed_record_fields (data : jv) (fileType : FileType) (r : ValidationResult)
      (i : nat) (props : list (string * jv)) :
  validateAndFix clk data fileType = Ok r ->
  payloadRecords data !! i = Some (JObj props) ->
  exists props' : list (string * jv),
    asList (fixedData r) !! i = Some (JObj props') /\
    (forall k, jprop k (JObj props) <> JUndef -> In k (map fst props')) /\
    (forall k, inKeys writtenKeys k = false -> isNode (jprop k (JObj props)) = false ->
               jprop k (JObj props) <> JUndef ->
               jprop k (JObj props') = jprop k (JObj props)).
Proof.
  intros Hr Hi.
  destruct (validateAndFix_at clk _ _ _ _ _ Hr Hi)
    as (ro & rf & h & issi & seeni & st & fixeds & Hp & Hst & Hf & Hfd & _).
  destruct (place_repr _ _ _ _ _ Hp) as [_ Hrf].
  change (cloneElem (JObj props)) with (JObj (cloneProps props)) in Hrf.
  inversion Hrf as [| | | | | |lf kvs kts0 Hl Hkvs]; subst.
  assert (H0 : keepsFields lf kvs (st_heap (State h issi seeni))) by (by exists kvs).
  apply (processRecord_heap (keepsFields lf kvs) _ _ _ _ _
           (keepsFields_writeStable lf kvs) (keepsFields_allocStable lf kvs) Hst) in H0.
  destruct H0 as (ps & Hps & Hkeys & Hvals).
  assert (Hc : contentOf (st_heap st) (VRef lf) =
               JObj (map (fun kv : string * value =>
                            (fst kv, reify (pred (length (st_heap st))) (st_heap st) (snd kv)))
                         ps)).
  { unfold contentOf. destruct (length (st_heap st)) as [|m] eqn:Hlen.
    { destruct (st_heap st); [by rewrite lookup_nil in Hps|discriminate Hlen]. }
    cbn [reify]. by rewrite Hps. }
  rewrite Hc in Hf. eexists. split; [|split].
  - rewrite Hfd. destruct (decide (isJArr data = true)) as [Harr|Harr].
    + destruct data; first [done|exact Hf].
    + rewrite payloadRecords_single in Hi by done.
      destruct i; [|done]. simpl in Hf.
      destruct fixeds as [|f0 fixeds]; [done|]. simpl in Hf. injection Hf as ->.
      destruct data; first [done|reflexivity].
  - intros k Hk. rewrite map_map. simpl.
    apply hasKey_In, Hkeys, lookupProp_hasKey.
    destruct (jsonClone_defined _ Hk) as [c Hcl].
    pose proof (lookup_repr h k _ _ Hkvs) as Hv.
    rewrite (jlookup_cloneProps _ _ _ Hcl) in Hv.
    intros Hu. rewrite Hu in Hv. inversion Hv as [Hc'| | | | | |]. symmetry in Hc'.
    by apply (jsonClone_not_undef _ _ Hcl).
  - intros k Hk Hprim Hdef.
    rewrite jprop_reify, (Hvals k Hk).
    pose proof (lookup_repr h k _ _ Hkvs) as Hv.
    rewrite (jlookup_cloneProps _ _ _ (jsonClone_prim _ Hprim Hdef)) in Hv.
    by apply (repr_reify_prim h).
Qed.

End kept_fields.

(** The fixed record of a record of the payload that is an object is an
    object that has every field of the record that is not undefined, and
    a field whose name is none of the names the rules write ([writtenKeys])
    and whose value is a string, a boolean or null has the same value in
    the fixed record. *)
Theorem unknown_fields_pass_through (clk : clock) (data : jv) (fileType : FileType)
        (r : ValidationResult) (i : nat) (props : list (string * jv)) :
  validateAndFix clk data fileType = Ok r ->
  payloadRecords data !! i = Some (JObj props) ->
  exists props' : list (string * jv),
    asList (fixedData r) !! i = Some (JObj props') /\
    (forall k, jprop k (JObj props) <> JUndef -> In k (map fst props')) /\
    (forall k, inKeys writtenKeys k = false ->
               isTextFlagOrNull (jprop k (JObj props)) = true ->
               jprop k (JObj props') = jprop k (JObj props)).
Proof.
  intros Hr Hi.
  destruct (fixed_record_fields clk data fileType r i props Hr Hi)
    as (props' & Hf & Hkeys & Hvals).
  exists props'. split; [done|]. split; [done|].
  intros k Hk Hv. apply Hvals; [done| |]; by destruct (jprop k (JObj props)).
Qed.

Lemma unknown_fields_pass_through_witness :
  exists (r : ValidationResult) (props' : list (string * jv)),
    validateAndFix exampleClock numericTpinInvoice Json = Ok r /\
    asList (fixedData r) !! 0 = Some (JObj props') /\
    In "TPIN" (map fst props') /\
    jprop "InvoiceNumber" (JObj props') = JStr "INV-7".
Proof.
  destruct (validateAndFix exampleClock numericTpinInvoice Json) as [r|e] eqn:Hr;
    [|vm_compute in Hr; discriminate Hr].
  destruct (unknown_fields_pass_through exampleClock numericTpinInvoice Json r 0
              [("TPIN", jnum 1234567890); ("InvoiceNumber", JStr "INV-7")] Hr eq_refl)
    as (props' & Hf & Hkeys & Hvals).
  exists r, props'. split; [reflexivity|]. split; [exact Hf|]. split.
  - apply Hkeys. discriminate.
  - apply (Hvals "InvoiceNumber"); reflexivity.
Defined.

(** * A taxpayer ID that is valid already *)

Section valid_tpin.

Variable clk : clock.
Implicit Types (h : heap) (st : state) (k s : string).

Lemma tpinKept_writeStable r f k s :
  inKeys tpinKeys k = true -> writeStable notTpin (tpinKept r f k s).
Proof.
  intros Hk h l k' v Hk' (Ha & Hv & Hf).
  assert (Hne : forall k0, inKeys tpinKeys k0 = true -> k' <> k0).
  { intros k0 Hk0 ->. unfold notTpin in Hk'. by rewrite Hk0 in Hk'. }
  unfold tpinKept, tpinAlias in *.
  rewrite !(getProp_setProp_ne _ _ "TPIN"), !(getProp_setProp_ne _ _ "tpin"),
    !(getProp_setProp_ne _ _ "TaxpayerTIN") by (by apply Hne).
  split; [done|]. rewrite !(getProp_setProp_ne _ _ k) by (by apply Hne). done.
Qed.

Lemma tpinKept_allocStable r f k s : allocStable (tpinKept r f k s).
Proof.
  intros h c _ (Ha & Hv & Hf).
  assert (Hr : isObject h r = true) by (apply (getProp_defined_isObject h r k); by rewrite Hv).
  assert (Hf' : isObject h f = true) by (apply (getProp_defined_isObject h f k); by rewrite Hf).
  unfold tpinKept, tpinAlias in *. by rewrite !getProp_app by done.
Qed.

(** The rule leaves a string of ten digits alone. *)
Lemma checkTpin_kept index record fixedRecord k s st :
  tpinKept record fixedRecord k s (st_heap st) ->
  String.length s = 10 -> forallS isDigit s = true ->
  checkTpin index record fixedRecord st = st.
Proof.
  intros (Ha & Hv & _) Hlen Hdig. unfold checkTpin. rewrite Ha, Hv.
  change (extractPrimitive (st_heap st) (VStr s)) with (VStr s).
  change (contentOf (st_heap st) (VStr s)) with (reify (length (st_heap st)) (st_heap st) (VStr s)).
  rewrite reify_prim by done. cbn [reify].
  rewrite (normalizeTpin_of_ten_digits s Hlen Hdig). simpl.
  by rewrite bool_decide_eq_true_2.
Qed.

Lemma enterRecord_string h ro rf (kts : list (string * jv)) k s iss seen :
  repr h ro (JObj kts) -> repr h rf (cloneElem (JObj kts)) ->
  jlookup k kts = JStr s ->
  enterRecord ro rf (State h iss seen) = (ro, rf, State h iss seen).
Proof.
  intros Hro Hrf Hk. unfold enterRecord, asRecord. cbn [st_heap].
  rewrite (repr_isObject _ _ _ Hro). cbn [st_heap isJObj].
  rewrite (repr_isObject _ _ _ Hrf), cloneElem_isJObj. cbn [st_heap isJObj].
  unfold unwrapRecord.
  destruct (keysOf h ro) as [|inner [|]] eqn:Hkeys; try done.
  destruct (isObject h (getProp h ro inner)) eqn:Hinner; [|done].
  exfalso.
  inversion Hro as [| | | | | |l kvs kts0 Hl Hkvs]; subst.
  unfold keysOf in Hkeys. simpl in Hkeys. rewrite Hl in Hkeys.
  destruct kvs as [|[k0 v0] [|]]; try done. injection Hkeys as ->.
  inversion Hkvs as [|? [k1 t1] ? ? [Hk1 Hv0] Hnil]; subst. inversion Hnil; subst.
  simpl in Hk1. subst k1. simpl in Hv0.
  unfold getProp in Hinner. simpl in Hinner. rewrite Hl in Hinner.
  unfold lookupProp in Hinner. simpl in Hinner. rewrite String.eqb_refl in Hinner.
  simpl in Hinner. rewrite (repr_isObject _ _ _ Hv0) in Hinner.
  unfold jlookup, jprop in Hk. simpl in Hk.
  destruct (String.eqb k inner); simpl in Hk; [|done].
  subst t1. done.
Qed.

Lemma widen_to (cats cats' : list Category) index st st' (K : string -> bool) :
  evolves K (issueBy cats index) st st' ->
  forallb (inCats cats') cats = true ->
  evolves anyKey (issueBy cats' index) st st'.
Proof.
  intros Hev Hsub. revert Hev. apply evolves_mono; [done|]. intros i. apply issueBy_mono.
  intros c Hc. unfold inCats in Hc. apply existsb_exists in Hc as (c' & Hin & Heq).
  apply bool_decide_eq_true in Heq as <-.
  rewrite forallb_forall in Hsub. by apply Hsub.
Qed.

(** The callback on a record whose taxpayer ID is a string of ten digits:
    no rule reports the taxpayer ID, and the fixed record keeps it. *)
Lemma processRecord_tpin_kept index ro rf h (kts : list (string * jv)) k s iss seen st :
  repr h ro (JObj kts) -> repr h rf (cloneElem (JObj kts)) ->
  tpinAliasOf kts = Some k -> jlookup k kts = JStr s ->
  String.length s = 10 -> forallS isDigit s = true ->
  processRecord clk index ro rf (State h iss seen) = Ok st ->
  (exists new, st_issues st = iss ++ new /\ Forall (issueBy noTpinCats index) new) /\
  getProp (st_heap st) rf k = VStr s.
Proof.
  intros Hro Hrf Ha Hk Hlen Hdig Hrun.
  pose proof (tpinAliasOf_keys _ _ Ha) as Hkey.
  destruct (processRecord_trace clk _ _ _ _ _ Hrun)
    as (record & fixedRecord & st1 & st3 & st4 & st7 & st8 & st9 &
        He & H3 & H4 & H7 & H8 & H9 & ->).
  destruct (processRecord_steps clk _ _ _ _ _ Hrun)
    as (record' & fixedRecord' & st1' & st3' & st4' & He' & H3' & H4' & Ht).
  rewrite (enterRecord_string _ _ _ _ _ _ _ _ Hro Hrf Hk) in He, He'.
  injection He as <- <- <-. injection He' as <- <- <-.
  rewrite H3 in H3'. injection H3' as <-. rewrite H4 in H4'. injection H4' as <-.
  assert (H0 : tpinKept ro rf k s h).
  { split; [by rewrite (tpinAlias_repr _ _ _ Hro)|]. split.
    - pose proof (getProp_repr _ _ _ k Hro) as Hv. rewrite Hk in Hv. by inversion Hv.
    - change (cloneElem (JObj kts)) with (JObj (cloneProps kts)) in Hrf.
      pose proof (getProp_repr _ _ _ k Hrf) as Hv.
      rewrite (jlookup_cloneProps k kts (JStr s)) in Hv by (by rewrite Hk).
      by inversion Hv. }
  assert (Hstep : forall ks (sa sb : state),
            forallb (fun k => negb (inKeys tpinKeys k)) ks = true ->
            evolves (inKeys ks) notDuplicate sa sb ->
            tpinKept ro rf k s (st_heap sa) -> tpinKept ro rf k s (st_heap sb)).
  { intros ks sa sb Hks Hev.
    apply (evolves_heap (K:=notTpin) (Q:=notDuplicate));
      [by apply tpinKept_writeStable|apply tpinKept_allocStable|].
    eapply evolves_mono; [|done|exact Hev]. by apply inKeys_disjoint. }
  set (st2 := checkMandatory index ro (State h iss seen)) in *.
  assert (K3 : tpinKept ro rf k s (st_heap st3)).
  { rewrite (checkInvoiceNumber_heap _ _ _ _ H3). unfold st2.
    by rewrite checkMandatory_heap. }
  assert (K4 : tpinKept ro rf k s (st_heap st4)).
  { apply (Hstep currencyKeys st3); [done| |done].
    exact (checkCurrency_evolves _ _ _ _ _ H4). }
  rewrite (checkTpin_kept index ro rf k s st4 K4 Hlen Hdig) in Ht, H7.
  split.
  - pose proof (widen_to _ noTpinCats _ _ _ _
                  (checkMandatory_pushes index ro (State h iss seen)) eq_refl) as E2.
    fold st2 in E2.
    destruct (checkInvoiceNumber_pushes _ _ _ _ H3) as (_ & new3 & Hnew3 & HQ3).
    pose proof (widen_to _ noTpinCats _ _ _ _
                  (checkCurrency_pushes _ _ _ _ _ H4) eq_refl) as E4.
    pose proof (widen_to _ noTpinCats _ _ _ _
                  (checkDates_pushes clk index ro rf st4) eq_refl) as E6.
    pose proof (widen_to _ noTpinCats _ _ _ _
                  (checkVatRate_pushes _ _ _ _ _ H7) eq_refl) as E7.
    pose proof (widen_to _ noTpinCats _ _ _ _
                  (checkLineItems_pushes _ _ _ _ _ H8) eq_refl) as E8.
    pose proof (widen_to _ noTpinCats _ _ _ _
                  (checkTotals_pushes _ _ _ _ _ H9) eq_refl) as E9.
    pose proof (widen_to _ noTpinCats _ _ _ _
                  (checkSchema_pushes index ro st9) eq_refl) as E10.
    destruct (evolves_issues _ _ E2) as (new2 & Hnew2 & HQ2).
    pose proof (evolves_trans _ _ _ E4 (evolves_trans _ _ _ E6
      (evolves_trans _ _ _ E7 (evolves_trans _ _ _ E8 (evolves_trans _ _ _ E9 E10))))) as E.
    destruct (evolves_issues _ _ E) as (new4 & Hnew4 & HQ4).
    exists (new2 ++ new3 ++ new4). split.
    + rewrite Hnew4, Hnew3, Hnew2. simpl. by rewrite <- !app_assoc.
    + rewrite !Forall_app. repeat split; [done| |done].
      eapply Forall_impl; [exact HQ3|]. intros i. apply issueBy_mono. intros c.
      by destruct c.
  - by destruct (Hstep (dateKeys ++ vatRateKeys ++ lineItemsKeys ++ lineTotalKeys ++ totalsKeys)
                       _ _ eq_refl Ht K4) as (_ & _ & Hf).
Qed.

(** The callback of the record at position [i], and the issues of the
    other records before and after its own. *)
Lemma validateRecords_split (records : list jv) :
  forall index iss seen origs fixeds iss' i o,
    validateRecords clk index records (map cloneElem records) iss seen =
      Ok (origs, fixeds, iss') ->
    records !! i = Some o ->
    exists ro rf h before seeni st later,
      placeRecord o (cloneElem o) = (ro, rf, h) /\
      processRecord clk (index + i) ro rf (State h (iss ++ before) seeni) = Ok st /\
      fixeds !! i = Some (contentOf (st_heap st) rf) /\
      iss' = st_issues st ++ later /\
      Forall (fun x => exists j, j <> i /\ issueBy allCats (index + j) x) before /\
      Forall (fun x => exists j, j <> i /\ issueBy allCats (index + j) x) later.
Proof.
  induction records as [|o0 records IH]; intros index iss seen origs fixeds iss' i o; [done|].
  simpl. destruct (placeRecord o0 (cloneElem o0)) as [[ro rf] h] eqn:Hp.
  intros (st & Hst & Hrest)%bind_Ok_inv.
  apply bind_Ok_inv in Hrest as ([[origs' fixeds'] iss''] & Hrest & [= <- <- <-]).
  destruct i as [|i]; simpl.
  - intros [= <-]. exists ro, rf, h, [], seen, st. rewrite Nat.add_0_r, app_nil_r.
    destruct (validateRecords_issues clk _ _ _ _ _ _ _ _ Hrest) as (new & -> & HQ).
    exists new. repeat split; [done..|constructor|].
    eapply Forall_impl; [exact HQ|]. intros x (j & _ & Hx). exists (S j).
    rewrite Nat.add_succ_r. done.
  - intros Ho. destruct (processRecord_issues clk _ _ _ _ _ Hst) as (new1 & Hnew1 & HQ1).
    simpl in Hnew1. rewrite Hnew1 in Hrest.
    destruct (IH _ _ _ _ _ _ _ _ Hrest Ho)
      as (ro' & rf' & h' & before & seeni & st' & later & Hp' & Hst' & Hf & Hl & Hb & Ha).
    exists ro', rf', h', (new1 ++ before), seeni, st', later.
    rewrite Nat.add_succ_r, app_assoc. repeat split; try done.
    + apply Forall_app. split.
      * eapply Forall_impl; [exact HQ1|]. intros x Hx. exists 0. rewrite Nat.add_0_r. done.
      * eapply Forall_impl; [exact Hb|]. intros x (j & Hj & Hx). exists (S j).
        rewrite Nat.add_succ_r. split; [lia|done].
    + eapply Forall_impl; [exact Ha|]. intros x (j & Hj & Hx). exists (S j).
      rewrite Nat.add_succ_r. split; [lia|done].
Qed.

Lemma tpin_label_inj (k k' : string) (i j : nat) :
  inKeys tpinKeys k = true -> inKeys tpinKeys k' = true ->
  k +:+ recordLabel i = k' +:+ recordLabel j -> i = j.
Proof.
  unfold inKeys, tpinKeys. cbn [existsb]. rewrite !orb_false_r, !orb_true_iff.
  rewrite !String.eqb_eq.
  intros [->|[->| ->]] [->|[->| ->]] H; try discriminate H;
    by apply (inj (String.app _)), recordLabel_inj in H.
Qed.

(** A record whose taxpayer ID is a string of ten digits. *)
Lemma tpin_left_alone (data : jv) (fileType : FileType) (r : ValidationResult)
      (i : nat) (props : list (string * jv)) (k s : string) :
  validateAndFix clk data fileType = Ok r ->
  payloadRecords data !! i = Some (JObj props) ->
  tpinAliasOf props = Some k ->
  jprop k (JObj props) = JStr s ->
  String.length s = 10 -> forallS isDigit s = true ->
  (forall (issue : ValidationIssue) (alias : string),
     In issue (issues r) -> category issue = CatTpin ->
     inKeys tpinKeys alias = true -> field issue <> alias +:+ recordLabel i) /\
  exists fixedRecord : jv,
    asList (fixedData r) !! i = Some fixedRecord /\ jprop k fixedRecord = JStr s.
Proof.
  intros Hr Hi Ha Hk Hlen Hdig.
  pose proof Hr as Hrun. unfold validateAndFix in Hrun.
  destruct (jsonClone (unwrapTop data)) as [fixedData0|] eqn:Hc; [|done].
  rewrite (asList_jsonClone _ _ Hc) in Hrun.
  apply bind_Ok_inv in Hrun as ([[origs fixeds] iss] & Hrecs & [= <-]).
  destruct (validateRecords_split _ _ _ _ _ _ _ _ _ Hrecs Hi)
    as (ro & rf & h & before & seeni & st & later & Hp & Hst & Hf & -> & Hb & Hl).
  destruct (place_repr _ _ _ _ _ Hp) as [Hro Hrf].
  destruct (processRecord_tpin_kept _ _ _ _ _ _ _ _ _ _ Hro Hrf Ha Hk Hlen Hdig Hst)
    as [(new & Hnew & HQ) Hw].
  cbn [issues fixedData]. split.
  - intros issue alias Hin Hcat Halias Hfield.
    assert (Hother : forall x, (exists j, j <> i /\ issueBy allCats (0 + j) x) ->
                               x = issue -> False).
    { intros x (j & Hj & _ & _ & base & Hbase & Hfld) ->. rewrite Hcat in Hbase, Hfld.
      destruct Hfld as [Hfld|[Hamount _]]; [|done].
      rewrite Hfield in Hfld. apply Hj. symmetry.
      by apply (tpin_label_inj alias base i j). }
    rewrite Hnew, List.Forall_forall in *. simpl in Hin.
    apply in_app_or in Hin as [Hin|Hin]; [apply in_app_or in Hin as [Hin|Hin]|].
    + by apply (Hother issue (Hb issue Hin)).
    + destruct (HQ issue Hin) as (Hc' & _).
      rewrite Hcat in Hc'. done.
    + by apply (Hother issue (Hl issue Hin)).
  - assert (Hobj : isJObj (contentOf (st_heap st) rf) = true /\
                   jprop k (contentOf (st_heap st) rf) = JStr s)
      by (by apply contentOf_prop).
    destruct Hobj as [Hobj Hprop].
    exists (contentOf (st_heap st) rf). split; [|done].
    destruct (decide (isJArr data = true)) as [Harr|Harr].
    + by destruct data.
    + rewrite payloadRecords_single in Hi by done.
      destruct i; [|done]. simpl in Hf.
      assert (Hhead : head fixeds = Some (contentOf (st_heap st) rf)) by (by destruct fixeds).
      replace (match data with JArr _ => JArr fixeds | _ => default JUndef (head fixeds) end)
        with (contentOf (st_heap st) rf) by (rewrite Hhead; by destruct data).
      by destruct (contentOf (st_heap st) rf).
Qed.

End valid_tpin.

(** A record of the payload whose taxpayer-ID alias holds a string of
    exactly ten digits is left alone by the rule on the taxpayer ID: the
    result has no issue of category tpin on an alias of the taxpayer ID for
    this record, and the fixed record holds the same string under the
    alias. *)
Theorem valid_tpin_left_alone (clk : clock) (data : jv) (fileType : FileType)
        (r : ValidationResult) (i : nat) (props : list (string * jv)) (k s : string) :
  validateAndFix clk data fileType = Ok r ->
  payloadRecords data !! i = Some (JObj props) ->
  tpinAliasOf props = Some k ->
  jprop k (JObj props) = JStr s ->
  String.length s = 10 -> forallS isDigit s = true ->
  (forall (issue : ValidationIssue) (alias : string),
     In issue (issues r) -> category issue = CatTpin ->
     inKeys tpinKeys alias = true -> field issue <> alias +:+ recordLabel i) /\
  exists fixedRecord : jv,
    asList (fixedData r) !! i = Some fixedRecord /\ jprop k fixedRecord = JStr s.
Proof. apply tpin_left_alone. Qed.

Lemma valid_tpin_left_alone_witness :
  exists r : ValidationResult,
    validateAndFix exampleClock validTpinInvoice Json = Ok r /\
    (forall (issue : ValidationIssue) (alias : string),
       In issue (issues r) -> category issue = CatTpin ->
       inKeys tpinKeys alias = true -> field issue <> alias +:+ recordLabel 0) /\
    exists fixedRecord : jv,
      asList (fixedData r) !! 0 = Some fixedRecord /\
      jprop "TPIN" fixedRecord = JStr "1234567890".
Proof.
  eexists. split; [vm_compute; reflexivity|].
  apply (valid_tpin_left_alone exampleClock validTpinInvoice Json _ 0
           [("TPIN", JStr "1234567890"); ("InvoiceNumber", JStr "INV-8");
            ("InvoiceDate", JStr "5.3.2025")] "TPIN" "1234567890");
    [vm_compute; reflexivity|reflexivity..].
Defined.

(** * The argument of the call is not written to *)

Section placement.

Implicit Types (h : heap) (t : jv) (v : value).

Lemma refsIn_mono (a b a' b' : nat) v :
  a' <= a -> b <= b' -> refsIn a b v -> refsIn a' b' v.
Proof. intros Ha Hb Hv l Hl. specialize (Hv l Hl). lia. Qed.

Lemma Forall_refsIn_mono (a b a' b' : nat) (vs : list value) :
  a' <= a -> b <= b' -> Forall (refsIn a b) vs -> Forall (refsIn a' b') vs.
Proof.
  intros Ha Hb H. eapply Forall_impl; [exact H|]. intros v. by apply refsIn_mono.
Qed.

Lemma placedFrom_nil h : placedFrom (length h) h.
Proof.
  intros l c Hl Hc. apply lookup_lt_Some in Hc. lia.
Qed.

Lemma placedFrom_app (a : nat) h ha h1 (e : list cell) :
  h1 = ha ++ e -> a <= length ha ->
  placedFrom a ha -> placedFrom (length ha) h1 -> placedFrom a h1.
Proof.
  intros -> Ha H1 H2 l c Hl Hc.
  destruct (decide (l < length ha)) as [Hlt|Hge].
  - rewrite lookup_app_l in Hc by done. by apply H1.
  - eapply Forall_refsIn_mono; [| |apply (H2 l c)]; [lia|lia|lia|done].
Qed.

Lemma allocElems_placed (ts : list jv) :
  Forall allocPlaced ts ->
  forall h vs h1, allocElems alloc ts h = (vs, h1) ->
    length h <= length h1 /\
    Forall (refsIn (length h) (length h1)) vs /\ placedFrom (length h) h1.
Proof.
  induction 1 as [|t ts Ht _ IH]; intros h vs h1; simpl.
  - intros [= <- <-]. split; [done|]. split; [constructor|apply placedFrom_nil].
  - destruct (alloc t h) as [v ha] eqn:Hv.
    destruct (allocElems alloc ts ha) as [vs' h2] eqn:Hvs. intros [= <- <-].
    destruct (Ht _ _ _ Hv) as [Hr1 Hp1].
    destruct (IH _ _ _ Hvs) as (Hle2 & Hr2 & Hp2).
    destruct (alloc_spec _ _ _ _ Hv) as [[e1 He1] _].
    assert (Hle1 : length h <= length ha) by (rewrite He1, length_app; lia).
    assert (He2 : exists e2, h2 = ha ++ e2).
    { eapply allocElems_spec; [|exact Hvs]. apply List.Forall_forall. intros x _.
      apply alloc_spec. }
    destruct He2 as [e2 He2].
    split; [lia|]. split.
    + constructor; [by eapply refsIn_mono; [| |exact Hr1]|].
      by eapply Forall_refsIn_mono; [| |exact Hr2].
    + by eapply placedFrom_app.
Qed.

Lemma allocProps_placed (kts : list (string * jv)) :
  Forall (fun kt => allocPlaced (snd kt)) kts ->
  forall h kvs h1, allocProps alloc kts h = (kvs, h1) ->
    length h <= length h1 /\
    Forall (refsIn (length h) (length h1)) (map snd kvs) /\ placedFrom (length h) h1.
Proof.
  induction 1 as [|[k t] kts Ht _ IH]; intros h kvs h1; simpl.
  - intros [= <- <-]. split; [done|]. split; [constructor|apply placedFrom_nil].
  - destruct (alloc t h) as [v ha] eqn:Hv.
    destruct (allocProps alloc kts ha) as [kvs' h2] eqn:Hvs. intros [= <- <-].
    destruct (Ht _ _ _ Hv) as [Hr1 Hp1].
    destruct (IH _ _ _ Hvs) as (Hle2 & Hr2 & Hp2).
    destruct (alloc_spec _ _ _ _ Hv) as [[e1 He1] _].
    assert (Hle1 : length h <= length ha) by (rewrite He1, length_app; lia).
    assert (He2 : exists e2, h2 = ha ++ e2).
    { eapply allocProps_spec; [|exact Hvs]. apply List.Forall_forall. intros x _.
      apply alloc_spec. }
    destruct He2 as [e2 He2].
    split; [lia|]. split.
    + simpl. constructor; [by eapply refsIn_mono; [| |exact Hr1]|].
      by eapply Forall_refsIn_mono; [| |exact Hr2].
    + by eapply placedFrom_app.
Qed.

Lemma placedFrom_snoc (a : nat) h1 (c : cell) :
  a <= length h1 -> placedFrom a h1 -> Forall (refsIn a (length h1)) (cellValues c) ->
  placedFrom a (h1 ++ [c]).
Proof.
  intros Ha Hp Hc l c' Hl Hl'.
  destruct (decide (l < length h1)) as [Hlt|Hge].
  - rewrite lookup_app_l in Hl' by done. by apply Hp.
  - rewrite lookup_app_r in Hl' by lia.
    destruct (l - length h1) as [|m] eqn:Hm; [|done].
    injection Hl' as <-. assert (l = length h1) as -> by lia. done.
Qed.

(** The cells of a document are placed after the cells of the store,
    children first. *)
Lemma alloc_placed t : allocPlaced t.
Proof.
  induction t as [| | | | |elems IH|props IH] using jv_ind; intros h v h'; simpl;
    try (intros [= <- <-]; split; [done|apply placedFrom_nil]).
  - destruct (allocElems alloc elems h) as [vs h1] eqn:Hvs. intros [= <- <-].
    destruct (allocElems_placed _ IH _ _ _ Hvs) as (Hle & Hr & Hp).
    split.
    + intros l [= <-]. rewrite length_app. simpl. lia.
    + by apply placedFrom_snoc.
  - destruct (allocProps alloc props h) as [kvs h1] eqn:Hvs. intros [= <- <-].
    destruct (allocProps_placed _ IH _ _ _ Hvs) as (Hle & Hr & Hp).
    split.
    + intros l [= <-]. rewrite length_app. simpl. lia.
    + by apply placedFrom_snoc.
Qed.

(** The document of a value whose cells have not changed. *)
Lemma reify_frame h0 h' :
  placedFrom 0 h0 -> (forall l, l < length h0 -> h' !! l = h0 !! l) ->
  forall (l : nat) t (fuel : nat),
    repr h0 (VRef l) t -> l < fuel -> reify fuel h' (VRef l) = t.
Proof.
  intros Hp Hsame l. induction l as [l IH] using lt_wf_ind. intros t fuel Hr Hf.
  destruct fuel as [|fuel]; [lia|].
  assert (Hval : forall e t', refsIn 0 l e -> repr h0 e t' -> reify fuel h' e = t').
  { intros e t' He' Ht'.
    destruct e as [| | | | |l'].
    - inversion Ht'. by destruct fuel.
    - inversion Ht'. by destruct fuel.
    - inversion Ht'. by destruct fuel.
    - inversion Ht'. by destruct fuel.
    - inversion Ht'. by destruct fuel.
    - destruct (He' l' eq_refl) as [_ Hl']. apply IH; [done|done|lia]. }
  inversion Hr as [| | | | |l0 es ts Hl Hes|l0 kvs kts Hl Hkvs]; subst.
  - cbn [reify]. rewrite Hsame by (by eapply lookup_lt_Some). rewrite Hl. f_equal.
    pose proof (Hp l _ (Nat.le_0_l l) Hl) as Hrefs. simpl in Hrefs.
    clear Hl Hr. induction Hes as [|e t' es ts He _ IHes]; [done|].
    inversion Hrefs; subst. simpl. f_equal; [|by apply IHes].
    by apply Hval.
  - cbn [reify]. rewrite Hsame by (by eapply lookup_lt_Some). rewrite Hl. f_equal.
    pose proof (Hp l _ (Nat.le_0_l l) Hl) as Hrefs. simpl in Hrefs.
    clear Hl Hr. induction Hkvs as [|[k e] [k' t'] kvs kts [Hk He] _ IHes]; [done|].
    inversion Hrefs; subst. simpl in *. subst k'. f_equal; [|by apply IHes].
    f_equal. by apply Hval.
Qed.

Lemma contentOf_frame h0 h' v t :
  placedFrom 0 h0 -> length h0 <= length h' ->
  (forall l, l < length h0 -> h' !! l = h0 !! l) ->
  repr h0 v t -> contentOf h' v = t.
Proof.
  intros Hp Hlen Hsame Hr. unfold contentOf. destruct v as [| | | | |l].
  - inversion Hr. by destruct (length h').
  - inversion Hr. by destruct (length h').
  - inversion Hr. by destruct (length h').
  - inversion Hr. by destruct (length h').
  - inversion Hr. by destruct (length h').
  - apply (reify_frame h0 h' Hp Hsame l t); [done|].
    apply repr_valid in Hr as [c Hc]. apply lookup_lt_Some in Hc. lia.
Qed.

End placement.

Section where_rules_write.

Context {F : nat -> bool}.
Implicit Types (h : heap) (st : state) (v : value).

Lemma writes_trans st1 st2 st3 : writes F st1 st2 -> writes F st2 st3 -> writes F st1 st3.
Proof. intros H12 H23. induction H23; eauto using writes. Qed.

(** The cells outside [F] are not changed, and no cell is removed. *)
Lemma writes_frame st st' :
  writes F st st' ->
  length (st_heap st) <= length (st_heap st') /\
  forall l, F l = false -> l < length (st_heap st) ->
            st_heap st' !! l = st_heap st !! l.
Proof.
  induction 1 as [st|st st' i _ IH|st st' o k v _ [IHl IH] Ho Hv|st st' c _ [IHl IH]].
  - done.
  - done.
  - destruct o as [| | | | |l']; try done. simpl. rewrite length_setProp. split; [done|].
    intros l Hl Hlt. rewrite setProp_lookup_ne; [by apply IH|].
    intros ->. rewrite (Ho l eq_refl) in Hl. done.
  - simpl. rewrite length_app. split; [lia|].
    intros l Hl Hlt. rewrite lookup_app_l by lia. by apply IH.
Qed.

Lemma target_prim v : isRef v = false -> target F v.
Proof. intros Hv l ->. done. Qed.

Lemma target_assignProp k v (ps : list (string * value)) :
  target F v -> Forall (target F) (map snd ps) ->
  Forall (target F) (map snd (assignProp k v ps)).
Proof.
  intros Hv. induction ps as [|[k0 v0] ps IH]; simpl.
  - intros _. by constructor.
  - intros Hps. inversion Hps; subst. destruct (String.eqb k k0); simpl.
    + by constructor.
    + constructor; [done|by apply IH].
Qed.

Lemma closed_setProp l k v h :
  isRef v = false -> closed F h -> closed F (setProp l k v h).
Proof.
  intros Hv Hc l' Hl'. destruct (Hc l' Hl') as [Hlt Hcell].
  rewrite length_setProp. split; [done|]. intros c.
  destruct (decide (l = l')) as [->|Hne]; [|by rewrite setProp_lookup_ne; auto].
  destruct (h !! l') as [[ps|es]|] eqn:Hh.
  - rewrite (setProp_lookup_obj _ _ _ _ _ Hh). intros [= <-]. simpl.
    apply target_assignProp; [by apply target_prim|]. by apply (Hcell (CObj ps)).
  - unfold setProp. rewrite Hh. rewrite Hh. intros [= <-]. by apply (Hcell (CArr es)).
  - unfold setProp. rewrite Hh. by rewrite Hh.
Qed.

Lemma closed_app h (c : list cell) : closed F h -> closed F (h ++ c).
Proof.
  intros Hc l Hl. destruct (Hc l Hl) as [Hlt Hcell].
  rewrite length_app. split; [lia|]. intros c'. rewrite lookup_app_l by done. apply Hcell.
Qed.

Lemma writes_closed st st' :
  writes F st st' -> closed F (st_heap st) -> closed F (st_heap st').
Proof.
  induction 1 as [st|st st' i _ IH|st st' o k v _ IH Ho Hv|st st' c _ IH]; intros Hc.
  - done.
  - by apply IH.
  - destruct o as [| | | | |l']; try by apply IH. simpl. apply closed_setProp; auto.
  - simpl. apply closed_app. auto.
Qed.

Lemma wrO_ok st st' : writes F st st' -> writesO F st (Ok st').
Proof. intros H st'' [= <-]. done. Qed.

Lemma wrO_throw st (e : string) : writesO F st (Throw e).
Proof. intros st' [=]. Qed.

Lemma wrO_trans st0 st (m : outcome state) :
  writes F st0 st -> writesO F st m -> writesO F st0 m.
Proof. intros H0 Hm st' Hst'. eapply writes_trans; eauto. Qed.

Lemma wrO_bind st (m : outcome state) (f : state -> outcome state) :
  writesO F st m -> (forall x, writes F st x -> writesO F x (f x)) ->
  writesO F st (x ← m; f x).
Proof.
  intros Hm Hf st' Hst'. destruct m as [x|e]; simpl in Hst'; [|done].
  eapply writes_trans; [by apply Hm|]. apply Hf; [by apply Hm|done].
Qed.

End where_rules_write.

Ltac wr_step :=
  lazymatch goal with
  | |- writes _ ?st ?st => apply wr_refl
  | |- writes _ _ (pushIssue _ _) => apply wr_push
  | |- writes _ _ (assign _ (if ?c then _ else _) _ _) => destruct c eqn:?
  | |- writes _ _ (assign _ _ _ _) => apply wr_assign; [|assumption|reflexivity]
  | |- writes ?F ?st (let x := ?a in @?b x) =>
      lazymatch type of a with
      | state => apply (writes_trans st a (b a)); [|generalize a; intro; cbv beta]
      | _ => change (writes F st (b a)); cbv beta
      end
  | |- writes _ _ (if ?c then _ else _) => destruct c eqn:?
  | |- writes _ _ (match ?x with _ => _ end) => destruct x eqn:?
  end.

Ltac wr := repeat wr_step.

Ltac wro_step :=
  lazymatch goal with
  | |- writesO _ _ (Ok _) => apply wrO_ok
  | |- writesO _ _ (Throw _) => apply wrO_throw
  | |- writesO _ _ (mbind _ ?m) =>
      lazymatch type of m with
      | outcome state => fail "a rule: use its lemma"
      | _ =>
          destruct m as [?|?];
          lazymatch goal with
          | |- writesO ?F ?st (mbind ?f (Ok ?x)) =>
              change (writesO F st (f x)); cbv beta
          | |- writesO ?F ?st (mbind _ (Throw ?e)) =>
              change (writesO F st (Throw e)); apply wrO_throw
          end
      end
  | |- writesO ?F ?st (let x := ?a in @?b x) =>
      lazymatch type of a with
      | state => apply (wrO_trans st a (b a)); [|generalize a; intro; cbv beta]
      | _ => change (writesO F st (b a)); cbv beta
      end
  | |- writesO _ _ (if ?c then _ else _) => destruct c eqn:?
  | |- writesO _ _ (match ?x with _ => _ end) => destruct x eqn:?
  | |- writes _ _ _ => wr_step
  end.

Ltac wro := repeat wro_step.

Section rule_writes.

Variable clk : clock.
Variable F : nat -> bool.
Implicit Types (st : state) (record fixedRecord : value) (index : nat).

Lemma checkMandatory_writes index record st :
  writes F st (checkMandatory index record st).
Proof.
  unfold checkMandatory. generalize (validateMandatoryFields (st_heap st) record).
  intros flds. cut (forall st0, writes F st0 st ->
    writes F st0 (fold_left (fun st fld => pushIssue (mandatoryIssue index fld) st) flds st)).
  { intros H. apply H, wr_refl. }
  revert st. induction flds as [|fld flds IH]; intros st st0 Hst; simpl; [done|].
  apply IH. by apply wr_push.
Qed.

Lemma checkCurrency_writes index record fixedRecord st :
  target F fixedRecord -> writesO F st (checkCurrency index record fixedRecord st).
Proof. intros Ht. cbv beta delta [checkCurrency]. wro. Qed.

Lemma checkTpin_writes index record fixedRecord st :
  target F fixedRecord -> writes F st (checkTpin index record fixedRecord st).
Proof. intros Ht. unfold checkTpin. wr. Qed.

Lemma checkDate_writes index record fixedRecord st dateField :
  target F fixedRecord -> writes F st (checkDate clk index record fixedRecord st dateField).
Proof. intros Ht. unfold checkDate. wr. Qed.

Lemma checkDates_writes index record fixedRecord st :
  target F fixedRecord -> writes F st (checkDates clk index record fixedRecord st).
Proof.
  intros Ht. unfold checkDates. simpl.
  repeat (eapply writes_trans; [|by apply checkDate_writes]). apply wr_refl.
Qed.

Lemma checkVatRate_writes index record fixedRecord st :
  target F fixedRecord -> writesO F st (checkVatRate index record fixedRecord st).
Proof. intros Ht. cbv beta delta [checkVatRate]. wro. Qed.

Lemma checkNegative_writes fld what index x st :
  writes F st (checkNegative fld what index x st).
Proof. unfold checkNegative. wr. Qed.

Lemma recomputeTotals_writes index record fixedRecord vf gf taxable st :
  target F fixedRecord ->
  writesO F st (recomputeTotals index record fixedRecord vf gf taxable st).
Proof. intros Ht. cbv beta delta [recomputeTotals effectiveVatRate]. wro. Qed.

Lemma checkTotals_writes index record fixedRecord st :
  target F fixedRecord -> writesO F st (checkTotals index record fixedRecord st).
Proof.
  intros Ht. cbv beta delta [checkTotals].
  repeat lazymatch goal with
    | |- writesO _ _ (recomputeTotals _ _ _ _ _ _ _) => by apply recomputeTotals_writes
    | |- writes _ _ (checkNegative _ _ _ _ _) => apply checkNegative_writes
    | |- _ => wro_step
    end.
Qed.

Lemma checkSchema_writes index record st : writes F st (checkSchema index record st).
Proof. unfold checkSchema. wr. Qed.

Lemma asRecord_writes x st : writes F st (snd (asRecord x st)).
Proof.
  unfold asRecord. destruct (isObject (st_heap st) x); simpl; [apply wr_refl|].
  apply (wr_alloc F st st); apply wr_refl.
Qed.

Lemma lineRules_writes index lineIndex fixedLine l st :
  target F fixedLine -> writesO F st (lineRules index lineIndex fixedLine l st).
Proof.
  intros Ht. cbv beta delta [lineRules].
  repeat lazymatch goal with
    | |- writesO _ _ (mbind _ (assignStrict _ _ _ _)) =>
        apply wrO_bind; [unfold assignStrict; wro|intros ? _]
    | |- _ => wro_step
    end.
Qed.

Lemma target_lookupProp k (ps : list (string * value)) :
  Forall (target F) (map snd ps) -> target F (lookupProp k ps).
Proof.
  unfold lookupProp. induction ps as [|[k0 v0] ps IH]; simpl; [by intros _ l|].
  intros Hps. inversion Hps; subst. destruct (String.eqb k k0); simpl; [done|by apply IH].
Qed.

Lemma getProp_target h o k : closed F h -> target F o -> target F (getProp h o k).
Proof.
  intros Hc Ho. unfold getProp, objProps. destruct o as [| | | | |l]; try by intros l.
  destruct (h !! l) as [[ps|es]|] eqn:Hl; try by intros l'.
  apply target_lookupProp. destruct (Hc l (Ho l eq_refl)) as [_ Hcell].
  by apply (Hcell (CObj ps)).
Qed.

(** An element of a value of the fixed record is a cell of the fixed
    record. *)
Lemma indexInto_target h y i x :
  closed F h -> target F y -> indexInto h y i = Ok x -> target F x.
Proof.
  intros Hc Hy. unfold indexInto. destruct y as [| | | |s|l]; try done.
  - intros [= <-]. by intros l.
  - intros [= <-]. by intros l.
  - intros [= <-]. destruct (String.get i s); by intros l.
  - destruct (Hc l (Hy l eq_refl)) as [_ Hcell].
    destruct (h !! l) as [[ps|es]|] eqn:Hl; intros [= <-].
    + apply target_lookupProp. by apply (Hcell (CObj ps)).
    + specialize (Hcell (CArr es) eq_refl). simpl in Hcell.
      destruct (es !! i) as [e|] eqn:He; simpl; [|by intros l'].
      by apply (Forall_lookup_1 _ _ _ _ Hcell He).
    + by intros l'.
Qed.

Lemma processLine_writes index lineItemsField fixedRecord lineItems lineIndex st0 :
  closed F (st_heap st0) -> target F fixedRecord ->
  writesO F st0 (processLine index lineItemsField fixedRecord lineItems lineIndex st0).
Proof.
  intros Hc Ht. cbv beta delta [processLine]. wro_step.
  destruct (indexInto _ _ _) as [fixedLine|e] eqn:Hidx; [|apply wrO_throw].
  rewrite bind_Ok.
  pose proof (asRecord_writes
    (default VUndef (arrElems (st_heap st0) lineItems ≫= λ es, es !! lineIndex)) st0) as Has.
  destruct (asRecord _ st0) as [l st]. simpl in Has.
  apply (wrO_trans st0 st); [done|]. apply lineRules_writes.
  eapply indexInto_target; [exact Hc| |exact Hidx]. by apply getProp_target.
Qed.

Lemma forEachM_writes {A : Type} (f : A -> state -> outcome state) (xs : list A) st :
  (forall x s, closed F (st_heap s) -> writesO F s (f x s)) ->
  closed F (st_heap st) -> writesO F st (forEachM f xs st).
Proof.
  intros Hf. revert st. induction xs as [|x xs IH]; intros st Hc; simpl.
  - apply wrO_ok, wr_refl.
  - apply wrO_bind; [by apply Hf|]. intros s Hs. apply IH.
    by apply (writes_closed _ _ Hs).
Qed.

(** The rule on line items when there is no wrapper to replace. *)
Lemma checkLineItems_writes index record fixedRecord st :
  closed F (st_heap st) -> target F fixedRecord -> noWrapper record (st_heap st) ->
  writesO F st (checkLineItems index record fixedRecord st).
Proof.
  intros Hc Ht [_ Hw]. unfold checkLineItems.
  destruct (_ || _); [|wro].
  set (lif := if truthy _ then _ else _).
  assert (Hlif : inKeys lineItemsKeys lif = true) by (subst lif; by case_match).
  destruct (Hw lif Hlif) as [_ Hno].
  unfold normalizeLineItems. rewrite Hno.
  destruct (arrElems _ _) as [es|]; [|wro].
  match goal with
  | |- writesO _ _ (forEachM _ _ ?s) =>
      assert (Hs : writes F st s /\ st_heap s = st_heap st) by (split; [wr|by case_match]);
      destruct Hs as [Hs Hh]; apply (wrO_trans st s); [done|]
  end.
  apply forEachM_writes; [|by rewrite Hh].
  intros x s Hcs. by apply processLine_writes.
Qed.

End rule_writes.

Section no_wrapper.

Implicit Types (h : heap) (st : state) (v : value).

Lemma hasProp_setProp_ne l k k' v h x :
  k <> k' -> hasProp (setProp l k v h) x k' = hasProp h x k'.
Proof.
  intros Hne. unfold hasProp. destruct (decide (x = VRef l)) as [->|Hx].
  - rewrite objProps_setProp_same. destruct (objProps h (VRef l)); simpl; [|done].
    rewrite hasKey_assignProp. destruct (String.eqb_spec k' k); [congruence|].
    by rewrite orb_false_r.
  - by rewrite objProps_setProp_other.
Qed.

Lemma objProps_app_valid h h' x :
  (forall l, x = VRef l -> l < length h) -> objProps (h ++ h') x = objProps h x.
Proof.
  intros Hx. destruct x as [| | | | |l]; try done. simpl.
  by rewrite lookup_app_l by (by apply Hx).
Qed.

Lemma noWrapper_writeStable record : writeStable (inKeys plainKeys) (noWrapper record).
Proof.
  intros h l k v Hk [Hobj Hw]. split; [by rewrite isObject_setProp|].
  intros lif Hlif.
  assert (Hne : k <> lif).
  { intros ->. unfold inKeys, lineItemsKeys in Hlif. cbn [existsb] in Hlif.
    rewrite orb_false_r in Hlif.
    apply orb_true_iff in Hlif as [Hl|Hl]; apply String.eqb_eq in Hl; subst; done. }
  assert (Hne' : k <> "LineItem") by (intros ->; done).
  destruct (Hw lif Hlif) as [Hval Hno].
  rewrite getProp_setProp_ne, length_setProp, isObject_setProp, hasProp_setProp_ne by done.
  done.
Qed.

Lemma noWrapper_allocStable record : allocStable (noWrapper record).
Proof.
  intros h c _ [Hobj Hw]. split; [by apply isObject_app|].
  intros lif Hlif. destruct (Hw lif Hlif) as [Hval Hno].
  rewrite getProp_app by done. rewrite length_app. split; [intros l Hl; specialize (Hval l Hl); lia|].
  unfold isObject, hasProp in *. by rewrite objProps_app_valid.
Qed.

End no_wrapper.

Section original_kept.

Variable clk : clock.
Implicit Types (h : heap) (st : state) (v : value).

Lemma unwrapRecord_target (F : nat -> bool) h r f :
  closed F h -> target F f -> target F (snd (unwrapRecord h r f)).
Proof.
  intros Hc Hf. unfold unwrapRecord.
  destruct (keysOf h r) as [|inner [|]]; try done.
  destruct (isObject h (getProp h r inner)); [|done]. simpl.
  destruct (_ && _); [|done]. by apply getProp_target.
Qed.

Lemma fixedCells_spec (n0 n1 n l : nat) :
  fixedCells n0 n1 n l = true <-> n0 <= l < n /\ l <> n1.
Proof.
  unfold fixedCells. rewrite !andb_true_iff, negb_true_iff, Nat.leb_le, Nat.ltb_lt,
    Nat.eqb_neq. tauto.
Qed.

(** The cells of the fixed record when the callback has entered the
    record. *)
Lemma enterRecord_closed (n0 : nat) h (o : jv) ro rf iss seen record fixedRecord st1 :
  repr h ro o -> repr h rf (cloneElem o) ->
  n0 <= length h -> refsIn n0 (length h) rf -> placedFrom n0 h ->
  enterRecord ro rf (State h iss seen) = (record, fixedRecord, st1) ->
  let F := fixedCells n0 (length h) (length (st_heap st1)) in
  closed F (st_heap st1) /\ target F fixedRecord /\
  exists ext, st_heap st1 = h ++ ext.
Proof.
  intros Hro Hrf Hn0 Hrefs Hp. unfold enterRecord, asRecord. cbn [st_heap].
  rewrite (repr_isObject _ _ _ Hro).
  destruct (isJObj o) eqn:Ho.
  - cbv beta iota zeta. cbn [st_heap].
    rewrite (repr_isObject _ _ _ Hrf), cloneElem_isJObj, Ho.
    cbv beta iota zeta. cbn [st_heap].
    destruct (unwrapRecord h ro rf) as [record' fixedRecord'] eqn:Hu.
    intros [= <- <- <-]. cbv zeta. cbn [st_heap]. set (F := fixedCells _ _ _).
    assert (Hc : closed F h).
    { intros l [Hl _]%fixedCells_spec. split; [lia|]. intros c Hcell.
      eapply Forall_impl; [apply (Hp l c); [lia|done]|].
      intros v Hv l' ->. apply fixedCells_spec. specialize (Hv l' eq_refl). lia. }
    assert (Hf : target F rf).
    { intros l ->. apply fixedCells_spec. specialize (Hrefs l eq_refl). lia. }
    split; [done|]. split; [|exists []; by rewrite app_nil_r].
    pose proof (unwrapRecord_target F h ro rf Hc Hf) as Ht. by rewrite Hu in Ht.
  - unfold allocCell. cbv beta iota zeta. cbn [st_heap].
    assert (Hrf' : isObject (h ++ [CObj [("value", ro)]]) rf = false).
    { eapply repr_not_object; [exact Hrf|]. by rewrite cloneElem_isJObj. }
    rewrite Hrf'. cbv beta iota zeta. cbn [st_heap].
    set (h1 := (h ++ [CObj [("value", ro)]]) ++ [CObj [("value", rf)]]).
    destruct (unwrapRecord h1 _ _) as [record' fixedRecord'] eqn:Hu.
    intros [= <- <- <-]. cbv zeta. cbn [st_heap]. set (F := fixedCells _ _ _).
    assert (Hlen : length h1 = S (S (length h))).
    { unfold h1. rewrite !length_app. simpl. lia. }
    assert (Hf : target F rf).
    { intros l ->. apply fixedCells_spec. specialize (Hrefs l eq_refl). lia. }
    assert (Hc : closed F h1).
    { intros l [Hl Hne]%fixedCells_spec. split; [lia|]. intros c Hcell.
      destruct (decide (l < length h)) as [Hlt|Hge].
      - unfold h1 in Hcell. rewrite <- app_assoc, lookup_app_l in Hcell by done.
        eapply Forall_impl; [apply (Hp l c); [lia|done]|].
        intros v Hv l' ->. apply fixedCells_spec. specialize (Hv l' eq_refl). lia.
      - assert (l = S (length h)) as -> by lia.
        unfold h1 in Hcell. rewrite lookup_app_r in Hcell by (rewrite length_app; simpl; lia).
        rewrite length_app in Hcell. simpl in Hcell.
        replace (S (length h) - (length h + 1)) with 0 in Hcell by lia.
        injection Hcell as <-. simpl. by constructor. }
    split; [done|]. split.
    + pose proof (unwrapRecord_target F h1 (VRef (length h))
                    (VRef (length (h ++ [CObj [("value", ro)]]))) Hc) as Ht.
      rewrite Hu in Ht. apply Ht. intros l [= <-]. apply fixedCells_spec.
      rewrite length_app. simpl. lia.
    + eexists. unfold h1. by rewrite <- app_assoc.
Qed.

(** What the rules keep of the store: the cells of the fixed record hold
    no reference to another cell, and the other cells of the store as the
    callback entered the record are as they were. *)
Lemma writes_kept (F : nat -> bool) (h1 : heap) st st' :
  writes F st st' ->
  closed F (st_heap st) /\ length h1 <= length (st_heap st) /\
  (forall l, F l = false -> l < length h1 -> st_heap st !! l = h1 !! l) ->
  closed F (st_heap st') /\ length h1 <= length (st_heap st') /\
  (forall l, F l = false -> l < length h1 -> st_heap st' !! l = h1 !! l).
Proof.
  intros Hw (Hc & Hlen & Hsame). destruct (writes_frame _ _ Hw) as [Hlen' Hsame'].
  split; [by apply (writes_closed _ _ Hw)|]. split; [lia|].
  intros l Hl Hlt. rewrite Hsame' by (done || lia). by apply Hsame.
Qed.

(** The callback leaves the record as it is, unless its line items come
    in a wrapper. *)
Lemma processRecord_frame index (o : jv) ro rf h iss seen st :
  placeRecord o (cloneElem o) = (ro, rf, h) ->
  lineItemWrapped o = false ->
  processRecord clk index ro rf (State h iss seen) = Ok st ->
  contentOf (st_heap st) ro = o.
Proof.
  intros Hp Hwrap Hrun.
  pose proof (place_repr _ _ _ _ _ Hp) as [Hro Hrf].
  unfold lineItemWrapped, recordStart in Hwrap. rewrite Hp in Hwrap.
  unfold placeRecord in Hp.
  destruct (alloc o []) as [ro' h0] eqn:Ho.
  destruct (alloc (cloneElem o) h0) as [rf' h'] eqn:Hf. injection Hp as -> -> ->.
  destruct (alloc_spec _ _ _ _ Ho) as [_ Hro0].
  destruct (alloc_spec _ _ _ _ Hf) as [[e He] _].
  destruct (alloc_placed _ _ _ _ Ho) as [_ Hp0]. simpl in Hp0.
  destruct (alloc_placed _ _ _ _ Hf) as [Hrefs Hpf].
  assert (Hn0 : length h0 <= length h) by (rewrite He, length_app; lia).
  destruct (processRecord_trace clk _ _ _ _ _ Hrun)
    as (record & fixedRecord & st1 & st3 & st4 & st7 & st8 & st9 &
        Hent & H3 & H4 & H7 & H8 & H9 & ->).
  destruct (enterRecord_closed (length h0) _ _ _ _ _ _ _ _ _ Hro Hrf Hn0 Hrefs Hpf Hent)
    as (Hc1 & Ht & ext & Hext).
  set (F := fixedCells (length h0) (length h) (length (st_heap st1))) in *.
  (* the record has no wrapper of line items *)
  assert (Hw1 : noWrapper record (st_heap st1)).
  { pose proof (enterRecord_inner _ _ _ _ _ _ _ _ _ Hro Hent) as Hrec.
    rewrite enterRecord_indep in Hent.
    destruct (enterRecord ro rf (State h [] ∅)) as [[record' fixedRecord'] st0].
    injection Hent as -> -> <-. cbn [st_heap] in *.
    split; [by rewrite (repr_isObject _ _ _ Hrec), innerRecord_isJObj|].
    intros lif Hlif.
    pose proof (getProp_repr_jprop _ _ _ lif Hrec (innerRecord_isJObj o)) as Hli.
    split.
    - intros l Hl. rewrite Hl in Hli. apply repr_valid in Hli as [c Hcell].
      by apply lookup_lt_Some in Hcell.
    - unfold lineItemsKeys in Hwrap. cbn [existsb] in Hwrap.
      rewrite orb_false_r in Hwrap. apply orb_false_iff in Hwrap as [Hw1 Hw2].
      unfold inKeys, lineItemsKeys in Hlif. cbn [existsb] in Hlif.
      rewrite orb_false_r in Hlif.
      apply orb_true_iff in Hlif as [Hl|Hl]; apply String.eqb_eq in Hl; by subst. }
  assert (Hsub : forall ks, forallb (inKeys plainKeys) ks = true ->
                            forall k, inKeys ks k = true -> inKeys plainKeys k = true)
    by (intros ks; apply inKeys_sub).
  assert (Hstep : forall ks (sa sb : state), forallb (inKeys plainKeys) ks = true ->
                    evolves (inKeys ks) notDuplicate sa sb ->
                    noWrapper record (st_heap sa) -> noWrapper record (st_heap sb)).
  { intros ks sa sb Hks Hev.
    apply (evolves_heap (K:=inKeys plainKeys) (Q:=notDuplicate));
      [apply noWrapper_writeStable|apply noWrapper_allocStable|].
    eapply evolves_mono; [by apply Hsub|done|exact Hev]. }
  assert (Hw3 : noWrapper record (st_heap st3)).
  { by rewrite (checkInvoiceNumber_heap _ _ _ _ H3), checkMandatory_heap. }
  assert (Hw7 : noWrapper record (st_heap st7)).
  { apply (Hstep vatRateKeys _ _ eq_refl (checkVatRate_evolves _ _ _ _ _ H7)).
    apply (Hstep dateKeys _ _ eq_refl (checkDates_evolves clk index record fixedRecord _)).
    apply (Hstep tpinKeys _ _ eq_refl (checkTpin_evolves index record fixedRecord st4)).
    by apply (Hstep currencyKeys _ _ eq_refl (checkCurrency_evolves _ _ _ _ _ H4)). }
  (* the cells outside the fixed record *)
  assert (K1 : closed F (st_heap st1) /\ length (st_heap st1) <= length (st_heap st1) /\
               (forall l, F l = false -> l < length (st_heap st1) ->
                          st_heap st1 !! l = st_heap st1 !! l)) by done.
  assert (K3 : closed F (st_heap st3) /\ length (st_heap st1) <= length (st_heap st3) /\
               (forall l, F l = false -> l < length (st_heap st1) ->
                          st_heap st3 !! l = st_heap st1 !! l)).
  { by rewrite (checkInvoiceNumber_heap _ _ _ _ H3), checkMandatory_heap. }
  pose proof (writes_kept F _ _ _ (checkCurrency_writes F _ _ _ _ Ht _ H4) K3) as K4.
  pose proof (writes_kept F _ _ _ (checkTpin_writes F index record _ st4 Ht) K4) as K5.
  pose proof (writes_kept F _ _ _ (checkDates_writes clk F index record _ _ Ht) K5) as K6.
  pose proof (writes_kept F _ _ _ (checkVatRate_writes F _ _ _ _ Ht _ H7) K6) as K7.
  pose proof (writes_kept F _ _ _
                (checkLineItems_writes F _ _ _ _ (proj1 K7) Ht Hw7 _ H8) K7) as K8.
  pose proof (writes_kept F _ _ _ (checkTotals_writes F _ _ _ _ Ht _ H9) K8) as K9.
  pose proof (writes_kept F _ _ _ (checkSchema_writes F index record st9) K9)
    as (_ & Hlen & Hsame).
  apply (contentOf_frame h0); [done| | |done].
  - rewrite Hext, length_app in Hlen. lia.
  - intros l Hl. rewrite Hsame.
    + rewrite Hext, He, <- app_assoc. by rewrite lookup_app_l.
    + apply not_true_is_false. intros [Hge _]%fixedCells_spec. lia.
    + rewrite Hext, length_app. lia.
Qed.

Lemma validateRecords_originals (records : list jv) :
  forall index iss seen origs fixeds iss',
    Forall (fun o => lineItemWrapped o = false) records ->
    validateRecords clk index records (map cloneElem records) iss seen =
      Ok (origs, fixeds, iss') ->
    origs = records.
Proof.
  induction records as [|o records IH]; intros index iss seen origs fixeds iss' Hall; simpl.
  - by intros [= <- <- <-].
  - inversion Hall as [|? ? Ho Hrest']; subst.
    destruct (placeRecord o (cloneElem o)) as [[ro rf] h] eqn:Hp.
    intros (st & Hst & Hrest)%bind_Ok_inv.
    apply bind_Ok_inv in Hrest as ([[origs' fixeds'] iss''] & Hrest & [= <- <- <-]).
    rewrite (processRecord_frame _ _ _ _ _ _ _ _ Hp Ho Hst).
    f_equal. by eapply IH.
Qed.

Lemma reassemble_id (data : jv) : reassemble data (asList (unwrapTop data)) = data.
Proof.
  destruct data as [| | | | |l|ps]; try done.
  destruct ps as [|[k t] [|]]; try done; by destruct t.
Qed.

End original_kept.

(** The call does not write to its argument, unless a record has its line
    items under [LineItems] or [lineItems] in an object with a property
    [LineItem], the wrapper of the XML decoder: then [originalData], the
    argument as the caller sees it after the call, is the argument as it
    was. *)
Theorem argument_not_modified (clk : clock) (data : jv) (fileType : FileType)
        (r : ValidationResult) :
  (forall o, In o (payloadRecords data) -> lineItemWrapped o = false) ->
  validateAndFix clk data fileType = Ok r ->
  originalData r = data.
Proof.
  intros Hall. unfold validateAndFix.
  destruct (jsonClone (unwrapTop data)) as [fixedData0|] eqn:Hc; [|done].
  rewrite (asList_jsonClone _ _ Hc).
  intros ([[origs fixeds] iss] & Hrun & [= <-])%bind_Ok_inv. simpl.
  rewrite (validateRecords_originals clk _ _ _ _ _ _ _ (proj2 (List.Forall_forall _ _) Hall) Hrun).
  apply reassemble_id.
Qed.

Lemma argument_not_modified_witness :
  exists r : ValidationResult,
    validateAndFix exampleClock exemptInvoice Json = Ok r /\
    originalData r = exemptInvoice.
Proof.
  eexists. split; [vm_compute; reflexivity|].
  apply (argument_not_modified exampleClock exemptInvoice Json);
    [|vm_compute; reflexivity].
  intros o [<-|[]]. vm_compute. reflexivity.
Defined.

(** * The taxpayer ID of the fixed record *)

Section tpin_fixed.

Variable clk : clock.
Implicit Types (h : heap) (st : state) (k : string).

Lemma tpinSame_writeStable r f k (v : value) :
  inKeys tpinKeys k = true -> writeStable notTpin (tpinSame r f k v).
Proof.
  intros Hk h l k' v' Hk' (Ha & Hv & Hf).
  assert (Hne : forall k0, inKeys tpinKeys k0 = true -> k' <> k0).
  { intros k0 Hk0 ->. unfold notTpin in Hk'. by rewrite Hk0 in Hk'. }
  unfold tpinSame, tpinAlias in *.
  rewrite !(getProp_setProp_ne _ _ "TPIN"), !(getProp_setProp_ne _ _ "tpin"),
    !(getProp_setProp_ne _ _ "TaxpayerTIN") by (by apply Hne).
  split; [done|]. rewrite !(getProp_setProp_ne _ _ k) by (by apply Hne). done.
Qed.

Lemma tpinSame_allocStable r f k (v : value) :
  v <> VUndef -> allocStable (tpinSame r f k v).
Proof.
  intros Hdef h c _ (Ha & Hv & Hf).
  assert (Hr : isObject h r = true) by (apply (getProp_defined_isObject h r k); by rewrite Hv).
  assert (Hf' : isObject h f = true) by (apply (getProp_defined_isObject h f k); by rewrite Hf).
  unfold tpinSame, tpinAlias in *. by rewrite !getProp_app by done.
Qed.

(** The rule on a value that is no object: afterwards the fixed record
    holds the normalized string. *)
Lemma checkTpin_prim index record fixedRecord k (v : value) (t : jv) st :
  tpinSame record fixedRecord k v (st_heap st) ->
  repr (st_heap st) v t -> isNode t = false -> t <> JUndef ->
  getProp (st_heap (checkTpin index record fixedRecord st)) fixedRecord k =
    VStr (fst (normalizeTpin t)).
Proof.
  intros (Ha & Hv & Hf) Hr Hprim Hdef.
  assert (Hobj : isObject (st_heap st) fixedRecord = true).
  { apply (getProp_defined_isObject _ _ k). rewrite Hf. intros ->. by inversion Hr. }
  apply isObject_true in Hobj as (lf & ps & -> & Hlf).
  unfold checkTpin. rewrite Ha, Hv.
  assert (He : extractPrimitive (st_heap st) v = v).
  { unfold extractPrimitive. destruct (isNullish v); [done|].
    rewrite (repr_isObject _ _ _ Hr). by destruct t. }
  rewrite He, (repr_reify_prim _ _ _ _ _ Hr Hprim : contentOf (st_heap st) v = t).
  destruct (normalizeTpin t) as [n conf]. cbn [fst].
  destruct (differsFrom n v) eqn:Hd.
  - unfold pushIssue, assign. cbn [st_heap]. apply getProp_setProp_eq.
    by apply (isObject_obj _ _ ps).
  - rewrite Hf. unfold differsFrom in Hd. destruct v; try done.
    apply negb_false_iff, bool_decide_eq_true in Hd. by subst.
Qed.

Lemma enterRecord_prim h ro rf (kts : list (string * jv)) k iss seen :
  repr h ro (JObj kts) -> repr h rf (cloneElem (JObj kts)) ->
  isNode (jlookup k kts) = false -> jlookup k kts <> JUndef ->
  enterRecord ro rf (State h iss seen) = (ro, rf, State h iss seen).
Proof.
  intros Hro Hrf Hprim Hdef. unfold enterRecord, asRecord. cbn [st_heap].
  rewrite (repr_isObject _ _ _ Hro). cbn [st_heap isJObj].
  rewrite (repr_isObject _ _ _ Hrf), cloneElem_isJObj. cbn [st_heap isJObj].
  unfold unwrapRecord.
  destruct (keysOf h ro) as [|inner [|]] eqn:Hkeys; try done.
  destruct (isObject h (getProp h ro inner)) eqn:Hinner; [|done].
  exfalso.
  inversion Hro as [| | | | | |l kvs kts0 Hl Hkvs]; subst.
  unfold keysOf in Hkeys. simpl in Hkeys. rewrite Hl in Hkeys.
  destruct kvs as [|[k0 v0] [|]]; try done. injection Hkeys as ->.
  inversion Hkvs as [|? [k1 t1] ? ? [Hk1 Hv0] Hnil]; subst. inversion Hnil; subst.
  simpl in Hk1. subst k1. simpl in Hv0.
  unfold getProp in Hinner. simpl in Hinner. rewrite Hl in Hinner.
  unfold lookupProp in Hinner. simpl in Hinner. rewrite String.eqb_refl in Hinner.
  simpl in Hinner. rewrite (repr_isObject _ _ _ Hv0) in Hinner.
  unfold jlookup, jprop in Hprim, Hdef. simpl in Hprim, Hdef.
  destruct (String.eqb k inner); simpl in Hprim, Hdef; [|done].
  by destruct t1.
Qed.

Lemma repr_prim_inj h (a b : value) (t : jv) :
  repr h a t -> repr h b t -> isNode t = false -> a = b.
Proof. intros Ha Hb Ht. destruct t; try done; inversion Ha; inversion Hb; congruence. Qed.

Lemma repr_prim_heap h h' (a : value) (t : jv) :
  repr h a t -> isNode t = false -> repr h' a t.
Proof. intros Ha Ht. destruct t; try done; inversion Ha; constructor. Qed.

(** The callback on a record whose taxpayer ID is no object. *)
Lemma processRecord_tpin_prim index ro rf h (kts : list (string * jv)) k iss seen st :
  repr h ro (JObj kts) -> repr h rf (cloneElem (JObj kts)) ->
  tpinAliasOf kts = Some k -> isNode (jlookup k kts) = false ->
  processRecord clk index ro rf (State h iss seen) = Ok st ->
  getProp (st_heap st) rf k = VStr (fst (normalizeTpin (jlookup k kts))).
Proof.
  intros Hro Hrf Ha Hprim Hrun.
  pose proof (tpinAliasOf_keys _ _ Ha) as Hkey.
  assert (Hdef : jlookup k kts <> JUndef).
  { intros E. unfold tpinAliasOf in Ha. unfold jlookup in E.
    destruct (negb (isJUndef (jprop "TPIN" (JObj kts)))) eqn:E1;
      [injection Ha as <-; by rewrite E in E1|].
    destruct (negb (isJUndef (jprop "tpin" (JObj kts)))) eqn:E2;
      [injection Ha as <-; by rewrite E in E2|].
    destruct (negb (isJUndef (jprop "TaxpayerTIN" (JObj kts)))) eqn:E3;
      [injection Ha as <-; by rewrite E in E3|done]. }
  destruct (processRecord_steps clk _ _ _ _ _ Hrun)
    as (record & fixedRecord & st1 & st3 & st4 & He & H3 & H4 & Ht).
  rewrite (enterRecord_prim _ _ _ _ _ _ _ Hro Hrf Hprim Hdef) in He.
  injection He as <- <- <-.
  pose proof (getProp_repr _ _ _ k Hro) as Hv.
  set (v := getProp h ro k) in *.
  assert (Hvdef : v <> VUndef) by (intros E; rewrite E in Hv; by inversion Hv).
  assert (H0 : tpinSame ro rf k v h).
  { split; [by rewrite (tpinAlias_repr _ _ _ Hro)|]. split; [done|].
    change (cloneElem (JObj kts)) with (JObj (cloneProps kts)) in Hrf.
    pose proof (getProp_repr _ _ _ k Hrf) as Hv'.
    rewrite (jlookup_cloneProps k kts (jlookup k kts)) in Hv'
      by (by apply jsonClone_prim).
    symmetry. by apply (repr_prim_inj h _ _ (jlookup k kts)). }
  assert (K3 : tpinSame ro rf k v (st_heap st3)).
  { by rewrite (checkInvoiceNumber_heap _ _ _ _ H3), checkMandatory_heap. }
  assert (K4 : tpinSame ro rf k v (st_heap st4)).
  { eapply (evolves_heap (K:=notTpin) (Q:=notDuplicate));
      [by apply tpinSame_writeStable|by apply tpinSame_allocStable| |exact K3].
    eapply evolves_mono; [|done|exact (checkCurrency_evolves _ _ _ _ _ H4)].
    intros k' Hk'. by apply (inKeys_disjoint currencyKeys tpinKeys). }
  assert (Hv4 : repr (st_heap st4) v (jlookup k kts)).
  { by apply (repr_prim_heap h). }
  pose proof (checkTpin_prim index ro rf k v _ st4 K4 Hv4 Hprim Hdef) as H5.
  eapply (evolves_heap (K:=notTpin) (Q:=notDuplicate));
    [by apply tpinWritten_writeStable|apply tpinWritten_allocStable| |exact H5].
  eapply evolves_mono; [|done|exact Ht].
  intros k' Hk'. by apply (inKeys_disjoint _ tpinKeys) in Hk'.
Qed.

Lemma tpin_fixed (data : jv) (fileType : FileType) (r : ValidationResult)
      (i : nat) (props : list (string * jv)) k :
  validateAndFix clk data fileType = Ok r ->
  payloadRecords data !! i = Some (JObj props) ->
  tpinAliasOf props = Some k ->
  isNode (jprop k (JObj props)) = false ->
  exists fixedRecord : jv,
    asList (fixedData r) !! i = Some fixedRecord /\
    jprop k fixedRecord = JStr (fst (normalizeTpin (jprop k (JObj props)))).
Proof.
  intros Hr Hi Ha Hprim.
  destruct (validateAndFix_at clk _ _ _ _ _ Hr Hi)
    as (ro & rf & h & issi & seeni & st & fixeds & Hp & Hst & Hf & Hfd & _).
  destruct (place_repr _ _ _ _ _ Hp) as [Hro Hrf].
  pose proof (processRecord_tpin_prim _ _ _ _ _ _ _ _ _ Hro Hrf Ha Hprim Hst) as Hw.
  destruct (contentOf_prop _ _ _ _ Hw) as [Hobj Hprop].
  exists (contentOf (st_heap st) rf). split; [|done].
  rewrite Hfd. destruct (decide (isJArr data = true)) as [Harr|Harr].
  - destruct data; first [done|exact Hf].
  - rewrite payloadRecords_single in Hi by done.
    destruct i; [|done]. simpl in Hf.
    destruct fixeds as [|f0 fixeds]; [done|]. simpl in Hf. injection Hf as ->.
    destruct data; try done; simpl; by destruct (contentOf (st_heap st) rf).
Qed.

End tpin_fixed.

(** Whatever a record of the payload holds under its taxpayer-ID alias
    (the first of [TPIN], [tpin] and [TaxpayerTIN] that is not undefined),
    a string, a number, a boolean or null: the fixed record holds under the
    alias the string that [normalizeTpin] returns for it. *)
Theorem tpin_of_fixed_record (clk : clock) (data : jv) (fileType : FileType)
        (r : ValidationResult) (i : nat) (props : list (string * jv)) (k : string) :
  validateAndFix clk data fileType = Ok r ->
  payloadRecords data !! i = Some (JObj props) ->
  tpinAliasOf props = Some k ->
  isNode (jprop k (JObj props)) = false ->
  exists fixedRecord : jv,
    asList (fixedData r) !! i = Some fixedRecord /\
    jprop k fixedRecord = JStr (fst (normalizeTpin (jprop k (JObj props)))).
Proof. apply tpin_fixed. Qed.

Lemma tpin_of_fixed_record_witness :
  exists (r : ValidationResult) (fixedRecord : jv),
    validateAndFix exampleClock dashedTpinInvoice Json = Ok r /\
    asList (fixedData r) !! 0 = Some fixedRecord /\
    jprop "TPIN" fixedRecord = JStr "1234567890".
Proof.
  destruct (validateAndFix exampleClock dashedTpinInvoice Json) as [r|e] eqn:Hr;
    [|vm_compute in Hr; discriminate Hr].
  destruct (tpin_of_fixed_record exampleClock dashedTpinInvoice Json r 0
              [("TPIN", JStr "1234-567-890"); ("InvoiceNumber", JStr "INV-9")] "TPIN"
              Hr eq_refl eq_refl eq_refl) as (fixedRecord & Hf & Hk).
  exists r, fixedRecord. split; [reflexivity|]. split; [exact Hf|exact Hk].
Defined.

(** * The dates of the fixed record *)

Section dates_fixed.

Variable clk : clock.
Implicit Types (h : heap) (st : state) (k f : string).

Lemma propSame_writeStable r fr k (v : value) : writeStable (otherKey k) (propSame r fr k v).
Proof.
  intros h l k' v' Hk' [Hr Hf]. unfold otherKey in Hk'.
  assert (k' <> k) by (intros ->; by rewrite String.eqb_refl in Hk').
  unfold propSame. by rewrite !getProp_setProp_ne.
Qed.

Lemma propSame_allocStable r fr k (v : value) :
  v <> VUndef -> allocStable (propSame r fr k v).
Proof.
  intros Hdef h c _ [Hr Hf].
  assert (isObject h r = true) by (apply (getProp_defined_isObject h r k); by rewrite Hr).
  assert (isObject h fr = true) by (apply (getProp_defined_isObject h fr k); by rewrite Hf).
  unfold propSame. by rewrite !getProp_app.
Qed.

Lemma propIs_writeStable fr k (v : value) : writeStable (otherKey k) (propIs fr k v).
Proof.
  intros h l k' v' Hk' Hf. unfold otherKey in Hk'.
  assert (k' <> k) by (intros ->; by rewrite String.eqb_refl in Hk').
  unfold propIs. by rewrite getProp_setProp_ne.
Qed.

Lemma propIs_allocStable fr k (v : value) : v <> VUndef -> allocStable (propIs fr k v).
Proof.
  intros Hdef h c _ Hf.
  assert (isObject h fr = true) by (apply (getProp_defined_isObject h fr k); by rewrite Hf).
  unfold propIs. by rewrite getProp_app.
Qed.

(** The rule on one date writes to the key of the date only. *)
Lemma checkDate_evolves_key index record fixedRecord st dateField :
  evolves (String.eqb dateField) notDuplicate st
          (checkDate clk index record fixedRecord st dateField).
Proof.
  pose proof (String.eqb_refl dateField) as Hk. unfold checkDate.
  repeat lazymatch goal with
    | |- evolves _ _ _ (pushIssue _ _) =>
        apply ev_push; [|unfold notDuplicate; simpl; discriminate]
    | |- _ => ev_step
    end.
Qed.

Lemma repr_truthy h (v : value) (t : jv) : repr h v t -> truthy v = truthyJ t.
Proof. by destruct 1. Qed.

Section one_date.

Variables (index : nat) (record fixedRecord : value) (f : string) (v : value) (t : jv).
Hypothesis Hprim : isNode t = false.
Hypothesis Htruthy : truthyJ t = true.
Hypothesis Hrepr : forall h, repr h v t.

Lemma date_value_defined : v <> VUndef.
Proof. intros ->. pose proof (Hrepr []) as Hr. inversion Hr; subst. done. Qed.

Lemma checkDate_prim st :
  propSame record fixedRecord f v (st_heap st) ->
  propIs fixedRecord f (VStr (fst (normalizeDate clk t)))
         (st_heap (checkDate clk index record fixedRecord st f)).
Proof.
  intros [Hv Hf]. pose proof (Hrepr (st_heap st)) as Hr.
  assert (Hobj : isObject (st_heap st) fixedRecord = true).
  { apply (getProp_defined_isObject _ _ f). rewrite Hf. apply date_value_defined. }
  apply isObject_true in Hobj as (lf & ps & -> & Hlf).
  unfold checkDate, propIs. rewrite Hv, (repr_truthy _ _ _ Hr), Htruthy.
  assert (He : extractPrimitive (st_heap st) v = v).
  { unfold extractPrimitive. destruct (isNullish v); [done|].
    rewrite (repr_isObject _ _ _ Hr). by destruct t. }
  rewrite He, (repr_reify_prim _ _ _ _ _ Hr Hprim : contentOf (st_heap st) v = t).
  destruct (normalizeDate clk t) as [n conf]. cbn [fst].
  destruct (differsFrom n v) eqn:Hd.
  - unfold pushIssue, assign. cbn [st_heap]. apply getProp_setProp_eq.
    by apply (isObject_obj _ _ ps).
  - rewrite Hf. unfold differsFrom in Hd. destruct v; try done.
    apply negb_false_iff, bool_decide_eq_true in Hd. by subst.
Qed.

Lemma checkDate_other st f' :
  String.eqb f f' = false ->
  propSame record fixedRecord f v (st_heap st) ->
  propSame record fixedRecord f v (st_heap (checkDate clk index record fixedRecord st f')).
Proof.
  intros Hne.
  apply (evolves_heap (K:=otherKey f) (Q:=notDuplicate));
    [apply propSame_writeStable|apply propSame_allocStable, date_value_defined|].
  eapply evolves_mono; [|done|apply checkDate_evolves_key].
  intros k Hk. apply String.eqb_eq in Hk as <-. unfold otherKey.
  by rewrite String.eqb_sym, Hne.
Qed.

Lemma checkDate_other_after st f' (n : string) :
  String.eqb f f' = false ->
  propIs fixedRecord f (VStr n) (st_heap st) ->
  propIs fixedRecord f (VStr n) (st_heap (checkDate clk index record fixedRecord st f')).
Proof.
  intros Hne.
  apply (evolves_heap (K:=otherKey f) (Q:=notDuplicate));
    [apply propIs_writeStable|by apply propIs_allocStable|].
  eapply evolves_mono; [|done|apply checkDate_evolves_key].
  intros k Hk. apply String.eqb_eq in Hk as <-. unfold otherKey.
  by rewrite String.eqb_sym, Hne.
Qed.

End one_date.

Lemma checkDates_prim index record fixedRecord f (v : value) (t : jv) st :
  isNode t = false -> truthyJ t = true -> (forall h, repr h v t) ->
  inKeys dateKeys f = true ->
  propSame record fixedRecord f v (st_heap st) ->
  propIs fixedRecord f (VStr (fst (normalizeDate clk t)))
         (st_heap (checkDates clk index record fixedRecord st)).
Proof.
  intros Hprim Htruthy Hrepr Hf H0. unfold checkDates. cbn [fold_left].
  unfold inKeys, dateKeys in Hf. cbn [existsb] in Hf. rewrite orb_false_r in Hf.
  repeat (apply orb_true_iff in Hf as [Hf|Hf]); apply String.eqb_eq in Hf; subst f;
    repeat (apply checkDate_other_after; [reflexivity|]);
    apply (checkDate_prim _ _ _ _ v t Hprim Htruthy Hrepr);
    repeat (apply (checkDate_other _ _ _ _ v t Hprim Htruthy Hrepr); [reflexivity|]);
    exact H0.
Qed.

(** The callback on a record with a date that is no object. *)
Lemma processRecord_date_prim index ro rf h (kts : list (string * jv)) f iss seen st :
  repr h ro (JObj kts) -> repr h rf (cloneElem (JObj kts)) ->
  inKeys dateKeys f = true ->
  isNode (jlookup f kts) = false -> truthyJ (jlookup f kts) = true ->
  processRecord clk index ro rf (State h iss seen) = Ok st ->
  getProp (st_heap st) rf f = VStr (fst (normalizeDate clk (jlookup f kts))).
Proof.
  intros Hro Hrf Hf Hprim Htruthy Hrun.
  assert (Hdef : jlookup f kts <> JUndef) by (intros E; by rewrite E in Htruthy).
  destruct (processRecord_trace clk _ _ _ _ _ Hrun)
    as (record & fixedRecord & st1 & st3 & st4 & st7 & st8 & st9 &
        He & H3 & H4 & H7 & H8 & H9 & ->).
  rewrite (enterRecord_prim _ _ _ _ _ _ _ Hro Hrf Hprim Hdef) in He.
  injection He as <- <- <-.
  pose proof (getProp_repr _ _ _ f Hro) as Hv.
  set (v := getProp h ro f) in *.
  assert (Hrepr : forall h', repr h' v (jlookup f kts))
    by (intros h'; by apply (repr_prim_heap h)).
  pose proof (date_value_defined v _ Hprim Htruthy Hrepr) as Hvdef.
  assert (H0 : propSame ro rf f v h).
  { split; [done|].
    change (cloneElem (JObj kts)) with (JObj (cloneProps kts)) in Hrf.
    pose proof (getProp_repr _ _ _ f Hrf) as Hv'.
    rewrite (jlookup_cloneProps f kts (jlookup f kts)) in Hv'
      by (by apply jsonClone_prim).
    symmetry. by apply (repr_prim_inj h _ _ (jlookup f kts)). }
  assert (Hsame : forall ks (sa sb : state),
            forallb (otherKey f) ks = true ->
            evolves (inKeys ks) notDuplicate sa sb ->
            propSame ro rf f v (st_heap sa) -> propSame ro rf f v (st_heap sb)).
  { intros ks sa sb Hks Hev.
    apply (evolves_heap (K:=otherKey f) (Q:=notDuplicate));
      [apply propSame_writeStable|by apply propSame_allocStable|].
    eapply evolves_mono; [|done|exact Hev].
    intros k Hk. unfold inKeys in Hk. apply existsb_exists in Hk as (k' & Hin & Heq).
    apply String.eqb_eq in Heq as <-. rewrite forallb_forall in Hks. by apply Hks. }
  set (n := fst (normalizeDate clk (jlookup f kts))).
  assert (His : forall ks (sa sb : state),
            forallb (otherKey f) ks = true ->
            evolves (inKeys ks) notDuplicate sa sb ->
            propIs rf f (VStr n) (st_heap sa) -> propIs rf f (VStr n) (st_heap sb)).
  { intros ks sa sb Hks Hev.
    apply (evolves_heap (K:=otherKey f) (Q:=notDuplicate));
      [apply propIs_writeStable|by apply propIs_allocStable|].
    eapply evolves_mono; [|done|exact Hev].
    intros k Hk. unfold inKeys in Hk. apply existsb_exists in Hk as (k' & Hin & Heq).
    apply String.eqb_eq in Heq as <-. rewrite forallb_forall in Hks. by apply Hks. }
  assert (Hks : forallb (otherKey f) currencyKeys = true /\
                forallb (otherKey f) tpinKeys = true /\
                forallb (otherKey f) vatRateKeys = true /\
                forallb (otherKey f) (lineItemsKeys ++ lineTotalKeys) = true /\
                forallb (otherKey f) totalsKeys = true /\
                forallb (otherKey f) [] = true).
  { unfold inKeys, dateKeys in Hf. cbn [existsb] in Hf. rewrite orb_false_r in Hf.
    repeat (apply orb_true_iff in Hf as [Hf|Hf]); apply String.eqb_eq in Hf; subst f;
      repeat split; reflexivity. }
  destruct Hks as (Kc & Kt & Kv & Kl & Ka & Ke).
  assert (K3 : propSame ro rf f v (st_heap st3)).
  { by rewrite (checkInvoiceNumber_heap _ _ _ _ H3), checkMandatory_heap. }
  pose proof (Hsame _ _ _ Kc (checkCurrency_evolves _ _ _ _ _ H4) K3) as K4.
  pose proof (Hsame _ _ _ Kt (checkTpin_evolves index ro rf st4) K4) as K5.
  pose proof (checkDates_prim index ro rf f v _ _ Hprim Htruthy Hrepr Hf K5) as K6.
  fold n in K6.
  pose proof (His _ _ _ Kv (checkVatRate_evolves _ _ _ _ _ H7) K6) as K7.
  pose proof (His _ _ _ Kl (checkLineItems_evolves _ _ _ _ _ H8) K7) as K8.
  pose proof (His _ _ _ Ka (checkTotals_evolves _ _ _ _ _ H9) K8) as K9.
  exact (His _ _ _ Ke (checkSchema_evolves (inKeys []) index ro st9) K9).
Qed.

Lemma date_fixed (data : jv) (fileType : FileType) (r : ValidationResult)
      (i : nat) (props : list (string * jv)) f :
  validateAndFix clk data fileType = Ok r ->
  payloadRecords data !! i = Some (JObj props) ->
  inKeys dateKeys f = true ->
  isNode (jprop f (JObj props)) = false -> truthyJ (jprop f (JObj props)) = true ->
  exists fixedRecord : jv,
    asList (fixedData r) !! i = Some fixedRecord /\
    jprop f fixedRecord = JStr (fst (normalizeDate clk (jprop f (JObj props)))).
Proof.
  intros Hr Hi Hf Hprim Htruthy.
  destruct (validateAndFix_at clk _ _ _ _ _ Hr Hi)
    as (ro & rf & h & issi & seeni & st & fixeds & Hp & Hst & Hfx & Hfd & _).
  destruct (place_repr _ _ _ _ _ Hp) as [Hro Hrf].
  pose proof (processRecord_date_prim _ _ _ _ _ _ _ _ _ Hro Hrf Hf Hprim Htruthy Hst) as Hw.
  destruct (contentOf_prop _ _ _ _ Hw) as [Hobj Hprop].
  exists (contentOf (st_heap st) rf). split; [|done].
  rewrite Hfd. destruct (decide (isJArr data = true)) as [Harr|Harr].
  - destruct data; first [done|exact Hfx].
  - rewrite payloadRecords_single in Hi by done.
    destruct i; [|done]. simpl in Hfx.
    destruct fixeds as [|f0 fixeds]; [done|]. simpl in Hfx. injection Hfx as ->.
    destruct data; try done; simpl; by destruct (contentOf (st_heap st) rf).
Qed.

End dates_fixed.

(** A record of the payload with a string, a number or [true] under one
    of the date keys ([Date], [date], [InvoiceDate], [TransactionDate]),
    the empty string and 0 apart: the fixed record holds under that key
    the date that [normalizeDate] returns for the value. *)
Theorem date_of_fixed_record (clk : clock) (data : jv) (fileType : FileType)
        (r : ValidationResult) (i : nat) (props : list (string * jv)) (f : string) :
  validateAndFix clk data fileType = Ok r ->
  payloadRecords data !! i = Some (JObj props) ->
  inKeys dateKeys f = true ->
  isNode (jprop f (JObj props)) = false -> truthyJ (jprop f (JObj props)) = true ->
  exists fixedRecord : jv,
    asList (fixedData r) !! i = Some fixedRecord /\
    jprop f fixedRecord = JStr (fst (normalizeDate clk (jprop f (JObj props)))).
Proof. apply date_fixed. Qed.

Lemma date_of_fixed_record_witness :
  exists (r : ValidationResult) (fixedRecord : jv),
    validateAndFix exampleClock dayFirstInvoice Json = Ok r /\
    asList (fixedData r) !! 0 = Some fixedRecord /\
    jprop "InvoiceDate" fixedRecord = JStr "2025-03-05".
Proof.
  destruct (validateAndFix exampleClock dayFirstInvoice Json) as [r|e] eqn:Hr;
    [|vm_compute in Hr; discriminate Hr].
  destruct (date_of_fixed_record exampleClock dayFirstInvoice Json r 0
              [("TPIN", JStr "1234567890"); ("InvoiceNumber", JStr "INV-10");
               ("InvoiceDate", JStr "5.3.2025")] "InvoiceDate"
              Hr eq_refl eq_refl eq_refl eq_refl) as (fixedRecord & Hf & Hk).
  exists r, fixedRecord. split; [reflexivity|]. split; [exact Hf|exact Hk].
Defined.

(** * The call returns, and what its fixes are worth *)


